(** * chainspec-generator: the genesis-document builders of [index.js]

    A shallow embedding of the chain-spec generator, in the revision of
    [index.js] that derives every address from a seed ([loadKeyFromMemo]):
    the parsed YAML chain configuration and the parsed JSON genesis skeleton
    are JavaScript values, the lodash helpers the builders call are functions
    on those values, the two keyrings are parameters, and every builder is a
    computation on the document object it receives as [config]. *)

From Stdlib Require Import List String Ascii ZArith Lia Bool.
From Stdlib Require Import Strings.Byte.
From Stdlib Require Import DecimalString.
Import ListNotations.
Open Scope string_scope.
Set Warnings "-notation-for-abbreviation".

(** ** JavaScript values

    What [fse.readJson] and [yaml.safeLoad] hand to the program.  An object
    is the list of its own enumerable properties in enumeration order; a
    number is an integer (amounts and counts; below 2^53); strings are ASCII. *)

#[warnings="-register-all"]
Inductive value : Type :=
| VUndefined
| VNull
| VBool (b : bool)
| VNum (n : Z)
| VStr (s : string)
| VArr (items : list value)
| VObj (fields : list (string * value)).

Definition isNullish (v : value) : bool :=
  match v with
  | VUndefined | VNull => true
  | _ => false
  end.

(** What a builder can throw: a string ([throw `...`] in the source), the
    engine's TypeError for a property read or written on [undefined]/[null],
    or whatever the keyring library raises. *)
Inductive exn : Type :=
| StringExn (msg : string)
| TypeError (prop : string) (base : value)
| KeyringExn (reason : string).

Inductive result (A : Type) : Type :=
| Ok (a : A)
| Throw (e : exn).
Arguments Ok {A} a.
Arguments Throw {A} e.

Definition rbind {A B} (r : result A) (k : A -> result B) : result B :=
  match r with
  | Ok a => k a
  | Throw e => Throw e
  end.

Declare Scope js_scope.
Delimit Scope js_scope with js.
Notation "x <- c ;; k" := (rbind c (fun x => k))
  (at level 61, c at next level, right associativity) : js_scope.
Open Scope js_scope.

(** [arr.map(f)] and lodash's iteration with an iteratee that may throw: the
    elements are visited left to right and the first exception escapes. *)
Fixpoint mapM {A B} (f : A -> result B) (l : list A) : result (list B) :=
  match l with
  | [] => Ok []
  | x :: rest =>
      y <- f x ;;
      ys <- mapM f rest ;;
      Ok (y :: ys)
  end.

(** ** Strings and numbers *)

Definition string_of_Z (n : Z) : string := NilZero.string_of_int (Z.to_int n).
Definition string_of_nat (n : nat) : string := string_of_Z (Z.of_nat n).

(** ToString, as a template literal applies it to [${...}].  A number is
    printed with all its digits, as JavaScript does below 1e21 and so on the
    whole domain of [VNum]. *)
Fixpoint toString (v : value) : string :=
  match v with
  | VUndefined => "undefined"
  | VNull => "null"
  | VBool true => "true"
  | VBool false => "false"
  | VNum n => string_of_Z n
  | VStr s => s
  | VArr items =>
      String.concat ","
        (map (fun x => match x with
                       | VUndefined | VNull => EmptyString
                       | _ => toString x
                       end) items)
  | VObj _ => "[object Object]"
  end.

Definition digit_of (c : ascii) : option nat :=
  let n := nat_of_ascii c in
  if (48 <=? n)%nat && (n <=? 57)%nat then Some (n - 48)%nat else None.

Fixpoint parse_digits (s : string) (acc : nat) : option nat :=
  match s with
  | EmptyString => Some acc
  | String c rest =>
      match digit_of c with
      | Some d => parse_digits rest (10 * acc + d)%nat
      | None => None
      end
  end.

(** A property key that is a canonical array index: ["0"], ["17"], not ["01"]. *)
Definition parse_index (k : string) : option nat :=
  match k with
  | EmptyString => None
  | String c rest =>
      if Ascii.eqb c "0"
      then match rest with EmptyString => Some 0%nat | _ => None end
      else parse_digits k 0
  end.

Fixpoint chars (s : string) : list value :=
  match s with
  | EmptyString => []
  | String c rest => VStr (String c EmptyString) :: chars rest
  end.

(** ** Property access *)

Definition own (fields : list (string * value)) (k : string) : option value :=
  match find (fun kv => String.eqb (fst kv) k) fields with
  | Some kv => Some (snd kv)
  | None => None
  end.

Definition elem (items : list value) (k : string) : value :=
  if String.eqb k "length" then VNum (Z.of_nat (List.length items))
  else match parse_index k with
       | Some i => nth i items VUndefined
       | None => VUndefined
       end.

(** [v[k]] on a value that is neither [undefined] nor [null].  Properties
    inherited from the built-in prototypes are not data and read as
    [undefined] here. *)
Definition get_prop (v : value) (k : string) : value :=
  match v with
  | VObj fields => match own fields k with Some x => x | None => VUndefined end
  | VArr items => elem items k
  | VStr s => elem (chars s) k
  | _ => VUndefined
  end.

(** [v.k] in the source: a TypeError on [undefined] and [null]. *)
Definition getp (v : value) (k : string) : result value :=
  if isNullish v then Throw (TypeError k v) else Ok (get_prop v k).

(** [k in Object(v)] *)
Definition has_prop (v : value) (k : string) : bool :=
  match v with
  | VObj fields => match own fields k with Some _ => true | None => false end
  | VArr items =>
      String.eqb k "length" ||
      match parse_index k with Some i => (i <? List.length items)%nat | None => false end
  | VStr s =>
      String.eqb k "length" ||
      match parse_index k with Some i => (i <? String.length s)%nat | None => false end
  | _ => false
  end.

(** [o[k] = v] on an object: an existing property keeps its place, a new one
    goes last. *)
Fixpoint obj_set (fields : list (string * value)) (k : string) (v : value)
  : list (string * value) :=
  match fields with
  | [] => [(k, v)]
  | (k', v') :: rest =>
      if String.eqb k' k then (k, v) :: rest else (k', v') :: obj_set rest k v
  end.

Fixpoint indexed_from (i : nat) (items : list value) : list (string * value) :=
  match items with
  | [] => []
  | x :: rest => (string_of_nat i, x) :: indexed_from (S i) rest
  end.

(** The own enumerable properties an object spread [{...v}] copies. *)
Definition spread (v : value) : list (string * value) :=
  match v with
  | VObj fields => fields
  | VArr items => indexed_from 0 items
  | VStr s => indexed_from 0 (chars s)
  | _ => []
  end.

(** ** lodash *)

Module lodash.

Definition MAX_SAFE_INTEGER : Z := 9007199254740991.

(** [_.isEmpty] *)
Definition isEmpty (v : value) : bool :=
  match v with
  | VUndefined | VNull | VBool _ | VNum _ => true
  | VStr s => match s with EmptyString => true | _ => false end
  | VArr items => match items with [] => true | _ => false end
  | VObj fields => match fields with [] => true | _ => false end
  end.

(** [isArrayLike]: a [length] that is a valid array length. *)
Definition arrayLikeLength (v : value) : option nat :=
  match v with
  | VArr items => Some (List.length items)
  | VStr s => Some (String.length s)
  | VObj fields =>
      match own fields "length" with
      | Some (VNum n) =>
          if (0 <=? n)%Z && (n <=? MAX_SAFE_INTEGER)%Z then Some (Z.to_nat n) else None
      | _ => None
      end
  | _ => None
  end.

(** The (value, key) pairs [baseEach]/[arrayEach] hand to an iteratee, in
    visiting order: by index for arrays and array-likes, by own key for
    other objects, nothing for [null], [undefined] and primitives. *)
Definition entries (collection : value) : list (value * value) :=
  match collection with
  | VObj fields =>
      match arrayLikeLength collection with
      | Some n =>
          map (fun i => (get_prop collection (string_of_nat i), VNum (Z.of_nat i)))
              (seq 0 n)
      | None => map (fun kv => (snd kv, VStr (fst kv))) fields
      end
  | VArr items =>
      map (fun i => (nth i items VUndefined, VNum (Z.of_nat i)))
          (seq 0 (List.length items))
  | VStr s =>
      map (fun i => (nth i (chars s) VUndefined, VNum (Z.of_nat i)))
          (seq 0 (String.length s))
  | _ => []
  end.

(** [_.map(collection, iteratee)] with an iteratee that may throw *)
Definition map (collection : value) (iteratee : value -> value -> result value)
  : result (list value) :=
  mapM (fun vk => iteratee (fst vk) (snd vk)) (entries collection).

(** [_.map(collection)]: the values *)
Definition values (collection : value) : list value :=
  List.map fst (entries collection).

(** [_.filter(collection, predicate)] with a predicate that may throw *)
Fixpoint filterM (predicate : value -> result bool) (l : list value)
  : result (list value) :=
  match l with
  | [] => Ok []
  | x :: rest =>
      keep <- predicate x ;;
      kept <- filterM predicate rest ;;
      Ok (if keep then x :: kept else kept)
  end.

Definition filter (collection : value) (predicate : value -> result bool)
  : result (list value) :=
  filterM predicate (values collection).

(** [_.flatten]: one level *)
Definition flatten (items : list value) : list value :=
  flat_map (fun v => match v with VArr xs => xs | _ => [v] end) items.

(** [_.size] of an array *)
Definition size (items : list value) : Z := Z.of_nat (List.length items).

(** [_.max] of an array of numbers; [undefined] for the empty array *)
Definition max (numbers : list Z) : value :=
  match numbers with
  | [] => VUndefined
  | n :: rest => VNum (fold_left Z.max rest n)
  end.

(** [stringToPath] on the dotted paths the source uses: [a.b] is [a], [b] *)
Fixpoint stringToPath (s : string) : list string :=
  match s with
  | EmptyString => [EmptyString]
  | String c rest =>
      if Ascii.eqb c "."
      then EmptyString :: stringToPath rest
      else match stringToPath rest with
           | h :: t => String c h :: t
           | [] => [String c EmptyString]
           end
  end.

Fixpoint hasDot (s : string) : bool :=
  match s with
  | EmptyString => false
  | String c rest => Ascii.eqb c "." || hasDot rest
  end.

(** [castPath] of a string path: a plain name, or a dotted name that is
    itself a property of the object, is one key; otherwise it is split. *)
Definition castPath (path : string) (object : value) : list string :=
  if negb (hasDot path) || has_prop object path then [path] else stringToPath path.

Fixpoint baseGet (object : value) (path : list string) : value :=
  match path with
  | [] => object
  | k :: rest =>
      if isNullish object then VUndefined else baseGet (get_prop object k) rest
  end.

(** [_.get(object, [k1, ..., kn], defaultValue)] *)
Definition getPath (object : value) (path : list string) (defaultValue : value) : value :=
  let result :=
    if isNullish object then VUndefined
    else match path with [] => VUndefined | _ => baseGet object path end in
  match result with
  | VUndefined => defaultValue
  | _ => result
  end.

(** [_.get(object, 'a.b', defaultValue)] *)
Definition get (object : value) (path : string) (defaultValue : value) : value :=
  getPath object (castPath path object) defaultValue.

End lodash.

(** ** @polkadot/util and the keyrings *)

Definition hexChar (n : N) : ascii :=
  match String.get (N.to_nat n) "0123456789abcdef" with
  | Some c => c
  | None => "0"%char
  end.

Definition hexByte (b : byte) : string :=
  let n := Byte.to_N b in
  String (hexChar (n / 16)) (String (hexChar (n mod 16)) EmptyString).

Fixpoint hexBytes (u8a : list byte) : string :=
  match u8a with
  | [] => EmptyString
  | b :: rest => hexByte b ++ hexBytes rest
  end.

(** [u8aToHex(value)]: the prefix [0x], then two lower-case digits a byte. *)
Definition u8aToHex (u8a : list byte) : string := "0x" ++ hexBytes u8a.

(** What [addFromMnemonic] returns, as far as the program looks at it. *)
Record KeyringPair : Type := mkPair {
  address : string;
  publicKey : list byte
}.

Inductive derived : Type :=
| Pair (kp : KeyringPair)
| Rejected (reason : string).

(** A keyring of one signature scheme is its [addFromMnemonic]: the pair
    derived from whatever the program passes as the mnemonic, or the
    library's own exception.  The cryptography stays a parameter; that the
    keyring also remembers the pairs it has added is nothing the program
    looks at. *)
Definition Keyring : Type := value -> derived.

Definition addFromMnemonic (k : Keyring) (memo : value) : result KeyringPair :=
  match k memo with
  | Pair kp => Ok kp
  | Rejected reason => Throw (KeyringExn reason)
  end.

(** ** Computations on the document

    A builder receives the document object as [config] and may assign into
    it.  [M A] threads that object: a computation maps the object's state to
    its outcome and the state it leaves behind, also when it throws. *)

Definition M (A : Type) : Type := value -> result A * value.

Definition mret {A} (a : A) : M A := fun doc => (Ok a, doc).

Definition mbind {A B} (c : M A) (k : A -> M B) : M B :=
  fun doc =>
    match c doc with
    | (Ok a, doc') => k a doc'
    | (Throw e, doc') => (Throw e, doc')
    end.

Definition lift {A} (r : result A) : M A := fun doc => (r, doc).

(** [return config] *)
Definition self : M value := fun doc => (Ok doc, doc).

Notation "x <~ c ;; k" := (mbind c (fun x => k))
  (at level 61, c at next level, right associativity) : js_scope.
Notation "c ;; k" := (mbind c (fun _ => k))
  (at level 61, right associativity) : js_scope.

(** [v.k1.k2...kn] *)
Fixpoint evalPath (v : value) (path : list string) : result value :=
  match path with
  | [] => Ok v
  | k :: rest => child <- getp v k ;; evalPath child rest
  end.

(** [config.k1...kn], the object of an assignment's target, read before the
    right-hand side is evaluated. *)
Definition member (path : list string) : M value :=
  fun doc => (evalPath doc path, doc).

(** The document after [config.k1...kn.k = v].  The write lands when the
    target is an object; the module is not in strict mode, so a write to a
    number, boolean or string is dropped, and a named property written to an
    array is not part of the document that [writeJson] serialises. *)
Fixpoint update_at (doc : value) (path : list string) (k : string) (v : value) : value :=
  match path with
  | [] =>
      match doc with
      | VObj fields => VObj (obj_set fields k v)
      | _ => doc
      end
  | p :: rest =>
      match doc with
      | VObj fields =>
          match own fields p with
          | Some child => VObj (obj_set fields p (update_at child rest k v))
          | None => doc
          end
      | _ => doc
      end
  end.

(** The store itself, after the right-hand side: a TypeError when the target
    object read earlier is [undefined] or [null]. *)
Definition putMember (base : value) (path : list string) (k : string) (v : value) : M unit :=
  fun doc =>
    if isNullish base then (Throw (TypeError k base), doc)
    else (Ok tt, update_at doc path k v).

(** The outcome of calling a builder: what it returned or threw, and the
    state in which it left the object passed as [config]. *)
Definition outcome : Type := result value * value.

Definition returned (o : outcome) : result value := fst o.
Definition config_after (o : outcome) : value := snd o.

Definition dquote : string := String (ascii_of_nat 34) EmptyString.

Definition strictEq_string (v : value) (s : string) : bool :=
  match v with
  | VStr s' => String.eqb s' s
  | _ => false
  end.

Definition runtime (pallet : string) : list string := ["genesis"; "runtime"; pallet].

(** ** The program *)

Section Program.

(** [keyring = new Keyring({type: 'ed25519'})],
    [keyringSr25519 = new Keyring({type: 'sr25519'})] *)
Variables keyring keyringSr25519 : Keyring.

Definition loadKeyFromMemo (memo : value) : result value :=
  keyEd25519 <- addFromMnemonic keyring memo ;;
  keySr25519 <- addFromMnemonic keyringSr25519 memo ;;
  Ok (VObj [("address", VStr (address keySr25519));
            ("pubKeyEd25519", VStr (u8aToHex (publicKey keyEd25519)));
            ("pubKeySr25519", VStr (u8aToHex (publicKey keyEd25519)))]).

Definition bootNode (node name : value) : result value :=
  host <- getp node "host" ;;
  id <- getp node "id" ;;
  Ok (VStr ("/dns/" ++ toString host ++ "/tcp/30334/p2p/" ++ toString id)).

Definition updateBootNodes (config chainConfig : value) : outcome :=
  (bootNodes <~ lift (nodes <- getp chainConfig "nodes" ;;
                      lodash.map nodes bootNode) ;;
   config <~ self ;;
   mret (VObj (obj_set (spread config) "bootNodes" (VArr bootNodes)))) config.

Definition updateNaming (config chainConfig : value) : outcome :=
  (naming <~ lift (meta <- getp chainConfig "meta" ;;
                   name <- getp meta "name" ;;
                   id <- getp meta "id" ;;
                   chainType <- getp meta "chainType" ;;
                   Ok (name, id, chainType)) ;;
   config <~ self ;;
   let '(name, id, chainType) := naming in
   mret (VObj (obj_set (obj_set (obj_set (spread config) "name" name) "id" id)
                       "chainType" chainType))) config.

Definition invalidAccount (accountName : value) : string :=
  "invalid account " ++ dquote ++ toString accountName ++ dquote.

Definition getAccountOrFail (chainConfig accountName : value) : result value :=
  let account := lodash.getPath chainConfig ["accounts"; toString accountName] VUndefined in
  if lodash.isEmpty account then Throw (StringExn (invalidAccount accountName))
  else
    seed <- getp account "seed" ;;
    accountData <- loadKeyFromMemo seed ;;
    Ok (VObj (obj_set (spread account) "accountData" accountData)).

Definition balanceOf (account name : value) : result value :=
  seed <- getp account "seed" ;;
  data <- loadKeyFromMemo seed ;;
  address <- getp data "address" ;;
  balance <- getp account "balance" ;;
  Ok (VArr [address; balance]).

Definition updateBalances (config chainConfig : value) : outcome :=
  (base <~ member (runtime "palletBalances") ;;
   balances <~ lift (accounts <- getp chainConfig "accounts" ;;
                     lodash.map accounts balanceOf) ;;
   putMember base (runtime "palletBalances") "balances" (VArr balances) ;;
   self) config.

Definition tokensOf (account name : value) : result value :=
  seed <- getp account "seed" ;;
  data <- loadKeyFromMemo seed ;;
  tokens <- getp account "tokens" ;;
  triples <- lodash.map tokens (fun amount name =>
               address <- getp data "address" ;;
               Ok (VArr [address; name; amount])) ;;
  Ok (VArr triples).

Definition updateTokens (config chainConfig : value) : outcome :=
  (base <~ member (runtime "ormlTokens") ;;
   endowed <~ lift (accounts <- getp chainConfig "accounts" ;;
                    perAccount <- lodash.map accounts tokensOf ;;
                    Ok (lodash.flatten perAccount)) ;;
   putMember base (runtime "ormlTokens") "endowedAccounts" (VArr endowed) ;;
   self) config.

Definition invalidSudo (sudoAccount : value) : string :=
  "invalid sudo account " ++ dquote ++ toString sudoAccount ++ dquote.

Definition sudoKey (chainConfig : value) : result value :=
  let sudoAccount := lodash.get chainConfig "sudo_account" (VStr EmptyString) in
  rootAccount <- getAccountOrFail chainConfig sudoAccount ;;
  let rootKey := lodash.get rootAccount "accountData.address" VUndefined in
  if lodash.isEmpty rootKey then Throw (StringExn (invalidSudo sudoAccount))
  else Ok rootKey.

Definition updateSudo (config chainConfig : value) : outcome :=
  (rootKey <~ lift (sudoKey chainConfig) ;;
   base <~ member ["genesis"; "runtime"] ;;
   putMember base ["genesis"; "runtime"] "palletSudo" (VObj [("key", rootKey)]) ;;
   self) config.

Definition invalidSession (key nodeAccount : value) : string :=
  "invalid grandpa/babe config for node: " ++ dquote ++ toString key ++ dquote ++
  ", the account is: " ++ dquote ++ toString nodeAccount ++ dquote.

Definition sessionKeyOf (chainConfig node key : value) : result value :=
  nodeAccount <- getp node "account" ;;
  account <- getAccountOrFail chainConfig nodeAccount ;;
  grandpaConfig <- getp account "grandpa" ;;
  grandpaSeed <- getp grandpaConfig "seed" ;;
  grandpa <- loadKeyFromMemo grandpaSeed ;;
  let grandpaId := lodash.get grandpa "address" VUndefined in
  babe <- loadKeyFromMemo (lodash.get account "babe.seed" VUndefined) ;;
  babeId <- getp babe "address" ;;
  if lodash.isEmpty grandpaId || lodash.isEmpty babeId
  then Throw (StringExn (invalidSession key nodeAccount))
  else
    accountData <- getp account "accountData" ;;
    address <- getp accountData "address" ;;
    Ok (VArr [address; address; VObj [("grandpa", grandpaId); ("babe", babeId)]]).

Definition updateSession (config chainConfig : value) : outcome :=
  (base <~ member (runtime "palletSession") ;;
   keys <~ lift (nodes <- getp chainConfig "nodes" ;;
                 lodash.map nodes (sessionKeyOf chainConfig)) ;;
   putMember base (runtime "palletSession") "keys" (VArr keys) ;;
   self) config.

Definition isValidator (account : value) : result bool :=
  role <- getp account "role" ;;
  Ok (strictEq_string role "Validator").

Definition addressOf (chainConfig accountName : value) : result value :=
  account <- getAccountOrFail chainConfig accountName ;;
  accountData <- getp account "accountData" ;;
  getp accountData "address".

Definition invulnerableOf (chainConfig accountData : value) : result value :=
  stash <- getp accountData "stash" ;;
  addressOf chainConfig stash.

Definition fixedStake : Z := 100000000000000.

Definition stakerOf (chainConfig accountData : value) : result value :=
  stash <- getp accountData "stash" ;;
  stashAddress <- addressOf chainConfig stash ;;
  controller <- getp accountData "controller" ;;
  controllerAddress <- addressOf chainConfig controller ;;
  role <- getp accountData "role" ;;
  Ok (VArr [stashAddress; controllerAddress; VNum fixedStake; role]).

Definition updateStaking (config chainConfig : value) : outcome :=
  (stakingAccounts <~ lift (staking <- getp chainConfig "staking" ;;
                            validators <- lodash.filter staking isValidator ;;
                            mapM (invulnerableOf chainConfig) validators) ;;
   base <~ member (runtime "palletStaking") ;;
   putMember base (runtime "palletStaking") "invulnerables" (VArr stakingAccounts) ;;
   base <~ member (runtime "palletStaking") ;;
   putMember base (runtime "palletStaking") "validatorCount"
     (lodash.max [2; lodash.size stakingAccounts * 2]%Z) ;;
   base <~ member (runtime "palletStaking") ;;
   putMember base (runtime "palletStaking") "minimumValidatorCount"
     (VNum (lodash.size stakingAccounts)) ;;
   base <~ member (runtime "palletStaking") ;;
   stakers <~ lift (staking <- getp chainConfig "staking" ;;
                    mapM (stakerOf chainConfig) (lodash.values staking)) ;;
   putMember base (runtime "palletStaking") "stakers" (VArr stakers) ;;
   self) config.

Definition chainSpecModifiers : list (string * (value -> value -> outcome)) :=
  [("bootnodes", updateBootNodes);
   ("naming", updateNaming);
   ("balance", updateBalances);
   ("tokens", updateTokens);
   ("session", updateSession);
   ("sudo", updateSudo);
   ("staking", updateStaking)].

(** What [main] does that can be seen from outside, once both files are
    read and parsed. *)
Inductive event : Type :=
| LogUpdating (name : string)
| LogSaving
| WriteJson (config : value)
| LogErrorString (ex : string)
| LogErrorObject (ex : exn).

(** [_.forEach(chainSpecModifiers, (fn, name) => { log; config = fn(config, chainConfig) })] *)
Fixpoint forEachModifier (modifiers : list (string * (value -> value -> outcome)))
    (config chainConfig : value) : list event * result value :=
  match modifiers with
  | [] => ([], Ok config)
  | (name, fn) :: rest =>
      match returned (fn config chainConfig) with
      | Ok config' =>
          let (events, r) := forEachModifier rest config' chainConfig in
          (LogUpdating name :: events, r)
      | Throw ex => ([LogUpdating name], Throw ex)
      end
  end.

(** The body of [main]'s [try], from the loaded [config] and [chainConfig]
    on, and its [catch]. *)
Definition main (config chainConfig : value) : list event :=
  let (events, r) := forEachModifier chainSpecModifiers config chainConfig in
  match r with
  | Ok config' => events ++ [LogSaving; WriteJson config']
  | Throw (StringExn ex) => events ++ [LogErrorString ex]
  | Throw ex => events ++ [LogErrorObject ex]
  end.

End Program.

(** ** Vocabulary of the statements *)

(** A property name that is neither [length] nor an array index: only an
    object can hold a value under it. *)
Definition named (k : string) : bool :=
  negb (String.eqb k "length") && match parse_index k with None => true | Some _ => false end.

(** Two paths that part ways at some key. *)
Fixpoint diverge (p q : list string) : bool :=
  match p, q with
  | a :: p', b :: q' => if String.eqb a b then diverge p' q' else true
  | _, _ => false
  end.

Definition isObject (v : value) : bool :=
  match v with
  | VObj _ => true
  | _ => false
  end.

(** Reading a hex string back, two digits a byte. *)
Definition unhexChar (c : ascii) : N :=
  let n := N_of_ascii c in
  if (n <? 58)%N then (n - 48)%N else (n - 87)%N.

Definition unhexByte (hi lo : ascii) : byte :=
  match Byte.of_N (16 * unhexChar hi + unhexChar lo) with
  | Some b => b
  | None => x00
  end.

Fixpoint unhexBytes (s : string) : list byte :=
  match s with
  | String hi (String lo rest) => unhexByte hi lo :: unhexBytes rest
  | _ => []
  end.

Section Vocabulary.

Variables keyring keyringSr25519 : Keyring.

(** Both keyrings accept the mnemonic. *)
Definition derives (memo : value) : bool :=
  match keyring memo, keyringSr25519 memo with
  | Pair _, Pair _ => true
  | _, _ => false
  end.

(** The sr25519 address of a mnemonic: the account's primary address. *)
Definition primaryAddress (memo : value) : string :=
  match keyringSr25519 memo with
  | Pair kp => address kp
  | Rejected _ => EmptyString
  end.

(** The hex encoding of the ed25519 public key of a mnemonic. *)
Definition edPublicKeyHex (memo : value) : string :=
  match keyring memo with
  | Pair kp => u8aToHex (publicKey kp)
  | Rejected _ => EmptyString
  end.

(** What [loadKeyFromMemo] returns for a mnemonic both keyrings accept. *)
Definition keyBundle (memo : value) : value :=
  VObj [("address", VStr (primaryAddress memo));
        ("pubKeyEd25519", VStr (edPublicKeyHex memo));
        ("pubKeySr25519", VStr (edPublicKeyHex memo))].

(** [_.get(chainConfig, ['accounts', name])] *)
Definition configured (chainConfig name : value) : value :=
  lodash.getPath chainConfig ["accounts"; toString name] VUndefined.

(** [name] is no property of [chainConfig.accounts]. *)
Definition absent (chainConfig name : value) : bool :=
  negb (has_prop (lodash.getPath chainConfig ["accounts"] VUndefined) (toString name)).

Definition seedOf (chainConfig name : value) : value :=
  get_prop (configured chainConfig name) "seed".

(** The name leads to a non-empty account whose seed both keyrings accept. *)
Definition resolves (chainConfig name : value) : bool :=
  negb (lodash.isEmpty (configured chainConfig name)) && derives (seedOf chainConfig name).

(** The primary address of the account a name refers to. *)
Definition addressOfName (chainConfig name : value) : string :=
  primaryAddress (seedOf chainConfig name).

(** An entry of [accounts] whose own seed both keyrings accept. *)
Definition keyed (account : value) : bool :=
  negb (isNullish account) && derives (get_prop account "seed").

Definition hasValidatorRole (entry : value) : bool :=
  strictEq_string (get_prop entry "role") "Validator".

Definition grandpaSeed (account : value) : value :=
  get_prop (get_prop account "grandpa") "seed".

Definition babeSeed (account : value) : value :=
  lodash.get account "babe.seed" VUndefined.

(** A node whose account resolves to an object carrying grandpa and babe
    seeds that both keyrings accept, with non-empty addresses. *)
Definition sessionReady (chainConfig node : value) : bool :=
  let account := configured chainConfig (get_prop node "account") in
  negb (isNullish node) && resolves chainConfig (get_prop node "account") &&
  isObject account &&
  negb (isNullish (get_prop account "grandpa")) &&
  derives (grandpaSeed account) && derives (babeSeed account) &&
  negb (String.eqb (primaryAddress (grandpaSeed account)) EmptyString) &&
  negb (String.eqb (primaryAddress (babeSeed account)) EmptyString).

(** The session triple of a node as the builder emits it. *)
Definition sessionTriple (chainConfig node : value) : value :=
  let name := get_prop node "account" in
  let account := configured chainConfig name in
  VArr [VStr (addressOfName chainConfig name); VStr (addressOfName chainConfig name);
        VObj [("grandpa", VStr (primaryAddress (grandpaSeed account)));
              ("babe", VStr (primaryAddress (babeSeed account)))]].

(** The session triple of a node as the specification words it: the
    hex-encoded ed25519 public keys of the two sub-seeds. *)
Definition sessionTriple_spec (chainConfig node : value) : value :=
  let name := get_prop node "account" in
  let account := configured chainConfig name in
  VArr [VStr (addressOfName chainConfig name); VStr (addressOfName chainConfig name);
        VObj [("grandpa", VStr (edPublicKeyHex (grandpaSeed account)));
              ("babe", VStr (edPublicKeyHex (babeSeed account)))]].

Definition tokenEntries (account : value) : list (value * value) :=
  lodash.entries (get_prop account "tokens").

Definition tokenTriples (account : value) : list value :=
  map (fun an => VArr [VStr (primaryAddress (get_prop account "seed")); snd an; fst an])
      (tokenEntries account).

Definition balancePair (account : value) : value :=
  VArr [VStr (primaryAddress (get_prop account "seed")); get_prop account "balance"].

Definition staker (chainConfig entry : value) : value :=
  VArr [VStr (addressOfName chainConfig (get_prop entry "stash"));
        VStr (addressOfName chainConfig (get_prop entry "controller"));
        VNum 100000000000000; get_prop entry "role"].

(** A staking entry whose stash and controller both resolve. *)
Definition stakeResolves (chainConfig entry : value) : bool :=
  negb (isNullish entry) &&
  resolves chainConfig (get_prop entry "stash") &&
  resolves chainConfig (get_prop entry "controller").

(** The addresses the staking builder writes to [invulnerables]. *)
Definition invulnerables (chainConfig : value) (entries : list value) : list value :=
  map (fun entry => VStr (addressOfName chainConfig (get_prop entry "stash")))
      (filter hasValidatorRole entries).

(** The document after the first three assignments of the staking builder. *)
Definition countsWritten (config chainConfig : value) (entries : list value) : value :=
  let v := Z.of_nat (List.length (filter hasValidatorRole entries)) in
  update_at
    (update_at
       (update_at config (runtime "palletStaking") "invulnerables"
                  (VArr (invulnerables chainConfig entries)))
       (runtime "palletStaking") "validatorCount" (VNum (Z.max 2 (v * 2))))
    (runtime "palletStaking") "minimumValidatorCount" (VNum v).

End Vocabulary.

(** The token entries of an account as the configuration has them: the own
    properties of its [tokens] mapping, none when it has no [tokens]. *)
Definition tokenFields (account : value) : list (string * value) :=
  match get_prop account "tokens" with
  | VObj fields => fields
  | _ => []
  end.

(** [tokens] is absent, or a mapping that lodash iterates by key: it has no
    entry named [length] whose amount is a non-negative integer. *)
Definition plainTokens (account : value) : bool :=
  match get_prop account "tokens" with
  | VObj fields =>
      match lodash.arrayLikeLength (VObj fields) with
      | None => true
      | Some _ => false
      end
  | VUndefined | VNull => true
  | _ => false
  end.

Definition tokenTriple (address : string) (token : string * value) : value :=
  VArr [VStr address; VStr (fst token); snd token].

Definition logged (e : event) : option string :=
  match e with
  | LogUpdating name => Some name
  | _ => None
  end.

Definition isWrite (e : event) : bool :=
  match e with
  | WriteJson _ | LogSaving => true
  | _ => false
  end.

(** How [main]'s [catch] reports an exception. *)
Definition reportOf (ex : exn) : event :=
  match ex with
  | StringExn msg => LogErrorString msg
  | _ => LogErrorObject ex
  end.

(** ** Sample inputs

    A stand-in for the two keyrings, total on strings and refusing anything
    else as the library does when it is handed no mnemonic, and a small
    chain configuration with its genesis skeleton. *)

Module Sample.

Definition ed25519 : Keyring := fun memo =>
  match memo with
  | VStr s => Pair (mkPair ("ed:" ++ s) (list_byte_of_string s))
  | _ => Rejected "mnemonic is not a string"
  end.

Definition sr25519 : Keyring := fun memo =>
  match memo with
  | VStr s => Pair (mkPair ("5" ++ s) (rev (list_byte_of_string s)))
  | _ => Rejected "mnemonic is not a string"
  end.

Definition subAccount (seed : string) : value := VObj [("seed", VStr seed)].

Definition alice : value :=
  VObj [("seed", VStr "A"); ("balance", VNum 1000);
        ("tokens", VObj [("DOT", VNum 7); ("BTC", VNum 3)]);
        ("grandpa", subAccount "Ag"); ("babe", subAccount "Ab")].

Definition bob : value :=
  VObj [("seed", VStr "B"); ("balance", VNum 500);
        ("tokens", VObj [("DOT", VNum 1)])].

Definition node1 : value :=
  VObj [("host", VStr "n1.example.org"); ("id", VStr "QmNode1"); ("account", VStr "alice")].

Definition stake1 : value :=
  VObj [("stash", VStr "alice"); ("controller", VStr "bob"); ("role", VStr "Validator")].

Definition stake2 : value :=
  VObj [("stash", VStr "bob"); ("controller", VStr "alice"); ("role", VStr "Validator")].

Definition stake3 : value :=
  VObj [("stash", VStr "alice"); ("controller", VStr "bob"); ("role", VStr "Nominator")].

Definition dangling : value :=
  VObj [("stash", VStr "alice"); ("controller", VStr "carol"); ("role", VStr "Validator")].

(** An account with a seed and a balance and nothing else. *)
Definition plain : value := VObj [("seed", VStr "A"); ("balance", VNum 1000)].

(** An account with a grandpa seed and no [babe]. *)
Definition babeless : value :=
  VObj [("seed", VStr "A"); ("balance", VNum 1000); ("grandpa", subAccount "Ag")].

Definition meta : value :=
  VObj [("name", VStr "Local"); ("id", VStr "local"); ("chainType", VStr "Local")].

Definition chain (accounts nodes : list (string * value)) (staking : list value) : value :=
  VObj [("meta", meta); ("accounts", VObj accounts); ("nodes", VObj nodes);
        ("staking", VArr staking); ("sudo_account", VStr "alice")].

Definition chainConfig : value :=
  chain [("alice", alice); ("bob", bob)] [("node1", node1)] [stake1].

Definition skeleton : value :=
  VObj [("name", VStr EmptyString);
        ("genesis",
         VObj [("runtime",
                VObj [("palletBalances", VObj [("balances", VArr [])]);
                      ("ormlTokens", VObj [("endowedAccounts", VArr [])]);
                      ("palletSession", VObj [("keys", VArr [])]);
                      ("palletSudo", VObj [("key", VStr EmptyString); ("note", VStr "dev")]);
                      ("palletStaking",
                       VObj [("invulnerables", VArr []); ("stakers", VArr []);
                             ("slashRewardFraction", VNum 10)])])])].

(** A stand-in sr25519 keyring that gives the seed [blank] the empty
    address. *)
Definition sr25519_blank : Keyring := fun memo =>
  match memo with
  | VStr s =>
      if String.eqb s "blank" then Pair (mkPair EmptyString []) else sr25519 memo
  | _ => sr25519 memo
  end.

(** An account whose babe seed is [blank]. *)
Definition ghost : value :=
  VObj [("seed", VStr "A"); ("grandpa", subAccount "Ag"); ("babe", subAccount "blank")].

(** An account with a property literally named [accountData.address]. *)
Definition dotted : value :=
  VObj [("seed", VStr "A"); ("accountData.address", VStr "zzz")].

(** An account with a token named [length]. *)
Definition lengthy : value :=
  VObj [("seed", VStr "A"); ("balance", VNum 1000);
        ("tokens", VObj [("DOT", VNum 7); ("length", VNum 3)])].

(** A validator entry whose stash is no account. *)
Definition stashless : value :=
  VObj [("stash", VStr "carol"); ("controller", VStr "bob"); ("role", VStr "Validator")].

(** A configuration with no [staking], no [nodes] and no [sudo_account]. *)
Definition bare : value :=
  VObj [("meta", meta); ("accounts", VObj [("alice", alice); ("bob", bob)])].

Definition addressedSub (seed address : string) : value :=
  VObj [("seed", VStr seed); ("address", VStr address)].

(** alice and bob as the earlier revision wants them: with the addresses
    written out, here the ones the sample keyring derives. *)
Definition aliceAddressed : value :=
  VObj [("seed", VStr "A"); ("address", VStr "5A"); ("balance", VNum 1000);
        ("tokens", VObj [("DOT", VNum 7); ("BTC", VNum 3)]);
        ("grandpa", addressedSub "Ag" "5Ag"); ("babe", addressedSub "Ab" "5Ab")].

Definition bobAddressed : value :=
  VObj [("seed", VStr "B"); ("address", VStr "5B"); ("balance", VNum 500);
        ("tokens", VObj [("DOT", VNum 1)])].

Definition addressedConfig : value :=
  chain [("alice", aliceAddressed); ("bob", bobAddressed)] [("node1", node1)] [stake1].

End Sample.

(** ** The writes of a run

    Every assignment a builder makes is one write: the path of the object
    assigned into, the field, the value.  A run of the pipeline on an object
    document is a list of writes. *)

(** [v.k1...kn] through own properties of objects only. *)
Fixpoint ownPath (v : value) (path : list string) : option value :=
  match path with
  | [] => Some v
  | k :: rest =>
      match v with
      | VObj fields =>
          match own fields k with
          | Some child => ownPath child rest
          | None => None
          end
      | _ => None
      end
  end.

Definition objectAt (doc : value) (path : list string) : bool :=
  match ownPath doc path with
  | Some (VObj _) => true
  | _ => false
  end.

Fixpoint prefix (p q : list string) : bool :=
  match p, q with
  | [], _ => true
  | a :: p', b :: q' => String.eqb a b && prefix p' q'
  | _ :: _, [] => false
  end.

Definition write : Type := (list string * string * value)%type.

Definition wparent (w : write) : list string := fst (fst w).
Definition wfield (w : write) : string := snd (fst w).
Definition wvalue (w : write) : value := snd w.
Definition target (w : write) : list string := (wparent w ++ [wfield w])%list.

Definition apply_write (doc : value) (w : write) : value :=
  update_at doc (wparent w) (wfield w) (wvalue w).

Definition apply_writes (doc : value) (ws : list write) : value :=
  fold_left apply_write ws doc.

(** No write lands on or above the parent of another, and later writes leave
    the targets of earlier ones. *)
Fixpoint separated (before ws : list write) : bool :=
  match ws with
  | [] => true
  | w :: after =>
      forallb (fun w' => negb (prefix (target w') (wparent w))) before &&
      forallb (fun w' => diverge (target w') (target w)) after &&
      separated (before ++ [w])%list after
  end.

(** The objects the builders assign into. *)
Definition sections : list (list string) :=
  [[]; ["genesis"; "runtime"]; runtime "palletBalances"; runtime "ormlTokens";
   runtime "palletSession"; runtime "palletStaking"].

Definition skeletonReady (config : value) : bool := forallb (objectAt config) sections.

Section Generated.

Variables keyring keyringSr25519 : Keyring.

Definition multiaddress (node : value) : value :=
  VStr ("/dns/" ++ toString (get_prop node "host") ++ "/tcp/30334/p2p/" ++
        toString (get_prop node "id")).

Definition bootNodesOf (chainConfig : value) : value :=
  VArr (map (fun vk => multiaddress (fst vk)) (lodash.entries (get_prop chainConfig "nodes"))).

Definition balancesOf (chainConfig : value) : value :=
  VArr (map (fun vk => balancePair keyringSr25519 (fst vk))
            (lodash.entries (get_prop chainConfig "accounts"))).

Definition endowedOf (chainConfig : value) : value :=
  VArr (flat_map (fun vk => tokenTriples keyringSr25519 (fst vk))
                 (lodash.entries (get_prop chainConfig "accounts"))).

Definition sessionKeysOf (chainConfig : value) : value :=
  VArr (map (fun vk => sessionTriple keyringSr25519 chainConfig (fst vk))
            (lodash.entries (get_prop chainConfig "nodes"))).

Definition sudoAccountOf (chainConfig : value) : value :=
  lodash.get chainConfig "sudo_account" (VStr EmptyString).

Definition sudoOf (chainConfig : value) : value :=
  VObj [("key", VStr (addressOfName keyringSr25519 chainConfig (sudoAccountOf chainConfig)))].

Definition stakingOf (chainConfig : value) : list value :=
  lodash.values (get_prop chainConfig "staking").

Definition validatorsOf (chainConfig : value) : Z :=
  Z.of_nat (List.length (filter hasValidatorRole (stakingOf chainConfig))).

Definition stakingWrites (chainConfig : value) : list write :=
  [(runtime "palletStaking", "invulnerables",
    VArr (invulnerables keyringSr25519 chainConfig (stakingOf chainConfig)));
   (runtime "palletStaking", "validatorCount", VNum (Z.max 2 (validatorsOf chainConfig * 2)));
   (runtime "palletStaking", "minimumValidatorCount", VNum (validatorsOf chainConfig));
   (runtime "palletStaking", "stakers",
    VArr (map (staker keyringSr25519 chainConfig) (stakingOf chainConfig)))].

(** The writes of the seven builders, in the order [main] runs them. *)
Definition writesOf (chainConfig : value) : list write :=
  ([([], "bootNodes", bootNodesOf chainConfig);
    ([], "name", get_prop (get_prop chainConfig "meta") "name");
    ([], "id", get_prop (get_prop chainConfig "meta") "id");
    ([], "chainType", get_prop (get_prop chainConfig "meta") "chainType");
    (runtime "palletBalances", "balances", balancesOf chainConfig);
    (runtime "ormlTokens", "endowedAccounts", endowedOf chainConfig);
    (runtime "palletSession", "keys", sessionKeysOf chainConfig);
    (["genesis"; "runtime"], "palletSudo", sudoOf chainConfig)]
   ++ stakingWrites chainConfig)%list.

Definition generated (chainConfig config : value) : value :=
  apply_writes config (writesOf chainConfig).

(** The sudo account resolves to an object with a non-empty address. *)
Definition sudoReady (chainConfig : value) : bool :=
  let name := sudoAccountOf chainConfig in
  resolves keyring keyringSr25519 chainConfig name &&
  match configured chainConfig name with
  | VObj fields => match own fields "accountData.address" with None => true | Some _ => false end
  | _ => false
  end &&
  negb (String.eqb (addressOfName keyringSr25519 chainConfig name) EmptyString).

(** The guard of the session builder is reached at a node: the node is not
    null, its account resolves, the resolved account has a [grandpa], both
    keyrings accept [account.grandpa.seed] and what
    [_.get(account, 'babe.seed')] gives, and one of the two addresses is the
    empty string. *)
Definition guardReached (chainConfig node : value) : Prop :=
  isNullish node = false /\
  exists resolved,
    getAccountOrFail keyring keyringSr25519 chainConfig (get_prop node "account") = Ok resolved /\
    isNullish (get_prop resolved "grandpa") = false /\
    derives keyring keyringSr25519 (grandpaSeed resolved) = true /\
    derives keyring keyringSr25519 (babeSeed resolved) = true /\
    (primaryAddress keyringSr25519 (grandpaSeed resolved) = EmptyString \/
     primaryAddress keyringSr25519 (babeSeed resolved) = EmptyString).

(** What [_.get(rootAccount, 'accountData.address')] finds in the resolved
    sudo account, given the fields of the configured one: the value of a
    property literally named [accountData.address] where the configuration
    has one (lodash takes an existing property name for a key before it
    splits it), the address of the derived bundle otherwise. *)
Definition sudoKeyRead (chainConfig : value) (fields : list (string * value)) : value :=
  match own fields "accountData.address" with
  | Some v => v
  | None => VStr (addressOfName keyringSr25519 chainConfig (sudoAccountOf chainConfig))
  end.

(** A configuration on which every builder returns. *)
Definition wellConfigured (chainConfig : value) : bool :=
  negb (isNullish chainConfig) &&
  negb (isNullish (get_prop chainConfig "meta")) &&
  forallb (fun vk => keyed keyring keyringSr25519 (fst vk))
          (lodash.entries (get_prop chainConfig "accounts")) &&
  forallb (fun vk => sessionReady keyring keyringSr25519 chainConfig (fst vk))
          (lodash.entries (get_prop chainConfig "nodes")) &&
  forallb (stakeResolves keyring keyringSr25519 chainConfig) (stakingOf chainConfig) &&
  sudoReady chainConfig.

End Generated.

Definition tableNames : list string :=
  ["bootnodes"; "naming"; "balance"; "tokens"; "session"; "sudo"; "staking"].

(** ** The earlier revision of [index.js]

    Before [loadKeyFromMemo] the configuration carried the addresses
    itself: the resolver returned the configured account as it was, the
    builders read [address] fields, returned nothing and were called for
    their effect on [config]; the table had no bootnodes and no naming. *)

Module Earlier.

Definition getAccountOrFail (chainConfig accountName : value) : result value :=
  let account := lodash.getPath chainConfig ["accounts"; toString accountName] VUndefined in
  if lodash.isEmpty account then Throw (StringExn (invalidAccount accountName))
  else Ok account.

Definition balanceOf (account name : value) : result value :=
  address <- getp account "address" ;;
  balance <- getp account "balance" ;;
  Ok (VArr [address; balance]).

Definition updateBalances (config chainConfig : value) : outcome :=
  (base <~ member (runtime "palletBalances") ;;
   balances <~ lift (accounts <- getp chainConfig "accounts" ;;
                     lodash.map accounts balanceOf) ;;
   putMember base (runtime "palletBalances") "balances" (VArr balances) ;;
   mret VUndefined) config.

Definition tokensOf (account name : value) : result value :=
  tokens <- getp account "tokens" ;;
  triples <- lodash.map tokens (fun amount name =>
               address <- getp account "address" ;;
               Ok (VArr [address; name; amount])) ;;
  Ok (VArr triples).

Definition updateTokens (config chainConfig : value) : outcome :=
  (base <~ member (runtime "ormlTokens") ;;
   endowed <~ lift (accounts <- getp chainConfig "accounts" ;;
                    perAccount <- lodash.map accounts tokensOf ;;
                    Ok (lodash.flatten perAccount)) ;;
   putMember base (runtime "ormlTokens") "endowedAccounts" (VArr endowed) ;;
   mret VUndefined) config.

Definition sudoKey (chainConfig : value) : result value :=
  let sudoAccount := lodash.get chainConfig "sudo_account" (VStr EmptyString) in
  rootAccount <- getAccountOrFail chainConfig sudoAccount ;;
  let rootKey := lodash.get rootAccount "address" VUndefined in
  if lodash.isEmpty rootKey then Throw (StringExn (invalidSudo sudoAccount))
  else Ok rootKey.

Definition updateSudo (config chainConfig : value) : outcome :=
  (rootKey <~ lift (sudoKey chainConfig) ;;
   base <~ member ["genesis"; "runtime"] ;;
   putMember base ["genesis"; "runtime"] "palletSudo" (VObj [("key", rootKey)]) ;;
   mret VUndefined) config.

Definition sessionKeyOf (chainConfig node key : value) : result value :=
  nodeAccount <- getp node "account" ;;
  account <- getAccountOrFail chainConfig nodeAccount ;;
  let grandpaId := lodash.get account "grandpa.address" VUndefined in
  let babeId := lodash.get account "babe.address" VUndefined in
  if lodash.isEmpty grandpaId || lodash.isEmpty babeId
  then Throw (StringExn (invalidSession key nodeAccount))
  else
    address <- getp account "address" ;;
    Ok (VArr [address; address; VObj [("grandpa", grandpaId); ("babe", babeId)]]).

Definition updateSession (config chainConfig : value) : outcome :=
  (base <~ member (runtime "palletSession") ;;
   keys <~ lift (nodes <- getp chainConfig "nodes" ;;
                 lodash.map nodes (sessionKeyOf chainConfig)) ;;
   putMember base (runtime "palletSession") "keys" (VArr keys) ;;
   mret VUndefined) config.

Definition addressOf (chainConfig accountName : value) : result value :=
  account <- getAccountOrFail chainConfig accountName ;;
  getp account "address".

Definition invulnerableOf (chainConfig accountData : value) : result value :=
  stash <- getp accountData "stash" ;;
  addressOf chainConfig stash.

Definition stakerOf (chainConfig accountData : value) : result value :=
  stash <- getp accountData "stash" ;;
  stashAddress <- addressOf chainConfig stash ;;
  controller <- getp accountData "controller" ;;
  controllerAddress <- addressOf chainConfig controller ;;
  role <- getp accountData "role" ;;
  Ok (VArr [stashAddress; controllerAddress; VNum fixedStake; role]).

Definition updateStaking (config chainConfig : value) : outcome :=
  (stakingAccounts <~ lift (staking <- getp chainConfig "staking" ;;
                            validators <- lodash.filter staking isValidator ;;
                            mapM (invulnerableOf chainConfig) validators) ;;
   base <~ member (runtime "palletStaking") ;;
   putMember base (runtime "palletStaking") "invulnerables" (VArr stakingAccounts) ;;
   base <~ member (runtime "palletStaking") ;;
   putMember base (runtime "palletStaking") "validatorCount"
     (lodash.max [2; lodash.size stakingAccounts * 2]%Z) ;;
   base <~ member (runtime "palletStaking") ;;
   putMember base (runtime "palletStaking") "minimumValidatorCount"
     (VNum (lodash.size stakingAccounts)) ;;
   base <~ member (runtime "palletStaking") ;;
   stakers <~ lift (staking <- getp chainConfig "staking" ;;
                    mapM (stakerOf chainConfig) (lodash.values staking)) ;;
   putMember base (runtime "palletStaking") "stakers" (VArr stakers) ;;
   mret VUndefined) config.

Definition chainSpecModifiers : list (string * (value -> value -> outcome)) :=
  [("balance", updateBalances);
   ("tokens", updateTokens);
   ("session", updateSession);
   ("sudo", updateSudo);
   ("staking", updateStaking)].

(** [_.forEach(chainSpecModifiers, (fn, name) => { log; fn(config, chainConfig) })]:
    what a builder returns is dropped, the loop goes on with the object. *)
Fixpoint forEachModifier (modifiers : list (string * (value -> value -> outcome)))
    (config chainConfig : value) : list event * result value :=
  match modifiers with
  | [] => ([], Ok config)
  | (name, fn) :: rest =>
      match returned (fn config chainConfig) with
      | Ok _ =>
          let (events, r) :=
            forEachModifier rest (config_after (fn config chainConfig)) chainConfig in
          (LogUpdating name :: events, r)
      | Throw ex => ([LogUpdating name], Throw ex)
      end
  end.

Definition main (config chainConfig : value) : list event :=
  let (events, r) := forEachModifier chainSpecModifiers config chainConfig in
  match r with
  | Ok config' => events ++ [LogSaving; WriteJson config']
  | Throw (StringExn ex) => events ++ [LogErrorString ex]
  | Throw ex => events ++ [LogErrorObject ex]
  end.

Definition tableNames : list string := ["balance"; "tokens"; "session"; "sudo"; "staking"].

End Earlier.

Section Consistency.

Variable keyringSr25519 : Keyring.

(** The account a name refers to carries the address its seed derives. *)
Definition addressedName (chainConfig name : value) : Prop :=
  get_prop (configured chainConfig name) "address" =
    VStr (addressOfName keyringSr25519 chainConfig name).

(** A configuration of the earlier kind whose written addresses are the
    ones the later revision derives from the seeds. *)
Definition consistent (chainConfig : value) : Prop :=
  Forall (fun vk => get_prop (fst vk) "address" =
                    VStr (primaryAddress keyringSr25519 (get_prop (fst vk) "seed")))
         (lodash.entries (get_prop chainConfig "accounts")) /\
  Forall (fun vk =>
            let account := configured chainConfig (get_prop (fst vk) "account") in
            addressedName chainConfig (get_prop (fst vk) "account") /\
            lodash.get account "grandpa.address" VUndefined =
              VStr (primaryAddress keyringSr25519 (grandpaSeed account)) /\
            lodash.get account "babe.address" VUndefined =
              VStr (primaryAddress keyringSr25519 (babeSeed account)))
         (lodash.entries (get_prop chainConfig "nodes")) /\
  Forall (fun entry => addressedName chainConfig (get_prop entry "stash") /\
                       addressedName chainConfig (get_prop entry "controller"))
         (stakingOf chainConfig) /\
  addressedName chainConfig (sudoAccountOf chainConfig).

End Consistency.

(** A builder that assigns one field: it throws and leaves the document as
    it was, or it returns the document with that field assigned. *)
Definition singleWrite (o : outcome) (config : value) (path : list string) (k : string) : Prop :=
  (exists ex, o = (Throw ex, config)) \/
  (exists v, o = (Ok (update_at config path k v), update_at config path k v)).

(** * Properties *)

(** ** Lists, objects and paths *)

Lemma mapM_ok {A B} (f : A -> result B) (g : A -> B) (l : list A) :
  Forall (fun x => f x = Ok (g x)) l -> mapM f l = Ok (map g l).
Proof.
  induction 1 as [|x l Hx _ IH]; simpl; [reflexivity|].
  rewrite Hx; simpl. rewrite IH. reflexivity.
Qed.

Lemma filterM_ok (p : value -> result bool) (q : value -> bool) (l : list value) :
  Forall (fun x => p x = Ok (q x)) l -> lodash.filterM p l = Ok (filter q l).
Proof.
  induction 1 as [|x l Hx _ IH]; simpl; [reflexivity|].
  rewrite Hx; simpl. rewrite IH; simpl. destruct (q x); reflexivity.
Qed.

Lemma nth_seq_self (l : list value) :
  map (fun i => nth i l VUndefined) (seq 0 (List.length l)) = l.
Proof.
  induction l as [|x l IH]; simpl; [reflexivity|].
  f_equal. rewrite <- seq_shift, map_map. exact IH.
Qed.

Lemma values_array (items : list value) : lodash.values (VArr items) = items.
Proof.
  unfold lodash.values, lodash.entries. rewrite map_map. simpl.
  apply nth_seq_self.
Qed.

Lemma flatten_arrays (ls : list (list value)) :
  lodash.flatten (map VArr ls) = List.concat ls.
Proof.
  unfold lodash.flatten. induction ls as [|l ls IH]; simpl; [reflexivity|].
  rewrite IH. reflexivity.
Qed.

Lemma own_obj_set_same fields k v : own (obj_set fields k v) k = Some v.
Proof.
  unfold own. induction fields as [|[k' v'] rest IH]; simpl.
  - rewrite String.eqb_refl. reflexivity.
  - destruct (String.eqb k' k) eqn:E; simpl.
    + rewrite String.eqb_refl. reflexivity.
    + rewrite E. exact IH.
Qed.

Lemma own_obj_set_other fields k v k' :
  String.eqb k k' = false -> own (obj_set fields k v) k' = own fields k'.
Proof.
  intros Hk. unfold own. induction fields as [|[k0 v0] rest IH]; simpl.
  - rewrite Hk. reflexivity.
  - destruct (String.eqb k0 k) eqn:E; simpl.
    + apply String.eqb_eq in E. subst k0. rewrite Hk. reflexivity.
    + destruct (String.eqb k0 k'); [reflexivity | exact IH].
Qed.

Lemma named_prop (v : value) (k : string) :
  named k = true -> isNullish (get_prop v k) = false ->
  exists fields, v = VObj fields /\ own fields k = Some (get_prop v k).
Proof.
  unfold named. intros Hk Hv.
  apply andb_true_iff in Hk as [Hlen Hidx]. apply negb_true_iff in Hlen.
  destruct v; simpl in *; try discriminate.
  - unfold elem in Hv. rewrite Hlen in Hv. destruct (parse_index k); discriminate.
  - unfold elem in Hv. rewrite Hlen in Hv. destruct (parse_index k); discriminate.
  - exists fields. split; [reflexivity|]. destruct (own fields k); [reflexivity|discriminate].
Qed.

Lemma evalPath_app (v : value) (p q : list string) :
  evalPath v (p ++ q) = (x <- evalPath v p ;; evalPath x q).
Proof.
  revert v. induction p as [|k p IH]; intros v; simpl; [reflexivity|].
  destruct (getp v k); simpl; [apply IH | reflexivity].
Qed.

Lemma evalPath_object_step (v : value) (k : string) (rest : list string) fields :
  named k = true -> evalPath v (k :: rest) = Ok (VObj fields) ->
  exists top, v = VObj top /\ own top k = Some (get_prop v k) /\
              evalPath (get_prop v k) rest = Ok (VObj fields).
Proof.
  intros Hk H. simpl in H. unfold getp in H.
  destruct (isNullish v) eqn:Hv; [discriminate|]. simpl in H.
  assert (Hc : isNullish (get_prop v k) = false).
  { destruct (isNullish (get_prop v k)) eqn:Hc; [|reflexivity].
    destruct rest as [|k' rest]; simpl in H.
    - inversion H as [H']. rewrite H' in Hc. discriminate.
    - unfold getp in H. rewrite Hc in H. discriminate. }
  destruct (named_prop v k Hk Hc) as [top [-> Hown]].
  exists top. auto.
Qed.

(** After [config.path.k = v] on a document whose [config.path] is an
    object, [config.path] is that object with [k] set. *)
Lemma evalPath_update_at (doc : value) (path : list string) k v fields :
  forallb named path = true ->
  evalPath doc path = Ok (VObj fields) ->
  evalPath (update_at doc path k v) path = Ok (VObj (obj_set fields k v)).
Proof.
  revert doc. induction path as [|p rest IH]; intros doc Hn H.
  - simpl in H. inversion H. subst doc. reflexivity.
  - simpl in Hn. apply andb_true_iff in Hn as [Hp Hrest].
    destruct (evalPath_object_step doc p rest fields Hp H) as [top [-> [Hown Hchild]]].
    cbn [update_at]. rewrite Hown.
    cbn [evalPath]. unfold getp. cbn [isNullish get_prop].
    rewrite own_obj_set_same. cbn [rbind].
    apply IH; assumption.
Qed.

Lemma evalPath_updated_member (doc : value) (path : list string) k v fields :
  forallb named path = true ->
  evalPath doc path = Ok (VObj fields) ->
  evalPath (update_at doc path k v) (path ++ [k]) = Ok v.
Proof.
  intros Hn H. rewrite evalPath_app, (evalPath_update_at doc path k v fields Hn H).
  simpl. unfold getp. simpl. rewrite own_obj_set_same. reflexivity.
Qed.

(** The frame of an assignment: a read along a path that leaves the
    assigned one sees what it saw before. *)
Lemma update_at_frame (doc : value) (path : list string) k v (q : list string) :
  diverge (path ++ [k]) q = true ->
  evalPath (update_at doc path k v) q = evalPath doc q.
Proof.
  revert doc q. induction path as [|p rest IH]; intros doc q Hd.
  - destruct q as [|a q]; [discriminate|]. simpl in Hd.
    destruct (String.eqb k a) eqn:E.
    + destruct q; discriminate.
    + destruct doc; try reflexivity. simpl. unfold getp. simpl.
      rewrite (own_obj_set_other fields k v a E). reflexivity.
  - destruct q as [|a q]; [discriminate|]. simpl in Hd.
    destruct doc; try reflexivity. cbn [update_at].
    destruct (own fields p) as [child|] eqn:Hown; [|reflexivity].
    cbn [evalPath]. unfold getp. cbn [isNullish get_prop].
    destruct (String.eqb p a) eqn:E.
    + apply String.eqb_eq in E. subst a.
      rewrite own_obj_set_same, Hown. cbn [rbind]. apply IH. exact Hd.
    + rewrite (own_obj_set_other fields p _ a E). reflexivity.
Qed.

(** ** Key derivation and account resolution *)

Lemma isEmpty_false_not_nullish (v : value) :
  lodash.isEmpty v = false -> isNullish v = false.
Proof. destruct v; simpl; congruence. Qed.

Lemma getp_defined (v : value) (k : string) :
  isNullish v = false -> getp v k = Ok (get_prop v k).
Proof. unfold getp. intros ->. reflexivity. Qed.

Section Properties.

Variables keyring keyringSr25519 : Keyring.

Local Notation loadKeyFromMemo := (loadKeyFromMemo keyring keyringSr25519).
Local Notation getAccountOrFail := (getAccountOrFail keyring keyringSr25519).
Local Notation addressOf := (addressOf keyring keyringSr25519).
Local Notation derives := (derives keyring keyringSr25519).
Local Notation resolves := (resolves keyring keyringSr25519).
Local Notation keyed := (keyed keyring keyringSr25519).
Local Notation primaryAddress := (primaryAddress keyringSr25519).
Local Notation edPublicKeyHex := (edPublicKeyHex keyring).
Local Notation keyBundle := (keyBundle keyring keyringSr25519).
Local Notation addressOfName := (addressOfName keyringSr25519).
Local Notation invulnerables := (invulnerables keyringSr25519).
Local Notation countsWritten := (countsWritten keyringSr25519).

Lemma loadKeyFromMemo_derives (memo : value) :
  derives memo = true -> loadKeyFromMemo memo = Ok (keyBundle memo).
Proof.
  unfold derives, loadKeyFromMemo, keyBundle, addFromMnemonic,
    primaryAddress, edPublicKeyHex.
  destruct (keyring memo); [|discriminate].
  destruct (keyringSr25519 memo); [|discriminate].
  reflexivity.
Qed.

Lemma getAccountOrFail_resolves (chainConfig name : value) :
  resolves chainConfig name = true ->
  getAccountOrFail chainConfig name =
    Ok (VObj (obj_set (spread (configured chainConfig name)) "accountData"
                      (keyBundle (seedOf chainConfig name)))).
Proof.
  unfold resolves, getAccountOrFail. intros H.
  apply andb_true_iff in H as [He Hd]. apply negb_true_iff in He.
  fold (configured chainConfig name). rewrite He.
  rewrite (getp_defined _ "seed" (isEmpty_false_not_nullish _ He)). cbn [rbind].
  fold (seedOf chainConfig name).
  rewrite (loadKeyFromMemo_derives _ Hd). reflexivity.
Qed.

Lemma addressOf_resolves (chainConfig name : value) :
  resolves chainConfig name = true ->
  addressOf chainConfig name = Ok (VStr (addressOfName chainConfig name)).
Proof.
  intros H. unfold addressOf. rewrite (getAccountOrFail_resolves _ _ H).
  cbn [rbind]. unfold getp. cbn [isNullish get_prop].
  rewrite own_obj_set_same. reflexivity.
Qed.

(** ** Balances *)

Lemma balanceOf_keyed (account name : value) :
  keyed account = true ->
  balanceOf keyring keyringSr25519 account name = Ok (balancePair keyringSr25519 account).
Proof.
  unfold keyed, balanceOf. intros H.
  apply andb_true_iff in H as [Hn Hd]. apply negb_true_iff in Hn.
  rewrite !(getp_defined _ _ Hn). cbn [rbind].
  rewrite (loadKeyFromMemo_derives _ Hd). reflexivity.
Qed.

Lemma entries_mapping (fields : list (string * value)) :
  lodash.arrayLikeLength (VObj fields) = None ->
  lodash.entries (VObj fields) = map (fun kv => (snd kv, VStr (fst kv))) fields.
Proof. unfold lodash.entries. intros ->. reflexivity. Qed.

(** C8.  On a skeleton that has [genesis.runtime.palletBalances], and a
    configuration whose [accounts] mapping holds accounts with seeds the
    keyrings accept, the balances builder returns the document with
    [palletBalances.balances] set to one pair per configured account, in
    the mapping's iteration order: the sr25519 address of the account's
    seed and the account's balance. *)
Theorem updateBalances_pairs (config chainConfig : value)
    (pallet accounts : list (string * value)) :
  evalPath config (runtime "palletBalances") = Ok (VObj pallet) ->
  getp chainConfig "accounts" = Ok (VObj accounts) ->
  lodash.arrayLikeLength (VObj accounts) = None ->
  forallb (fun na => keyed (snd na)) accounts = true ->
  let o := updateBalances keyring keyringSr25519 config chainConfig in
  returned o = Ok (config_after o) /\
  evalPath (config_after o) (runtime "palletBalances" ++ ["balances"]) =
    Ok (VArr (map (fun na => balancePair keyringSr25519 (snd na)) accounts)) /\
  List.length (map (fun na => balancePair keyringSr25519 (snd na)) accounts) =
    List.length accounts.
Proof.
  intros Hdoc Hacc Hlike Hkeyed o. subst o.
  unfold updateBalances, mbind, member, lift, putMember, self, returned, config_after.
  rewrite Hdoc, Hacc. cbn [rbind isNullish].
  unfold lodash.map. rewrite (entries_mapping accounts Hlike).
  rewrite (mapM_ok _ (fun vk => balancePair keyringSr25519 (fst vk))).
  2:{ apply Forall_forall. intros vk Hin. apply in_map_iff in Hin as [na [<- Hin]].
      apply balanceOf_keyed. rewrite forallb_forall in Hkeyed. exact (Hkeyed na Hin). }
  rewrite map_map. cbn [fst snd].
  split; [reflexivity|]. split; [|apply length_map].
  apply (evalPath_updated_member config (runtime "palletBalances") "balances" _ pallet);
    [reflexivity | exact Hdoc].
Qed.

(** ** Tokens *)

Lemma tokensOf_keyed (account name : value) :
  keyed account = true ->
  tokensOf keyring keyringSr25519 account name = Ok (VArr (tokenTriples keyringSr25519 account)).
Proof.
  unfold keyed, tokensOf. intros H.
  apply andb_true_iff in H as [Hn Hd]. apply negb_true_iff in Hn.
  rewrite !(getp_defined _ _ Hn). cbn [rbind].
  rewrite (loadKeyFromMemo_derives _ Hd). cbn [rbind].
  unfold lodash.map.
  rewrite (mapM_ok _ (fun an => VArr [VStr (primaryAddress (get_prop account "seed"));
                                      snd an; fst an])).
  - reflexivity.
  - apply Forall_forall. intros an _. reflexivity.
Qed.

Lemma length_flat_map_sum {A B} (f : A -> list B) (l : list A) :
  List.length (flat_map f l) = list_sum (map (fun x => List.length (f x)) l).
Proof.
  induction l as [|x l IH]; simpl; [reflexivity|].
  rewrite length_app, IH. reflexivity.
Qed.

(** The tokens builder in lodash's terms: on a skeleton that has
    [genesis.runtime.ormlTokens], and accounts with seeds the keyrings
    accept, [ormlTokens.endowedAccounts] is the concatenation, account by
    account, of one triple per pair that [_.map] visits in the account's
    [tokens], whatever [tokens] is. *)
Theorem updateTokens_flattened (config chainConfig : value)
    (pallet accounts : list (string * value)) :
  evalPath config (runtime "ormlTokens") = Ok (VObj pallet) ->
  getp chainConfig "accounts" = Ok (VObj accounts) ->
  lodash.arrayLikeLength (VObj accounts) = None ->
  forallb (fun na => keyed (snd na)) accounts = true ->
  let o := updateTokens keyring keyringSr25519 config chainConfig in
  let endowed := flat_map (fun na => tokenTriples keyringSr25519 (snd na)) accounts in
  returned o = Ok (config_after o) /\
  evalPath (config_after o) (runtime "ormlTokens" ++ ["endowedAccounts"]) = Ok (VArr endowed) /\
  List.length endowed =
    list_sum (map (fun na => List.length (tokenEntries (snd na))) accounts).
Proof.
  intros Hdoc Hacc Hlike Hkeyed o endowed. subst o endowed.
  unfold updateTokens, mbind, member, lift, putMember, self, returned, config_after.
  rewrite Hdoc, Hacc. cbn [rbind isNullish].
  unfold lodash.map. rewrite (entries_mapping accounts Hlike).
  rewrite (mapM_ok _ (fun vk => VArr (tokenTriples keyringSr25519 (fst vk)))).
  2:{ apply Forall_forall. intros vk Hin. apply in_map_iff in Hin as [na [<- Hin]].
      apply tokensOf_keyed. rewrite forallb_forall in Hkeyed. exact (Hkeyed na Hin). }
  cbn [rbind]. rewrite map_map. cbn [fst snd].
  rewrite <- (map_map (fun na => tokenTriples keyringSr25519 (snd na)) VArr).
  rewrite flatten_arrays, <- flat_map_concat_map.
  split; [reflexivity|]. split.
  - apply (evalPath_updated_member config (runtime "ormlTokens") "endowedAccounts" _ pallet);
      [reflexivity | exact Hdoc].
  - rewrite length_flat_map_sum. f_equal. apply map_ext. intros na.
    unfold tokenTriples. apply length_map.
Qed.

Lemma tokenTriples_plain (account : value) :
  plainTokens account = true ->
  tokenTriples keyringSr25519 account =
    map (tokenTriple (primaryAddress (get_prop account "seed"))) (tokenFields account).
Proof.
  unfold plainTokens, tokenTriples, tokenEntries, tokenFields.
  destruct (get_prop account "tokens") as [| | | | | |fields]; try discriminate;
    try (intros _; reflexivity).
  destruct (lodash.arrayLikeLength (VObj fields)) eqn:Hlike; [discriminate|]. intros _.
  rewrite (entries_mapping fields Hlike), map_map. reflexivity.
Qed.

Lemma flat_map_ext_on {A B} (f g : A -> list B) (l : list A) :
  (forall x, In x l -> f x = g x) -> flat_map f l = flat_map g l.
Proof.
  induction l as [|x l IH]; intros H; [reflexivity|].
  simpl. rewrite (H x (or_introl eq_refl)), IH; [reflexivity|].
  intros y Hy. apply H. right. exact Hy.
Qed.


(** ** Staking *)

Lemma isValidator_defined (entry : value) :
  isNullish entry = false -> isValidator entry = Ok (hasValidatorRole entry).
Proof. intros H. unfold isValidator. rewrite (getp_defined _ _ H). reflexivity. Qed.

Lemma invulnerableOf_resolves (chainConfig entry : value) :
  isNullish entry = false -> resolves chainConfig (get_prop entry "stash") = true ->
  invulnerableOf keyring keyringSr25519 chainConfig entry =
    Ok (VStr (addressOfName chainConfig (get_prop entry "stash"))).
Proof.
  intros Hn Hr. unfold invulnerableOf. rewrite (getp_defined _ _ Hn). cbn [rbind].
  apply addressOf_resolves. exact Hr.
Qed.

Lemma stakerOf_resolves (chainConfig entry : value) :
  stakeResolves keyring keyringSr25519 chainConfig entry = true ->
  stakerOf keyring keyringSr25519 chainConfig entry = Ok (staker keyringSr25519 chainConfig entry).
Proof.
  unfold stakeResolves, stakerOf. intros H.
  apply andb_true_iff in H as [H Hc]. apply andb_true_iff in H as [Hn Hs].
  apply negb_true_iff in Hn.
  rewrite !(getp_defined _ _ Hn). cbn [rbind].
  rewrite (addressOf_resolves _ _ Hs). cbn [rbind].
  rewrite (addressOf_resolves _ _ Hc). reflexivity.
Qed.

(** The staking builder on a list of entries whose validators have stashes
    that resolve: three assignments land, then the stakers are computed. *)
Lemma updateStaking_steps (config chainConfig : value)
    (pallet : list (string * value)) (entries : list value) :
  evalPath config (runtime "palletStaking") = Ok (VObj pallet) ->
  getp chainConfig "staking" = Ok (VArr entries) ->
  forallb (fun entry => negb (isNullish entry)) entries = true ->
  forallb (fun entry => resolves chainConfig (get_prop entry "stash"))
          (filter hasValidatorRole entries) = true ->
  updateStaking keyring keyringSr25519 config chainConfig =
    let doc := countsWritten config chainConfig entries in
    match mapM (stakerOf keyring keyringSr25519 chainConfig) entries with
    | Ok stakers =>
        let doc' := update_at doc (runtime "palletStaking") "stakers" (VArr stakers) in
        (Ok doc', doc')
    | Throw ex => (Throw ex, doc)
    end.
Proof.
  intros Hdoc Hst Hnn Hres.
  rewrite forallb_forall in Hnn. rewrite forallb_forall in Hres.
  unfold updateStaking, mbind, member, lift, putMember, self.
  rewrite Hst. cbn [rbind]. unfold lodash.filter. rewrite values_array.
  rewrite (filterM_ok _ hasValidatorRole).
  2:{ apply Forall_forall. intros e He. apply isValidator_defined.
      apply negb_true_iff. exact (Hnn e He). }
  cbn [rbind].
  rewrite (mapM_ok _ (fun entry => VStr (addressOfName chainConfig (get_prop entry "stash")))).
  2:{ apply Forall_forall. intros e He. apply invulnerableOf_resolves.
      - apply filter_In in He as [He _]. apply negb_true_iff. exact (Hnn e He).
      - exact (Hres e He). }
  fold (invulnerables chainConfig entries).
  pose proof (evalPath_update_at config (runtime "palletStaking") "invulnerables"
                (VArr (invulnerables chainConfig entries)) pallet eq_refl Hdoc) as H1.
  pose proof (evalPath_update_at _ (runtime "palletStaking") "validatorCount"
                (lodash.max [2%Z; (lodash.size (invulnerables chainConfig entries) * 2)%Z])
                _ eq_refl H1) as H2.
  pose proof (evalPath_update_at _ (runtime "palletStaking") "minimumValidatorCount"
                (VNum (lodash.size (invulnerables chainConfig entries)))
                _ eq_refl H2) as H3.
  rewrite Hdoc. cbn [isNullish]. rewrite H1. cbn [isNullish]. rewrite H2. cbn [isNullish].
  rewrite H3. cbn [isNullish].
  assert (Hsize : lodash.size (invulnerables chainConfig entries) =
                  Z.of_nat (List.length (filter hasValidatorRole entries))).
  { unfold lodash.size, invulnerables. rewrite length_map. reflexivity. }
  unfold countsWritten. cbn zeta. cbn [lodash.max fold_left]. rewrite Hsize.
  destruct (mapM (stakerOf keyring keyringSr25519 chainConfig) entries); reflexivity.
Qed.

Lemma countsWritten_pallet (config chainConfig : value) pallet entries :
  evalPath config (runtime "palletStaking") = Ok (VObj pallet) ->
  exists pallet',
    evalPath (countsWritten config chainConfig entries) (runtime "palletStaking") =
      Ok (VObj pallet') /\
    own pallet' "validatorCount" =
      Some (VNum (Z.max 2 (Z.of_nat (List.length (filter hasValidatorRole entries)) * 2))) /\
    own pallet' "minimumValidatorCount" =
      Some (VNum (Z.of_nat (List.length (filter hasValidatorRole entries)))).
Proof.
  intros Hdoc. unfold countsWritten. cbn zeta.
  pose proof (evalPath_update_at config (runtime "palletStaking") "invulnerables"
                (VArr (invulnerables chainConfig entries)) pallet eq_refl Hdoc) as H1.
  pose proof (evalPath_update_at _ (runtime "palletStaking") "validatorCount"
                (VNum (Z.max 2 (Z.of_nat (List.length (filter hasValidatorRole entries)) * 2)))
                _ eq_refl H1) as H2.
  pose proof (evalPath_update_at _ (runtime "palletStaking") "minimumValidatorCount"
                (VNum (Z.of_nat (List.length (filter hasValidatorRole entries))))
                _ eq_refl H2) as H3.
  eexists. split; [exact H3|]. split.
  - rewrite own_obj_set_other by reflexivity. apply own_obj_set_same.
  - apply own_obj_set_same.
Qed.

Lemma read_member (doc : value) (path : list string) (k : string) fields v :
  evalPath doc path = Ok (VObj fields) -> own fields k = Some v ->
  evalPath doc (path ++ [k]) = Ok v.
Proof.
  intros H Hk. rewrite evalPath_app, H. simpl. unfold getp. simpl. rewrite Hk. reflexivity.
Qed.

(** C2.  On a skeleton that has [genesis.runtime.palletStaking], and a
    staking list of entries of which [v] have the role Validator, each of
    those with a stash that resolves, the staking builder leaves
    [palletStaking.validatorCount] at max(2, 2v) and
    [palletStaking.minimumValidatorCount] at [v]; with no validator the
    count is 2. *)
Theorem updateStaking_counts (config chainConfig : value)
    (pallet : list (string * value)) (entries : list value) :
  evalPath config (runtime "palletStaking") = Ok (VObj pallet) ->
  getp chainConfig "staking" = Ok (VArr entries) ->
  forallb (fun entry => negb (isNullish entry)) entries = true ->
  forallb (fun entry => resolves chainConfig (get_prop entry "stash"))
          (filter hasValidatorRole entries) = true ->
  let v := Z.of_nat (List.length (filter hasValidatorRole entries)) in
  let after := config_after (updateStaking keyring keyringSr25519 config chainConfig) in
  evalPath after (runtime "palletStaking" ++ ["validatorCount"]) = Ok (VNum (Z.max 2 (2 * v))) /\
  evalPath after (runtime "palletStaking" ++ ["minimumValidatorCount"]) = Ok (VNum v) /\
  (v = 0%Z -> evalPath after (runtime "palletStaking" ++ ["validatorCount"]) = Ok (VNum 2)).
Proof.
  intros Hdoc Hst Hnn Hres v after.
  assert (Hboth :
    evalPath after (runtime "palletStaking" ++ ["validatorCount"]) = Ok (VNum (Z.max 2 (2 * v))) /\
    evalPath after (runtime "palletStaking" ++ ["minimumValidatorCount"]) = Ok (VNum v)).
  { subst after. rewrite (updateStaking_steps config chainConfig pallet entries Hdoc Hst Hnn Hres).
    cbn zeta.
    destruct (countsWritten_pallet config chainConfig pallet entries Hdoc)
      as [pallet' [Hp [Hvc Hmin]]].
    fold v in Hvc, Hmin. rewrite (Z.mul_comm v 2) in Hvc.
    destruct (mapM (stakerOf keyring keyringSr25519 chainConfig) entries) as [stakers|ex];
      unfold config_after; cbn [snd].
    - rewrite !update_at_frame by reflexivity.
      split; eapply read_member; eauto.
    - split; eapply read_member; eauto. }
  destruct Hboth as [Hvc Hmin]. repeat split; try assumption.
  intros Hv. rewrite Hvc, Hv. reflexivity.
Qed.

(** C7.  On a skeleton that has [genesis.runtime.palletStaking], and a
    staking list in which every entry's stash and controller resolve, the
    staking builder returns the document with [palletStaking.stakers] set to
    one 4-tuple per entry, validator or not, in the list's order: the
    stash's address, the controller's address, 100000000000000 and the
    entry's role. *)
Theorem updateStaking_stakers (config chainConfig : value)
    (pallet : list (string * value)) (entries : list value) :
  evalPath config (runtime "palletStaking") = Ok (VObj pallet) ->
  getp chainConfig "staking" = Ok (VArr entries) ->
  forallb (stakeResolves keyring keyringSr25519 chainConfig) entries = true ->
  let o := updateStaking keyring keyringSr25519 config chainConfig in
  returned o = Ok (config_after o) /\
  evalPath (config_after o) (runtime "palletStaking" ++ ["stakers"]) =
    Ok (VArr (map (staker keyringSr25519 chainConfig) entries)) /\
  fixedStake = (100 * 10 ^ 12)%Z.
Proof.
  intros Hdoc Hst Hres o. subst o.
  rewrite forallb_forall in Hres.
  assert (Hparts : forall e, In e entries ->
            isNullish e = false /\ resolves chainConfig (get_prop e "stash") = true).
  { intros e He. specialize (Hres e He). unfold stakeResolves in Hres.
    apply andb_true_iff in Hres as [H _]. apply andb_true_iff in H as [Hn Hs].
    apply negb_true_iff in Hn. auto. }
  rewrite (updateStaking_steps config chainConfig pallet entries Hdoc Hst).
  2:{ apply forallb_forall. intros e He. apply negb_true_iff. apply (Hparts e He). }
  2:{ apply forallb_forall. intros e He. apply filter_In in He as [He _]. apply (Hparts e He). }
  cbn zeta.
  rewrite (mapM_ok _ (staker keyringSr25519 chainConfig)).
  2:{ apply Forall_forall. intros e He. apply stakerOf_resolves. exact (Hres e He). }
  unfold returned, config_after. cbn [fst snd].
  split; [reflexivity|]. split; [|reflexivity].
  destruct (countsWritten_pallet config chainConfig pallet entries Hdoc) as [pallet' [Hp _]].
  apply (evalPath_updated_member _ (runtime "palletStaking") "stakers" _ pallet');
    [reflexivity | exact Hp].
Qed.

(** ** Session keys *)

Lemma get_prop_enriched fields data k :
  String.eqb "accountData" k = false ->
  get_prop (VObj (obj_set fields "accountData" data)) k = get_prop (VObj fields) k.
Proof. intros Hk. simpl. rewrite (own_obj_set_other _ _ _ _ Hk). reflexivity. Qed.

Lemma babeSeed_enriched fields data :
  lodash.get (VObj (obj_set fields "accountData" data)) "babe.seed" VUndefined =
  babeSeed (VObj fields).
Proof.
  unfold babeSeed, lodash.get, lodash.castPath. cbn [lodash.hasDot Ascii.eqb Bool.eqb orb negb].
  cbn [has_prop]. rewrite (own_obj_set_other fields "accountData" data "babe.seed" eq_refl).
  destruct (own fields "babe.seed") eqn:E.
  - unfold lodash.getPath, lodash.baseGet. cbn [isNullish].
    rewrite (get_prop_enriched fields data "babe.seed" eq_refl). reflexivity.
  - cbv [lodash.stringToPath Ascii.eqb Bool.eqb].
    unfold lodash.getPath, lodash.baseGet. cbn [isNullish].
    rewrite (get_prop_enriched fields data "babe" eq_refl). reflexivity.
Qed.

Lemma sessionKeyOf_ready (chainConfig node key : value) :
  sessionReady keyring keyringSr25519 chainConfig node = true ->
  sessionKeyOf keyring keyringSr25519 chainConfig node key =
    Ok (sessionTriple keyringSr25519 chainConfig node).
Proof.
  unfold sessionReady. cbn zeta. intros H.
  repeat (apply andb_true_iff in H; destruct H as [H ?]).
  apply negb_true_iff in H.
  match goal with Hx : isObject ?a = true |- _ =>
    destruct a as [| | | | | |fields] eqn:Hacc; try discriminate end.
  repeat match goal with Hx : negb _ = true |- _ => apply negb_true_iff in Hx end.
  unfold sessionKeyOf. rewrite (getp_defined _ _ H). cbn [rbind].
  rewrite getAccountOrFail_resolves by assumption. cbn [rbind].
  rewrite Hacc. cbn [spread].
  rewrite getp_defined by reflexivity. cbn [rbind].
  rewrite (get_prop_enriched fields _ "grandpa" eq_refl).
  rewrite getp_defined by assumption. cbn [rbind].
  fold (grandpaSeed (VObj fields)).
  rewrite loadKeyFromMemo_derives by assumption. cbn [rbind].
  rewrite babeSeed_enriched.
  rewrite loadKeyFromMemo_derives by assumption. cbn [rbind].
  change (lodash.get (keyBundle (grandpaSeed (VObj fields))) "address" VUndefined)
    with (VStr (primaryAddress (grandpaSeed (VObj fields)))).
  change (getp (keyBundle (babeSeed (VObj fields))) "address")
    with (Ok (A := value) (VStr (primaryAddress (babeSeed (VObj fields))))).
  cbn [rbind lodash.isEmpty].
  destruct (primaryAddress (grandpaSeed (VObj fields))) eqn:Eg; [discriminate|].
  destruct (primaryAddress (babeSeed (VObj fields))) eqn:Eb; [discriminate|].
  cbn [orb]. unfold getp. cbn [isNullish get_prop]. rewrite own_obj_set_same.
  cbn [rbind isNullish]. unfold sessionTriple. cbn zeta. rewrite Hacc, Eg, Eb.
  reflexivity.
Qed.

(** C1, as the builder has it.  On a skeleton that has
    [genesis.runtime.palletSession], and a [nodes] mapping whose nodes refer
    to accounts that resolve and carry grandpa and babe seeds the keyrings
    accept, the session builder returns the document with
    [palletSession.keys] set to one triple per node, in the mapping's
    iteration order: the account's sr25519 address twice, then the object
    whose [grandpa] and [babe] are the sr25519 addresses of the two
    sub-seeds. *)
Theorem updateSession_triples (config chainConfig : value)
    (pallet nodes : list (string * value)) :
  evalPath config (runtime "palletSession") = Ok (VObj pallet) ->
  getp chainConfig "nodes" = Ok (VObj nodes) ->
  lodash.arrayLikeLength (VObj nodes) = None ->
  forallb (fun kn => sessionReady keyring keyringSr25519 chainConfig (snd kn)) nodes = true ->
  let o := updateSession keyring keyringSr25519 config chainConfig in
  returned o = Ok (config_after o) /\
  evalPath (config_after o) (runtime "palletSession" ++ ["keys"]) =
    Ok (VArr (map (fun kn => sessionTriple keyringSr25519 chainConfig (snd kn)) nodes)).
Proof.
  intros Hdoc Hnodes Hlike Hready o. subst o.
  unfold updateSession, mbind, member, lift, putMember, self, returned, config_after.
  rewrite Hdoc, Hnodes. cbn [rbind isNullish].
  unfold lodash.map. rewrite (entries_mapping nodes Hlike).
  rewrite (mapM_ok _ (fun vk => sessionTriple keyringSr25519 chainConfig (fst vk))).
  2:{ apply Forall_forall. intros vk Hin. apply in_map_iff in Hin as [kn [<- Hin]].
      apply sessionKeyOf_ready. rewrite forallb_forall in Hready. exact (Hready kn Hin). }
  rewrite map_map. cbn [fst snd]. split; [reflexivity|].
  apply (evalPath_updated_member config (runtime "palletSession") "keys" _ pallet);
    [reflexivity | exact Hdoc].
Qed.

(** The guard of the session builder, where it is reached: both sub-seeds
    derive and one of the two addresses is the empty string. *)
Lemma sessionKeyOf_empty_address (chainConfig node key : value) fields :
  isNullish node = false ->
  resolves chainConfig (get_prop node "account") = true ->
  configured chainConfig (get_prop node "account") = VObj fields ->
  isNullish (get_prop (VObj fields) "grandpa") = false ->
  derives (grandpaSeed (VObj fields)) = true ->
  derives (babeSeed (VObj fields)) = true ->
  String.eqb (primaryAddress (grandpaSeed (VObj fields))) EmptyString
  || String.eqb (primaryAddress (babeSeed (VObj fields))) EmptyString = true ->
  sessionKeyOf keyring keyringSr25519 chainConfig node key =
    Throw (StringExn (invalidSession key (get_prop node "account"))).
Proof.
  intros Hn Hr Hacc Hg Hdg Hdb Hempty.
  unfold sessionKeyOf. rewrite (getp_defined _ _ Hn). cbn [rbind].
  rewrite getAccountOrFail_resolves by assumption. cbn [rbind].
  rewrite Hacc. cbn [spread].
  rewrite getp_defined by reflexivity. cbn [rbind].
  rewrite (get_prop_enriched fields _ "grandpa" eq_refl).
  rewrite getp_defined by assumption. cbn [rbind].
  fold (grandpaSeed (VObj fields)).
  rewrite loadKeyFromMemo_derives by assumption. cbn [rbind].
  rewrite babeSeed_enriched.
  rewrite loadKeyFromMemo_derives by assumption. cbn [rbind].
  change (lodash.get (keyBundle (grandpaSeed (VObj fields))) "address" VUndefined)
    with (VStr (primaryAddress (grandpaSeed (VObj fields)))).
  change (getp (keyBundle (babeSeed (VObj fields))) "address")
    with (Ok (A := value) (VStr (primaryAddress (babeSeed (VObj fields))))).
  cbn [rbind lodash.isEmpty].
  destruct (primaryAddress (grandpaSeed (VObj fields)));
    destruct (primaryAddress (babeSeed (VObj fields))); try reflexivity.
  discriminate.
Qed.

(** A node whose account has no [grandpa]: [account.grandpa.seed] is a read
    on [undefined]. *)
Lemma sessionKeyOf_without_grandpa (chainConfig node key : value) fields :
  isNullish node = false ->
  resolves chainConfig (get_prop node "account") = true ->
  configured chainConfig (get_prop node "account") = VObj fields ->
  own fields "grandpa" = None ->
  sessionKeyOf keyring keyringSr25519 chainConfig node key = Throw (TypeError "seed" VUndefined).
Proof.
  intros Hn Hr Hacc Hg.
  unfold sessionKeyOf. rewrite (getp_defined _ _ Hn). cbn [rbind].
  rewrite getAccountOrFail_resolves by assumption. cbn [rbind].
  rewrite Hacc. cbn [spread].
  rewrite getp_defined by reflexivity. cbn [rbind].
  rewrite (get_prop_enriched fields _ "grandpa" eq_refl).
  cbn [get_prop]. rewrite Hg. reflexivity.
Qed.

(** A node whose account has a grandpa seed and no [babe]: the keyring is
    handed [undefined], and what it raises escapes before the guard. *)
Lemma sessionKeyOf_without_babe (chainConfig node key : value) fields reason :
  isNullish node = false ->
  resolves chainConfig (get_prop node "account") = true ->
  configured chainConfig (get_prop node "account") = VObj fields ->
  isNullish (get_prop (VObj fields) "grandpa") = false ->
  derives (grandpaSeed (VObj fields)) = true ->
  babeSeed (VObj fields) = VUndefined ->
  keyring VUndefined = Rejected reason ->
  sessionKeyOf keyring keyringSr25519 chainConfig node key = Throw (KeyringExn reason).
Proof.
  intros Hn Hr Hacc Hg Hdg Hb Hrej.
  unfold sessionKeyOf. rewrite (getp_defined _ _ Hn). cbn [rbind].
  rewrite getAccountOrFail_resolves by assumption. cbn [rbind].
  rewrite Hacc. cbn [spread].
  rewrite getp_defined by reflexivity. cbn [rbind].
  rewrite (get_prop_enriched fields _ "grandpa" eq_refl).
  rewrite getp_defined by assumption. cbn [rbind].
  fold (grandpaSeed (VObj fields)).
  rewrite loadKeyFromMemo_derives by assumption. cbn [rbind].
  rewrite babeSeed_enriched, Hb.
  unfold loadKeyFromMemo, addFromMnemonic. rewrite Hrej. reflexivity.
Qed.

(** C5, at the input where the builder departs from it.  A first node that
    refers to an account which resolves and has neither [grandpa] nor [babe]
    makes the session builder throw the TypeError of [account.grandpa.seed],
    not the string that names the node and the account; the document is left
    as it was. *)
Theorem updateSession_missing_subaccounts (config chainConfig base nodes node key : value)
    (rest : list (value * value)) (fields : list (string * value)) :
  evalPath config (runtime "palletSession") = Ok base ->
  getp chainConfig "nodes" = Ok nodes ->
  lodash.entries nodes = (node, key) :: rest ->
  isNullish node = false ->
  resolves chainConfig (get_prop node "account") = true ->
  configured chainConfig (get_prop node "account") = VObj fields ->
  own fields "grandpa" = None ->
  babeSeed (VObj fields) = VUndefined ->
  let o := updateSession keyring keyringSr25519 config chainConfig in
  returned o = Throw (TypeError "seed" VUndefined) /\
  returned o <> Throw (StringExn (invalidSession key (get_prop node "account"))) /\
  config_after o = config.
Proof.
  intros Hdoc Hnodes Hent Hn Hr Hacc Hg _ o.
  assert (Ho : o = (Throw (TypeError "seed" VUndefined), config)).
  { subst o. unfold updateSession, mbind, member, lift.
    rewrite Hdoc, Hnodes. cbn [rbind]. unfold lodash.map. rewrite Hent. cbn [mapM fst snd].
    rewrite (sessionKeyOf_without_grandpa chainConfig node key fields Hn Hr Hacc Hg).
    reflexivity. }
  rewrite Ho. unfold returned, config_after. cbn [fst snd].
  repeat split. discriminate.
Qed.

(** ** Sudo *)

(** The sudo key of a configuration whose [sudo_account] resolves to an
    object: the sr25519 address of that account's seed. *)
Lemma sudoKey_resolves (chainConfig : value) fields :
  let sudoAccount := lodash.get chainConfig "sudo_account" (VStr EmptyString) in
  resolves chainConfig sudoAccount = true ->
  configured chainConfig sudoAccount = VObj fields ->
  own fields "accountData.address" = None ->
  String.eqb (addressOfName chainConfig sudoAccount) EmptyString = false ->
  sudoKey keyring keyringSr25519 chainConfig = Ok (VStr (addressOfName chainConfig sudoAccount)).
Proof.
  intros sudoAccount Hr Hacc Hplain Haddr. unfold sudoKey. fold sudoAccount.
  rewrite (getAccountOrFail_resolves _ _ Hr). cbn [rbind]. rewrite Hacc. cbn [spread].
  unfold lodash.get, lodash.castPath.
  cbn [lodash.hasDot Ascii.eqb Bool.eqb orb negb has_prop].
  rewrite (own_obj_set_other fields "accountData" _ "accountData.address" eq_refl), Hplain.
  cbv [lodash.stringToPath Ascii.eqb Bool.eqb].
  unfold lodash.getPath, lodash.baseGet. cbn [isNullish get_prop].
  rewrite own_obj_set_same.
  change (isNullish (keyBundle (seedOf chainConfig sudoAccount))) with false. cbv iota.
  change (get_prop (keyBundle (seedOf chainConfig sudoAccount)) "address")
    with (VStr (addressOfName chainConfig sudoAccount)).
  cbn [lodash.isEmpty].
  destruct (addressOfName chainConfig sudoAccount); [discriminate | reflexivity].
Qed.

(** C10.  When the sudo account yields a key and the skeleton has
    [genesis.runtime], the sudo builder returns the document in which
    [genesis.runtime.palletSudo] is the object with the single field [key]:
    whatever else the skeleton had under [palletSudo] reads as [undefined],
    and a read along any path that leaves [genesis.runtime.palletSudo] sees
    what it saw in the skeleton. *)
Theorem updateSudo_replaces_palletSudo (config chainConfig key : value)
    (rt : list (string * value)) :
  sudoKey keyring keyringSr25519 chainConfig = Ok key ->
  evalPath config ["genesis"; "runtime"] = Ok (VObj rt) ->
  let o := updateSudo keyring keyringSr25519 config chainConfig in
  returned o = Ok (config_after o) /\
  evalPath (config_after o) (runtime "palletSudo") = Ok (VObj [("key", key)]) /\
  (forall field, String.eqb field "key" = false ->
     evalPath (config_after o) (runtime "palletSudo" ++ [field]) = Ok VUndefined) /\
  (forall path, diverge (runtime "palletSudo") path = true ->
     evalPath (config_after o) path = evalPath config path).
Proof.
  intros Hkey Hdoc o. subst o.
  unfold updateSudo, mbind, member, lift, putMember, self, returned, config_after.
  rewrite Hkey, Hdoc. cbn [isNullish fst snd].
  pose proof (evalPath_updated_member config ["genesis"; "runtime"] "palletSudo"
                (VObj [("key", key)]) rt eq_refl Hdoc) as Hsudo.
  change (["genesis"; "runtime"] ++ ["palletSudo"])%list with (runtime "palletSudo") in Hsudo.
  split; [reflexivity|]. split; [exact Hsudo|]. split.
  - intros field Hfield. rewrite evalPath_app, Hsudo. cbn [rbind evalPath].
    unfold getp. cbn [isNullish get_prop]. unfold own. cbn [find fst snd].
    rewrite String.eqb_sym, Hfield. reflexivity.
  - intros path Hpath. apply update_at_frame. exact Hpath.
Qed.

(** ** The driver *)

Local Open Scope list_scope.

Lemma forEachModifier_app before rest (config chainConfig config' : value) :
  snd (forEachModifier before config chainConfig) = Ok config' ->
  forEachModifier (before ++ rest) config chainConfig =
    (map LogUpdating (map fst before) ++ fst (forEachModifier rest config' chainConfig),
     snd (forEachModifier rest config' chainConfig)).
Proof.
  revert config. induction before as [|[name fn] before IH]; intros config H.
  - simpl in H. inversion H. subst. simpl. destruct (forEachModifier rest config' chainConfig).
    reflexivity.
  - simpl in *. destruct (returned (fn config chainConfig)) as [next|ex]; [|discriminate].
    destruct (forEachModifier before next chainConfig) as [events r] eqn:E.
    simpl in H. rewrite (IH next) by (rewrite E; exact H). reflexivity.
Qed.

Lemma main_reports (config chainConfig : value) events ex :
  forEachModifier (chainSpecModifiers keyring keyringSr25519) config chainConfig =
    (events, Throw ex) ->
  main keyring keyringSr25519 config chainConfig = events ++ [reportOf ex].
Proof. intros H. unfold main. rewrite H. destruct ex; reflexivity. Qed.

Lemma NoDup_app_In {A} (l1 l2 : list A) (x : A) :
  NoDup (l1 ++ l2) -> In x l1 -> In x l2 -> False.
Proof.
  induction l1 as [|a l1 IH]; simpl; intros Hnd H1 H2; [exact H1|].
  inversion Hnd as [|? ? Hnotin Hnd']; subst.
  destruct H1 as [->|H1].
  - apply Hnotin. apply in_or_app. right. exact H2.
  - exact (IH Hnd' H1 H2).
Qed.

Lemma logged_names (names : list string) (tail : list event) name :
  In (LogUpdating name) (map LogUpdating names ++ tail) ->
  In name names \/ In (LogUpdating name) tail.
Proof.
  intros H. apply in_app_or in H as [H|H]; [left|right; exact H].
  apply in_map_iff in H as [n [Hn Hin]]. inversion Hn. subst. exact Hin.
Qed.

(** C3.  When a builder of the table throws and the builders before it
    returned, [main] has logged the builders up to that one, reports the
    exception and stops: no later builder is run, nothing is saved. *)
Theorem main_aborts_at_first_failure (config chainConfig config' : value)
    (before after : list (string * (value -> value -> outcome)))
    (name : string) (fn : value -> value -> outcome) (ex : exn) :
  chainSpecModifiers keyring keyringSr25519 = before ++ (name, fn) :: after ->
  snd (forEachModifier before config chainConfig) = Ok config' ->
  returned (fn config' chainConfig) = Throw ex ->
  let events := main keyring keyringSr25519 config chainConfig in
  events = map LogUpdating (map fst before ++ [name]) ++ [reportOf ex] /\
  (forall later, In later (map fst after) -> ~ In (LogUpdating later) events) /\
  existsb isWrite events = false.
Proof.
  intros Htable Hbefore Hfn events.
  assert (Hevents : events = map LogUpdating (map fst before ++ [name]) ++ [reportOf ex]).
  { subst events. apply main_reports. rewrite Htable.
    rewrite (forEachModifier_app before _ config chainConfig config' Hbefore).
    cbn [forEachModifier]. rewrite Hfn. cbn [fst snd].
    rewrite map_app. reflexivity. }
  split; [exact Hevents|]. split.
  - intros later Hlater Hin. rewrite Hevents in Hin.
    assert (Hnodup : NoDup (map fst (chainSpecModifiers keyring keyringSr25519))).
    { cbn. repeat constructor; cbn; intuition discriminate. }
    rewrite Htable, map_app in Hnodup. cbn [map fst] in Hnodup.
    change (name :: map fst after) with ([name] ++ map fst after) in Hnodup.
    rewrite app_assoc in Hnodup.
    apply logged_names in Hin as [Hin|Hin].
    + exact (NoDup_app_In _ _ _ Hnodup Hin Hlater).
    + destruct Hin as [Hin|[]]. destruct ex; discriminate.
  - rewrite Hevents. rewrite existsb_app. apply orb_false_iff. split.
    + clear. induction (map fst before ++ [name]); simpl; auto.
    + destruct ex; reflexivity.
Qed.

(** ** The key bundle *)

Lemma unhexBytes_hexBytes (u8a : list byte) : unhexBytes (hexBytes u8a) = u8a.
Proof.
  induction u8a as [|b rest IH]; [reflexivity|].
  cbn [hexBytes]. unfold hexByte. cbn [String.append unhexBytes]. rewrite IH.
  f_equal. destruct b; reflexivity.
Qed.

Lemma u8aToHex_injective (a b : list byte) : u8aToHex a = u8aToHex b -> a = b.
Proof.
  unfold u8aToHex. cbn [String.append]. intros H. inversion H as [H'].
  rewrite <- (unhexBytes_hexBytes a), <- (unhexBytes_hexBytes b), H'. reflexivity.
Qed.

(** C9.  For a mnemonic both keyrings accept, [loadKeyFromMemo] returns the
    bundle whose [address] is the sr25519 pair's address and whose
    [pubKeyEd25519] and [pubKeySr25519] are one and the same string, the hex
    encoding of the ed25519 public key; the sr25519 public key, when it
    differs from the ed25519 one and its hex encoding is not the address, is
    hex-encoded in no field. *)
Theorem loadKeyFromMemo_bundle (memo : value) (ed sr : KeyringPair) :
  keyring memo = Pair ed ->
  keyringSr25519 memo = Pair sr ->
  exists bundle,
    loadKeyFromMemo memo = Ok bundle /\
    bundle = VObj [("address", VStr (address sr));
                   ("pubKeyEd25519", VStr (u8aToHex (publicKey ed)));
                   ("pubKeySr25519", VStr (u8aToHex (publicKey ed)))] /\
    get_prop bundle "pubKeySr25519" = get_prop bundle "pubKeyEd25519" /\
    get_prop bundle "pubKeySr25519" = VStr (u8aToHex (publicKey ed)) /\
    (publicKey sr <> publicKey ed ->
     address sr <> u8aToHex (publicKey sr) ->
     forall field, get_prop bundle field <> VStr (u8aToHex (publicKey sr))).
Proof.
  intros Hed Hsr. eexists. split.
  - unfold loadKeyFromMemo, addFromMnemonic. rewrite Hed, Hsr. reflexivity.
  - split; [reflexivity|]. split; [reflexivity|]. split; [reflexivity|].
    intros Hpk Haddr field. cbn [get_prop]. unfold own. cbn [find fst snd].
    destruct (String.eqb "address" field).
    { cbn [snd]. intros H. apply Haddr. congruence. }
    destruct (String.eqb "pubKeyEd25519" field).
    { cbn [snd]. intros H. apply Hpk, u8aToHex_injective. congruence. }
    destruct (String.eqb "pubKeySr25519" field).
    { cbn [snd]. intros H. apply Hpk, u8aToHex_injective. congruence. }
    discriminate.
Qed.

(** ** The resolver *)

Lemma length_chars (s : string) : List.length (chars s) = String.length s.
Proof. induction s; simpl; congruence. Qed.

Lemma has_prop_false (v : value) (k : string) :
  has_prop v k = false -> get_prop v k = VUndefined.
Proof.
  destruct v; simpl; try reflexivity.
  - intros H. apply orb_false_iff in H as [Hlen Hidx]. unfold elem. rewrite Hlen.
    destruct (parse_index k) as [i|]; [|reflexivity].
    apply nth_overflow. rewrite length_chars. apply Nat.ltb_ge. exact Hidx.
  - intros H. apply orb_false_iff in H as [Hlen Hidx]. unfold elem. rewrite Hlen.
    destruct (parse_index k) as [i|]; [|reflexivity].
    apply nth_overflow. apply Nat.ltb_ge. exact Hidx.
  - destruct (own fields k); [discriminate | reflexivity].
Qed.

(** A name that is no property of [accounts] looks up as [undefined]. *)
Lemma absent_configured (chainConfig name : value) :
  absent chainConfig name = true -> configured chainConfig name = VUndefined.
Proof.
  unfold absent, configured, lodash.getPath. intros H. apply negb_true_iff in H.
  destruct (isNullish chainConfig) eqn:Hc; [reflexivity|].
  cbn [lodash.baseGet] in *. rewrite Hc in *.
  destruct (isNullish (get_prop chainConfig "accounts")) eqn:Ha; [reflexivity|].
  assert (Hsame : match get_prop chainConfig "accounts" with
                  | VUndefined => VUndefined
                  | _ => get_prop chainConfig "accounts"
                  end = get_prop chainConfig "accounts")
    by (destruct (get_prop chainConfig "accounts"); reflexivity).
  rewrite Hsame in H. rewrite (has_prop_false _ _ H). reflexivity.
Qed.

(** C4, as the resolver has it.  Resolution of a name has three outcomes.
    It throws the string [invalid account "name"] exactly when the name is
    no property of [accounts] or the value found is empty; otherwise the
    account's seed goes to the keyrings, and either both accept it and the
    result is the configured account with [accountData] set to the complete
    bundle of that seed, or one refuses it and the keyring's exception
    escapes. *)
Theorem getAccountOrFail_outcomes (chainConfig name : value) :
  let account := configured chainConfig name in
  let unknown := absent chainConfig name || lodash.isEmpty account in
  let r := getAccountOrFail chainConfig name in
  (unknown = true /\ r = Throw (StringExn (invalidAccount name)))
  \/ (unknown = false /\ derives (seedOf chainConfig name) = true /\
      r = Ok (VObj (obj_set (spread account) "accountData"
                            (keyBundle (seedOf chainConfig name)))))
  \/ (unknown = false /\ derives (seedOf chainConfig name) = false /\
      exists reason, r = Throw (KeyringExn reason)).
Proof.
  intros account unknown r.
  assert (Hunknown : unknown = lodash.isEmpty account).
  { subst unknown. destruct (absent chainConfig name) eqn:Ha; [|reflexivity].
    subst account. rewrite (absent_configured _ _ Ha). reflexivity. }
  rewrite Hunknown. clear Hunknown unknown.
  destruct (lodash.isEmpty account) eqn:He.
  - left. split; [reflexivity|]. subst r account.
    unfold getAccountOrFail. fold (configured chainConfig name).
    rewrite He. reflexivity.
  - right. destruct (derives (seedOf chainConfig name)) eqn:Hd.
    + left. split; [reflexivity|]. split; [reflexivity|]. subst r account.
      apply getAccountOrFail_resolves. unfold resolves. rewrite He, Hd. reflexivity.
    + right. split; [reflexivity|]. split; [reflexivity|]. subst r account.
      unfold getAccountOrFail. fold (configured chainConfig name). rewrite He.
      rewrite (getp_defined _ "seed" (isEmpty_false_not_nullish _ He)). cbn [rbind].
      fold (seedOf chainConfig name).
      unfold derives in Hd.
      unfold loadKeyFromMemo, addFromMnemonic.
      destruct (keyring (seedOf chainConfig name)) as [ed|reason].
      * destruct (keyringSr25519 (seedOf chainConfig name)) as [sr|reason]; [discriminate|].
        exists reason. reflexivity.
      * exists reason. reflexivity.
Qed.

End Properties.

(** * The theorems at the sample inputs *)

Local Open Scope list_scope.

(** The scenario of two accounts, alice (balance 1000, seed A) and bob
    (balance 500, seed B): the balances are [[addr(A), 1000], [addr(B), 500]]. *)
Lemma updateBalances_pairs_sample :
  evalPath Sample.skeleton (runtime "palletBalances") = Ok (VObj [("balances", VArr [])]) /\
  getp Sample.chainConfig "accounts" = Ok (VObj [("alice", Sample.alice); ("bob", Sample.bob)]) /\
  (let o := updateBalances Sample.ed25519 Sample.sr25519 Sample.skeleton Sample.chainConfig in
   returned o = Ok (config_after o) /\
   evalPath (config_after o) (runtime "palletBalances" ++ ["balances"]) =
     Ok (VArr [VArr [VStr (primaryAddress Sample.sr25519 (VStr "A")); VNum 1000];
               VArr [VStr (primaryAddress Sample.sr25519 (VStr "B")); VNum 500]]) /\
   List.length (map (fun na => balancePair Sample.sr25519 (snd na))
                    [("alice", Sample.alice); ("bob", Sample.bob)]) = 2%nat).
Proof.
  split; [reflexivity|]. split; [reflexivity|].
  apply (updateBalances_pairs Sample.ed25519 Sample.sr25519 Sample.skeleton Sample.chainConfig
           [("balances", VArr [])] [("alice", Sample.alice); ("bob", Sample.bob)]);
    reflexivity.
Defined.

Lemma updateTokens_flattened_sample :
  forallb (fun na => keyed Sample.ed25519 Sample.sr25519 (snd na))
          [("alice", Sample.alice); ("bob", Sample.bob)] = true /\
  (let o := updateTokens Sample.ed25519 Sample.sr25519 Sample.skeleton Sample.chainConfig in
   returned o = Ok (config_after o) /\
   evalPath (config_after o) (runtime "ormlTokens" ++ ["endowedAccounts"]) =
     Ok (VArr [VArr [VStr "5A"; VStr "DOT"; VNum 7];
               VArr [VStr "5A"; VStr "BTC"; VNum 3];
               VArr [VStr "5B"; VStr "DOT"; VNum 1]]) /\
   List.length (flat_map (fun na => tokenTriples Sample.sr25519 (snd na))
                         [("alice", Sample.alice); ("bob", Sample.bob)]) = (2 + (1 + 0))%nat).
Proof.
  split; [reflexivity|].
  apply (updateTokens_flattened Sample.ed25519 Sample.sr25519 Sample.skeleton Sample.chainConfig
           [("endowedAccounts", VArr [])] [("alice", Sample.alice); ("bob", Sample.bob)]);
    reflexivity.
Defined.



Lemma updateStaking_counts_sample :
  let entries := [Sample.stake1; Sample.stake2; Sample.stake3] in
  let chainConfig :=
    Sample.chain [("alice", Sample.alice); ("bob", Sample.bob)] [] entries in
  forallb (fun entry => resolves Sample.ed25519 Sample.sr25519 chainConfig (get_prop entry "stash"))
          (filter hasValidatorRole entries) = true /\
  List.length (filter hasValidatorRole entries) = 2%nat /\
  (let after := config_after (updateStaking Sample.ed25519 Sample.sr25519
                                            Sample.skeleton chainConfig) in
   evalPath after (runtime "palletStaking" ++ ["validatorCount"]) = Ok (VNum 4) /\
   evalPath after (runtime "palletStaking" ++ ["minimumValidatorCount"]) = Ok (VNum 2)).
Proof.
  intros entries chainConfig.
  split; [reflexivity|]. split; [reflexivity|].
  destruct (updateStaking_counts Sample.ed25519 Sample.sr25519 Sample.skeleton chainConfig
              [("invulnerables", VArr []); ("stakers", VArr []); ("slashRewardFraction", VNum 10)]
              entries eq_refl eq_refl eq_refl eq_refl) as [Hcount [Hmin _]].
  split; [exact Hcount | exact Hmin].
Defined.

(** The counts are written before the stakers are computed: with a
    controller that is no account the builder throws and leaves them in the
    document it was given, next to the skeleton's stakers. *)
Lemma updateStaking_counts_before_failure :
  let chainConfig :=
    Sample.chain [("alice", Sample.alice); ("bob", Sample.bob)] [] [Sample.dangling] in
  let o := updateStaking Sample.ed25519 Sample.sr25519 Sample.skeleton chainConfig in
  returned o = Throw (StringExn (invalidAccount (VStr "carol"))) /\
  evalPath (config_after o) (runtime "palletStaking" ++ ["validatorCount"]) = Ok (VNum 2) /\
  evalPath (config_after o) (runtime "palletStaking" ++ ["minimumValidatorCount"]) = Ok (VNum 1) /\
  evalPath (config_after o) (runtime "palletStaking" ++ ["stakers"]) = Ok (VArr []).
Proof. vm_compute. repeat split. Qed.

(** The scenario of one validator entry with stash alice and controller bob. *)
Lemma updateStaking_stakers_sample :
  forallb (stakeResolves Sample.ed25519 Sample.sr25519 Sample.chainConfig) [Sample.stake1] = true /\
  (let o := updateStaking Sample.ed25519 Sample.sr25519 Sample.skeleton Sample.chainConfig in
   returned o = Ok (config_after o) /\
   evalPath (config_after o) (runtime "palletStaking" ++ ["stakers"]) =
     Ok (VArr [VArr [VStr "5A"; VStr "5B"; VNum 100000000000000; VStr "Validator"]]) /\
   fixedStake = (100 * 10 ^ 12)%Z).
Proof.
  split; [reflexivity|].
  apply (updateStaking_stakers Sample.ed25519 Sample.sr25519 Sample.skeleton Sample.chainConfig
           [("invulnerables", VArr []); ("stakers", VArr []); ("slashRewardFraction", VNum 10)]
           [Sample.stake1]); reflexivity.
Defined.

Lemma updateSession_triples_sample :
  forallb (fun kn => sessionReady Sample.ed25519 Sample.sr25519 Sample.chainConfig (snd kn))
          [("node1", Sample.node1)] = true /\
  (let o := updateSession Sample.ed25519 Sample.sr25519 Sample.skeleton Sample.chainConfig in
   returned o = Ok (config_after o) /\
   evalPath (config_after o) (runtime "palletSession" ++ ["keys"]) =
     Ok (VArr [VArr [VStr "5A"; VStr "5A";
                     VObj [("grandpa", VStr "5Ag"); ("babe", VStr "5Ab")]]])).
Proof.
  split; [reflexivity|].
  apply (updateSession_triples Sample.ed25519 Sample.sr25519 Sample.skeleton Sample.chainConfig
           [("keys", VArr [])] [("node1", Sample.node1)]); reflexivity.
Defined.

(** C1, as it is worded, at the sample input: the node's account resolves
    and has both sub-seeds, and the third element of the emitted triple
    holds the sr25519 addresses of the sub-seeds, not the hex encodings of
    their ed25519 public keys. *)
Lemma session_keys_are_not_ed25519_hex :
  sessionReady Sample.ed25519 Sample.sr25519 Sample.chainConfig Sample.node1 = true /\
  sessionTriple_spec Sample.ed25519 Sample.sr25519 Sample.chainConfig Sample.node1 =
    VArr [VStr "5A"; VStr "5A"; VObj [("grandpa", VStr "0x4167"); ("babe", VStr "0x4162")]] /\
  evalPath (config_after (updateSession Sample.ed25519 Sample.sr25519
                                        Sample.skeleton Sample.chainConfig))
           (runtime "palletSession" ++ ["keys"]) =
    Ok (VArr [VArr [VStr "5A"; VStr "5A"; VObj [("grandpa", VStr "5Ag"); ("babe", VStr "5Ab")]]]) /\
  evalPath (config_after (updateSession Sample.ed25519 Sample.sr25519
                                        Sample.skeleton Sample.chainConfig))
           (runtime "palletSession" ++ ["keys"]) <>
    Ok (VArr [sessionTriple_spec Sample.ed25519 Sample.sr25519 Sample.chainConfig Sample.node1]).
Proof.
  split; [reflexivity|]. split; [reflexivity|]. split; [reflexivity|].
  vm_compute. discriminate.
Qed.

(** The failing reference of the specification's scenario: a staking entry
    whose controller is no account.  The staking builder is the seventh;
    the six before it return. *)
Lemma main_aborts_at_first_failure_sample :
  let chainConfig :=
    Sample.chain [("alice", Sample.alice); ("bob", Sample.bob)] [("node1", Sample.node1)]
                 [Sample.dangling] in
  let events := main Sample.ed25519 Sample.sr25519 Sample.skeleton chainConfig in
  events = map LogUpdating ["bootnodes"; "naming"; "balance"; "tokens"; "session"; "sudo";
                            "staking"]
           ++ [LogErrorString (invalidAccount (VStr "carol"))] /\
  (forall later, In later [] -> ~ In (LogUpdating later) events) /\
  existsb isWrite events = false.
Proof.
  intros chainConfig events.
  refine (main_aborts_at_first_failure Sample.ed25519 Sample.sr25519 Sample.skeleton chainConfig
            (match snd (forEachModifier
                          [("bootnodes", updateBootNodes); ("naming", updateNaming);
                           ("balance", updateBalances Sample.ed25519 Sample.sr25519);
                           ("tokens", updateTokens Sample.ed25519 Sample.sr25519);
                           ("session", updateSession Sample.ed25519 Sample.sr25519);
                           ("sudo", updateSudo Sample.ed25519 Sample.sr25519)]
                          Sample.skeleton chainConfig) with
             | Ok doc => doc
             | Throw _ => VUndefined
             end)
            [("bootnodes", updateBootNodes); ("naming", updateNaming);
             ("balance", updateBalances Sample.ed25519 Sample.sr25519);
             ("tokens", updateTokens Sample.ed25519 Sample.sr25519);
             ("session", updateSession Sample.ed25519 Sample.sr25519);
             ("sudo", updateSudo Sample.ed25519 Sample.sr25519)]
            [] "staking" (updateStaking Sample.ed25519 Sample.sr25519)
            (StringExn (invalidAccount (VStr "carol"))) eq_refl _ _);
    vm_compute; reflexivity.
Defined.

(** A failure in the middle of the table: a node that refers to no account
    stops the run at the session builder; sudo and staking are not run. *)
Lemma main_on_dangling_node :
  main Sample.ed25519 Sample.sr25519 Sample.skeleton
       (Sample.chain [("alice", Sample.alice)]
                     [("node1", VObj [("host", VStr "h"); ("id", VStr "p"); ("account", VStr "zed")])]
                     []) =
  [LogUpdating "bootnodes"; LogUpdating "naming"; LogUpdating "balance"; LogUpdating "tokens";
   LogUpdating "session"; LogErrorString (invalidAccount (VStr "zed"))].
Proof. vm_compute. reflexivity. Qed.

(** C5 at its failing input: node1 refers to an account that resolves and
    has neither [grandpa] nor [babe]. *)
Lemma updateSession_missing_subaccounts_sample :
  let chainConfig := Sample.chain [("alice", Sample.plain)] [("node1", Sample.node1)] [] in
  resolves Sample.ed25519 Sample.sr25519 chainConfig (get_prop Sample.node1 "account") = true /\
  babeSeed Sample.plain = VUndefined /\
  (let o := updateSession Sample.ed25519 Sample.sr25519 Sample.skeleton chainConfig in
   returned o = Throw (TypeError "seed" VUndefined) /\
   returned o <> Throw (StringExn (invalidSession (VStr "node1") (VStr "alice"))) /\
   config_after o = Sample.skeleton).
Proof.
  intros chainConfig. split; [reflexivity|]. split; [reflexivity|].
  apply (updateSession_missing_subaccounts Sample.ed25519 Sample.sr25519 Sample.skeleton
           chainConfig (VObj [("keys", VArr [])]) (VObj [("node1", Sample.node1)])
           Sample.node1 (VStr "node1") []
           [("seed", VStr "A"); ("balance", VNum 1000)]); reflexivity.
Defined.

(** The run at that input: the exception is no string, so [main] reports it
    as an error object, after the session builder and before any write. *)
Lemma main_on_missing_subaccounts :
  main Sample.ed25519 Sample.sr25519 Sample.skeleton
       (Sample.chain [("alice", Sample.plain)] [("node1", Sample.node1)] []) =
  [LogUpdating "bootnodes"; LogUpdating "naming"; LogUpdating "balance"; LogUpdating "tokens";
   LogUpdating "session"; LogErrorObject (TypeError "seed" VUndefined)].
Proof. vm_compute. reflexivity. Qed.

(** The same with a grandpa seed and no [babe], under a keyring that refuses
    [undefined]: the keyring's exception, not the guard's string. *)
Lemma main_on_missing_babe :
  main Sample.ed25519 Sample.sr25519 Sample.skeleton
       (Sample.chain [("alice", Sample.babeless)] [("node1", Sample.node1)] []) =
  [LogUpdating "bootnodes"; LogUpdating "naming"; LogUpdating "balance"; LogUpdating "tokens";
   LogUpdating "session"; LogErrorObject (KeyringExn "mnemonic is not a string")].
Proof. vm_compute. reflexivity. Qed.

Lemma loadKeyFromMemo_bundle_sample :
  Sample.ed25519 (VStr "Ag") = Pair (mkPair "ed:Ag" [x41; x67]) /\
  Sample.sr25519 (VStr "Ag") = Pair (mkPair "5Ag" [x67; x41]) /\
  exists bundle,
    loadKeyFromMemo Sample.ed25519 Sample.sr25519 (VStr "Ag") = Ok bundle /\
    bundle = VObj [("address", VStr "5Ag"); ("pubKeyEd25519", VStr "0x4167");
                   ("pubKeySr25519", VStr "0x4167")] /\
    get_prop bundle "pubKeySr25519" = get_prop bundle "pubKeyEd25519" /\
    get_prop bundle "pubKeySr25519" = VStr "0x4167" /\
    ([x67; x41] <> [x41; x67] -> "5Ag" <> "0x6741" ->
     forall field, get_prop bundle field <> VStr "0x6741").
Proof.
  split; [reflexivity|]. split; [reflexivity|].
  exact (loadKeyFromMemo_bundle Sample.ed25519 Sample.sr25519 (VStr "Ag")
           (mkPair "ed:Ag" [x41; x67]) (mkPair "5Ag" [x67; x41]) eq_refl eq_refl).
Defined.

Lemma updateSudo_replaces_palletSudo_sample :
  sudoKey Sample.ed25519 Sample.sr25519 Sample.chainConfig = Ok (VStr "5A") /\
  evalPath Sample.skeleton (runtime "palletSudo") =
    Ok (VObj [("key", VStr EmptyString); ("note", VStr "dev")]) /\
  (let o := updateSudo Sample.ed25519 Sample.sr25519 Sample.skeleton Sample.chainConfig in
   returned o = Ok (config_after o) /\
   evalPath (config_after o) (runtime "palletSudo") = Ok (VObj [("key", VStr "5A")]) /\
   (forall field, String.eqb field "key" = false ->
      evalPath (config_after o) (runtime "palletSudo" ++ [field]) = Ok VUndefined) /\
   (forall path, diverge (runtime "palletSudo") path = true ->
      evalPath (config_after o) path = evalPath Sample.skeleton path)).
Proof.
  split; [reflexivity|]. split; [reflexivity|].
  eapply (updateSudo_replaces_palletSudo Sample.ed25519 Sample.sr25519 Sample.skeleton
            Sample.chainConfig (VStr "5A")); reflexivity.
Defined.

(** C4, as it is worded, at the sample keyrings: dave is a property of
    [accounts] and its value is not empty, yet resolution fails, and with
    the keyring's exception rather than the unknown-account string. *)
Lemma resolution_fails_on_seedless_account :
  let chainConfig := Sample.chain [("dave", VObj [("balance", VNum 5)])] [] [] in
  absent chainConfig (VStr "dave") = false /\
  lodash.isEmpty (configured chainConfig (VStr "dave")) = false /\
  getAccountOrFail Sample.ed25519 Sample.sr25519 chainConfig (VStr "dave") =
    Throw (KeyringExn "mnemonic is not a string") /\
  ~ ((exists account,
        getAccountOrFail Sample.ed25519 Sample.sr25519 chainConfig (VStr "dave") = Ok account)
     \/ getAccountOrFail Sample.ed25519 Sample.sr25519 chainConfig (VStr "dave") =
        Throw (StringExn (invalidAccount (VStr "dave")))).
Proof.
  intros chainConfig. split; [reflexivity|]. split; [reflexivity|]. split; [reflexivity|].
  intros [[account H]|H]; vm_compute in H; discriminate.
Qed.

(** * Beyond the claims: the builders as writes *)

(** ** Writes into nested objects *)

Lemma ownPath_evalPath (doc : value) (path : list string) (v : value) :
  ownPath doc path = Some v -> evalPath doc path = Ok v.
Proof.
  revert doc. induction path as [|k rest IH]; intros doc H; simpl in *.
  - congruence.
  - destruct doc; try discriminate.
    destruct (own fields k) as [child|] eqn:Hown; [|discriminate].
    unfold getp. cbn [isNullish get_prop]. rewrite Hown. cbn [rbind]. apply IH. exact H.
Qed.

Lemma objectAt_evalPath (doc : value) (path : list string) :
  objectAt doc path = true -> exists fields, evalPath doc path = Ok (VObj fields).
Proof.
  unfold objectAt. destruct (ownPath doc path) as [[]|] eqn:H; try discriminate.
  intros _. exists fields. apply ownPath_evalPath. exact H.
Qed.

Lemma obj_set_fixed fields k v : own fields k = Some v -> obj_set fields k v = fields.
Proof.
  unfold own. induction fields as [|[k' v'] rest IH]; simpl; [discriminate|].
  destruct (String.eqb k' k) eqn:E.
  - apply String.eqb_eq in E. subst. intros H. inversion H. reflexivity.
  - intros H. rewrite IH by exact H. reflexivity.
Qed.

(** Assigning a field the value it already has changes nothing. *)
Lemma update_at_fixed (doc : value) (path : list string) k v :
  ownPath doc (path ++ [k]) = Some v -> update_at doc path k v = doc.
Proof.
  revert doc. induction path as [|p rest IH]; intros doc H; simpl in *.
  - destruct doc; try discriminate.
    destruct (own fields k) eqn:Hown; [|discriminate].
    inversion H. subst. rewrite obj_set_fixed by exact Hown. reflexivity.
  - destruct doc; try discriminate.
    destruct (own fields p) as [child|] eqn:Hown; [|discriminate].
    rewrite (IH child H). rewrite obj_set_fixed by exact Hown. reflexivity.
Qed.

Lemma ownPath_update_frame (doc : value) (path : list string) k v (q : list string) :
  diverge (path ++ [k]) q = true ->
  ownPath (update_at doc path k v) q = ownPath doc q.
Proof.
  revert doc q. induction path as [|p rest IH]; intros doc q Hd.
  - destruct q as [|a q]; [discriminate|]. simpl in Hd.
    destruct (String.eqb k a) eqn:E.
    + destruct q; discriminate.
    + destruct doc; try reflexivity. simpl.
      rewrite (own_obj_set_other fields k v a E). reflexivity.
  - destruct q as [|a q]; [discriminate|]. simpl in Hd.
    destruct doc; try reflexivity. cbn [update_at].
    destruct (own fields p) as [child|] eqn:Hown; [|reflexivity].
    cbn [ownPath].
    destruct (String.eqb p a) eqn:E.
    + apply String.eqb_eq in E. subst a.
      rewrite own_obj_set_same, Hown. apply IH. exact Hd.
    + rewrite (own_obj_set_other fields p _ a E). reflexivity.
Qed.

(** An object stays an object unless a write lands on it or above it. *)
Lemma objectAt_update (doc : value) (path : list string) k v (q : list string) :
  prefix (path ++ [k]) q = false ->
  objectAt doc q = true -> objectAt (update_at doc path k v) q = true.
Proof.
  unfold objectAt. revert doc q. induction path as [|p rest IH]; intros doc q Hp Hq.
  - destruct q as [|a q].
    + simpl in *. destruct doc; try discriminate. reflexivity.
    + simpl in Hp. apply andb_false_iff in Hp as [Hp|Hp]; [|destruct q; discriminate].
      destruct doc; try discriminate. simpl in *.
      rewrite (own_obj_set_other fields k v a Hp). exact Hq.
  - destruct q as [|a q].
    + simpl in *. destruct doc; try discriminate.
      destruct (own fields p); reflexivity.
    + destruct doc; try discriminate. cbn [update_at].
      destruct (own fields p) as [child|] eqn:Hown; [|exact Hq].
      cbn [ownPath] in *. simpl in Hp.
      destruct (String.eqb p a) eqn:E.
      * apply String.eqb_eq in E. subst a. rewrite own_obj_set_same.
        rewrite Hown in Hq. simpl in Hp. apply IH; assumption.
      * rewrite (own_obj_set_other fields p _ a E). exact Hq.
Qed.

Lemma ownPath_written (doc : value) (path : list string) k v :
  objectAt doc path = true -> ownPath (update_at doc path k v) (path ++ [k]) = Some v.
Proof.
  unfold objectAt. revert doc. induction path as [|p rest IH]; intros doc H.
  - simpl in *. destruct doc; try discriminate. simpl. rewrite own_obj_set_same. reflexivity.
  - simpl in H. destruct doc; try discriminate.
    destruct (own fields p) as [child|] eqn:Hown; [|discriminate].
    cbn [update_at]. rewrite Hown. cbn [app ownPath]. rewrite own_obj_set_same.
    apply IH. exact H.
Qed.

(** ** Lists of writes *)

Lemma apply_writes_app (doc : value) (ws ws' : list write) :
  apply_writes doc (ws ++ ws') = apply_writes (apply_writes doc ws) ws'.
Proof. apply fold_left_app. Qed.

Lemma ownPath_writes_frame (ws : list write) (doc : value) (q : list string) :
  forallb (fun w => diverge (target w) q) ws = true ->
  ownPath (apply_writes doc ws) q = ownPath doc q.
Proof.
  revert doc. induction ws as [|w ws IH]; intros doc H; [reflexivity|].
  simpl in H. apply andb_true_iff in H as [Hw Hws].
  cbn [apply_writes fold_left]. fold (apply_writes (apply_write doc w) ws).
  rewrite (IH _ Hws). apply ownPath_update_frame. exact Hw.
Qed.

Lemma evalPath_writes_frame (ws : list write) (doc : value) (q : list string) :
  forallb (fun w => diverge (target w) q) ws = true ->
  evalPath (apply_writes doc ws) q = evalPath doc q.
Proof.
  revert doc. induction ws as [|w ws IH]; intros doc H; [reflexivity|].
  simpl in H. apply andb_true_iff in H as [Hw Hws].
  cbn [apply_writes fold_left]. fold (apply_writes (apply_write doc w) ws).
  rewrite (IH _ Hws). apply update_at_frame. exact Hw.
Qed.

Lemma objectAt_writes (ws : list write) (doc : value) (q : list string) :
  forallb (fun w => negb (prefix (target w) q)) ws = true ->
  objectAt doc q = true -> objectAt (apply_writes doc ws) q = true.
Proof.
  revert doc. induction ws as [|w ws IH]; intros doc H Hq; [exact Hq|].
  simpl in H. apply andb_true_iff in H as [Hw Hws]. apply negb_true_iff in Hw.
  cbn [apply_writes fold_left]. fold (apply_writes (apply_write doc w) ws).
  apply (IH _ Hws). apply objectAt_update; assumption.
Qed.

(** After a separated list of writes into objects, every write reads back. *)
Lemma writes_read_back (ws before : list write) (doc : value) :
  separated before ws = true ->
  forallb (fun w => objectAt (apply_writes doc before) (wparent w)) ws = true ->
  Forall (fun w => ownPath (apply_writes (apply_writes doc before) ws) (target w)
                   = Some (wvalue w)) ws.
Proof.
  revert before. induction ws as [|w after IH]; intros before Hsep Hobj; [constructor|].
  simpl in Hsep. apply andb_true_iff in Hsep as [Hsep Hrest].
  apply andb_true_iff in Hsep as [_ Hafter].
  simpl in Hobj. apply andb_true_iff in Hobj as [Hw Hobj].
  constructor.
  - cbn [apply_writes fold_left]. fold (apply_writes (apply_write (apply_writes doc before) w) after).
    rewrite (ownPath_writes_frame after _ _ Hafter).
    apply ownPath_written. exact Hw.
  - specialize (IH (before ++ [w]) Hrest).
    rewrite apply_writes_app in IH. cbn [apply_writes fold_left] in IH.
    fold (apply_writes (apply_writes doc before)) in IH.
    cbn [apply_writes fold_left].
    fold (apply_writes (apply_write (apply_writes doc before) w) after).
    apply IH. clear IH.
    rewrite forallb_forall in Hobj. apply forallb_forall. intros w' Hin.
    apply objectAt_update; [|exact (Hobj w' Hin)].
    (* the write [w] is not on or above the parent of a later write *)
    assert (Hall : forallb (fun w0 => forallb (fun b => negb (prefix (target b) (wparent w0)))
                                              (before ++ [w])) after = true).
    { clear - Hrest. revert Hrest. generalize (before ++ [w]). clear.
      induction after as [|a after IH]; intros l H; [reflexivity|].
      simpl in H. apply andb_true_iff in H as [H Hrest].
      apply andb_true_iff in H as [Ha _].
      simpl. rewrite Ha. simpl.
      specialize (IH _ Hrest).
      rewrite forallb_forall in IH. apply forallb_forall. intros w0 Hw0.
      specialize (IH w0 Hw0). rewrite forallb_app in IH.
      apply andb_true_iff in IH as [IH _]. exact IH. }
    rewrite forallb_forall in Hall. specialize (Hall w' Hin).
    rewrite forallb_app in Hall. apply andb_true_iff in Hall as [_ Hall].
    simpl in Hall. rewrite andb_true_r in Hall. apply negb_true_iff in Hall. exact Hall.
Qed.

(** Replaying writes that all read back changes nothing. *)
Lemma apply_writes_fixed (ws : list write) (doc : value) :
  Forall (fun w => ownPath doc (target w) = Some (wvalue w)) ws ->
  apply_writes doc ws = doc.
Proof.
  induction 1 as [|w ws Hw _ IH]; [reflexivity|].
  cbn [apply_writes fold_left]. unfold apply_write at 2.
  rewrite (update_at_fixed doc (wparent w) (wfield w) (wvalue w) Hw). exact IH.
Qed.

(** ** What one call of a builder does to the document *)

Section Runs.

Variables keyring keyringSr25519 : Keyring.

Local Notation keyed := (keyed keyring keyringSr25519).
Local Notation resolves := (resolves keyring keyringSr25519).
Local Notation sessionReady := (sessionReady keyring keyringSr25519).
Local Notation stakeResolves := (stakeResolves keyring keyringSr25519).
Local Notation addressOfName := (addressOfName keyringSr25519).
Local Notation balancesOf := (balancesOf keyringSr25519).
Local Notation endowedOf := (endowedOf keyringSr25519).
Local Notation sessionKeysOf := (sessionKeysOf keyringSr25519).
Local Notation sudoOf := (sudoOf keyringSr25519).
Local Notation stakingWrites := (stakingWrites keyringSr25519).
Local Notation writesOf := (writesOf keyringSr25519).
Local Notation generated := (generated keyringSr25519).
Local Notation sudoReady := (sudoReady keyring keyringSr25519).
Local Notation wellConfigured := (wellConfigured keyring keyringSr25519).
Local Notation updateBalances := (updateBalances keyring keyringSr25519).
Local Notation updateTokens := (updateTokens keyring keyringSr25519).
Local Notation updateSession := (updateSession keyring keyringSr25519).
Local Notation updateSudo := (updateSudo keyring keyringSr25519).
Local Notation updateStaking := (updateStaking keyring keyringSr25519).
Local Notation main := (main keyring keyringSr25519).

Ltac single_write rhs :=
  unfold singleWrite, mbind, member, lift, putMember, self;
  match goal with
  | |- context [evalPath ?d ?p] =>
      destruct (evalPath d p); [|left; eexists; reflexivity]
  end;
  destruct rhs; [|left; eexists; reflexivity];
  match goal with
  | |- context [isNullish ?b] =>
      destruct (isNullish b); [left; eexists; reflexivity | right; eexists; reflexivity]
  end.

Lemma updateBalances_single (config chainConfig : value) :
  singleWrite (updateBalances config chainConfig) config (runtime "palletBalances") "balances".
Proof.
  unfold updateBalances.
  single_write (accounts <- getp chainConfig "accounts" ;;
                lodash.map accounts (balanceOf keyring keyringSr25519)).
Qed.

Lemma updateTokens_single (config chainConfig : value) :
  singleWrite (updateTokens config chainConfig) config (runtime "ormlTokens") "endowedAccounts".
Proof.
  unfold updateTokens.
  single_write (accounts <- getp chainConfig "accounts" ;;
                perAccount <- lodash.map accounts (tokensOf keyring keyringSr25519) ;;
                Ok (lodash.flatten perAccount)).
Qed.

Lemma updateSession_single (config chainConfig : value) :
  singleWrite (updateSession config chainConfig) config (runtime "palletSession") "keys".
Proof.
  unfold updateSession.
  single_write (nodes <- getp chainConfig "nodes" ;;
                lodash.map nodes (sessionKeyOf keyring keyringSr25519 chainConfig)).
Qed.

Lemma updateSudo_single (config chainConfig : value) :
  singleWrite (updateSudo config chainConfig) config ["genesis"; "runtime"] "palletSudo".
Proof.
  unfold updateSudo, singleWrite, mbind, member, lift, putMember, self.
  destruct (sudoKey keyring keyringSr25519 chainConfig); [|left; eexists; reflexivity].
  destruct (evalPath config ["genesis"; "runtime"]) as [base|ex]; [|left; eexists; reflexivity].
  destruct (isNullish base); [left; eexists; reflexivity | right; eexists; reflexivity].
Qed.

Lemma singleWrite_clean (o : outcome) config path k :
  singleWrite o config path k ->
  (forall ex, returned o = Throw ex -> config_after o = config) /\
  (forall doc, returned o = Ok doc -> config_after o = doc).
Proof.
  intros [[ex ->]|[v ->]]; unfold returned, config_after; cbn [fst snd]; split;
    intros x H; try discriminate; try reflexivity.
  inversion H. reflexivity.
Qed.

Lemma singleWrite_frame (o : outcome) config path k q :
  singleWrite o config path k -> diverge (path ++ [k]) q = true ->
  evalPath (config_after o) q = evalPath config q.
Proof.
  intros [[ex ->]|[v ->]] Hq; unfold config_after; cbn [snd]; [reflexivity|].
  apply update_at_frame. exact Hq.
Qed.

(** X4.  The balances, tokens, session and sudo builders are all or
    nothing: when one throws, the document it was given is as it was, and
    when one returns, what it returns is the document it was given, in the
    state it left it. *)
Theorem builders_fail_clean (config chainConfig : value) :
  let clean (o : outcome) :=
    (forall ex, returned o = Throw ex -> config_after o = config) /\
    (forall doc, returned o = Ok doc -> config_after o = doc) in
  clean (updateBalances config chainConfig) /\
  clean (updateTokens config chainConfig) /\
  clean (updateSession config chainConfig) /\
  clean (updateSudo config chainConfig).
Proof.
  cbv zeta. repeat split; intros x H.
  - exact (proj1 (singleWrite_clean _ _ _ _ (updateBalances_single config chainConfig)) x H).
  - exact (proj2 (singleWrite_clean _ _ _ _ (updateBalances_single config chainConfig)) x H).
  - exact (proj1 (singleWrite_clean _ _ _ _ (updateTokens_single config chainConfig)) x H).
  - exact (proj2 (singleWrite_clean _ _ _ _ (updateTokens_single config chainConfig)) x H).
  - exact (proj1 (singleWrite_clean _ _ _ _ (updateSession_single config chainConfig)) x H).
  - exact (proj2 (singleWrite_clean _ _ _ _ (updateSession_single config chainConfig)) x H).
  - exact (proj1 (singleWrite_clean _ _ _ _ (updateSudo_single config chainConfig)) x H).
  - exact (proj2 (singleWrite_clean _ _ _ _ (updateSudo_single config chainConfig)) x H).
Qed.

(** X3.  Whatever its outcome, each of the balances, tokens, session and
    sudo builders leaves every read along a path that parts from its own
    field as it was: they touch [palletBalances.balances],
    [ormlTokens.endowedAccounts], [palletSession.keys] and [palletSudo]
    and nothing else. *)
Theorem builders_frame (config chainConfig : value) (q : list string) :
  (diverge (runtime "palletBalances" ++ ["balances"]) q = true ->
   evalPath (config_after (updateBalances config chainConfig)) q = evalPath config q) /\
  (diverge (runtime "ormlTokens" ++ ["endowedAccounts"]) q = true ->
   evalPath (config_after (updateTokens config chainConfig)) q = evalPath config q) /\
  (diverge (runtime "palletSession" ++ ["keys"]) q = true ->
   evalPath (config_after (updateSession config chainConfig)) q = evalPath config q) /\
  (diverge (runtime "palletSudo") q = true ->
   evalPath (config_after (updateSudo config chainConfig)) q = evalPath config q).
Proof.
  repeat split; intros Hq.
  - exact (singleWrite_frame _ _ _ _ q (updateBalances_single config chainConfig) Hq).
  - exact (singleWrite_frame _ _ _ _ q (updateTokens_single config chainConfig) Hq).
  - exact (singleWrite_frame _ _ _ _ q (updateSession_single config chainConfig) Hq).
  - exact (singleWrite_frame _ _ _ _ q (updateSudo_single config chainConfig) Hq).
Qed.

(** X5.  The staking builder assigns four fields of [palletStaking] and
    nothing else; when it throws, [stakers] is not among the fields it has
    assigned: a read that parts from [invulnerables], [validatorCount] and
    [minimumValidatorCount] is as it was. *)
Theorem updateStaking_frame (config chainConfig : value) (q : list string) :
  diverge (runtime "palletStaking" ++ ["invulnerables"]) q = true ->
  diverge (runtime "palletStaking" ++ ["validatorCount"]) q = true ->
  diverge (runtime "palletStaking" ++ ["minimumValidatorCount"]) q = true ->
  diverge (runtime "palletStaking" ++ ["stakers"]) q = true \/
  (exists ex, returned (updateStaking config chainConfig) = Throw ex) ->
  evalPath (config_after (updateStaking config chainConfig)) q = evalPath config q.
Proof.
  intros H1 H2 H3 H4.
  unfold updateStaking, mbind, member, lift, putMember, self, returned, config_after in *.
  repeat match goal with
  | |- context [match ?x with Ok _ => _ | Throw _ => _ end] =>
      destruct x; cbn [fst snd] in *
  | |- context [if isNullish ?b then _ else _] =>
      destruct (isNullish b); cbn [fst snd] in *
  | H : context [match ?x with Ok _ => _ | Throw _ => _ end] |- _ =>
      destruct x; cbn [fst snd] in *
  | H : context [if isNullish ?b then _ else _] |- _ =>
      destruct (isNullish b); cbn [fst snd] in *
  end;
  try reflexivity;
  rewrite ?update_at_frame by assumption; try reflexivity.
  destruct H4 as [H4|[ex H4]]; [|discriminate].
  rewrite ?update_at_frame by assumption. reflexivity.
Qed.

(** ** Bootnodes and naming *)

Lemma bootNode_defined (node name : value) :
  isNullish node = false -> bootNode node name = Ok (multiaddress node).
Proof. intros H. unfold bootNode. rewrite !(getp_defined _ _ H). reflexivity. Qed.

Lemma updateBootNodes_run (config chainConfig : value) :
  isNullish chainConfig = false ->
  forallb (fun vk => negb (isNullish (fst vk)))
          (lodash.entries (get_prop chainConfig "nodes")) = true ->
  updateBootNodes config chainConfig =
    (Ok (VObj (obj_set (spread config) "bootNodes" (bootNodesOf chainConfig))), config).
Proof.
  intros Hcc Hnodes. unfold updateBootNodes, mbind, lift, self, mret.
  rewrite (getp_defined _ _ Hcc). cbn [rbind]. unfold lodash.map.
  rewrite (mapM_ok _ (fun vk => multiaddress (fst vk))).
  - reflexivity.
  - apply Forall_forall. intros vk Hin. apply bootNode_defined.
    rewrite forallb_forall in Hnodes. apply negb_true_iff. exact (Hnodes vk Hin).
Qed.

(** X1.  On an object document and a configuration whose nodes are not
    null, the bootnodes builder returns a new document whose [bootNodes] is
    one address [/dns/<host>/tcp/30334/p2p/<id>] per node, in the nodes'
    iteration order; every other read of the document is as in the one it
    was given, which it does not assign into.  No account is looked up: the
    nodes' [account] fields play no part. *)
Theorem updateBootNodes_multiaddresses (config chainConfig : value) :
  isObject config = true ->
  isNullish chainConfig = false ->
  forallb (fun vk => negb (isNullish (fst vk)))
          (lodash.entries (get_prop chainConfig "nodes")) = true ->
  let o := updateBootNodes config chainConfig in
  config_after o = config /\
  exists doc,
    returned o = Ok doc /\
    evalPath doc ["bootNodes"] =
      Ok (VArr (map (fun vk => multiaddress (fst vk))
                    (lodash.entries (get_prop chainConfig "nodes")))) /\
    (forall q, diverge ["bootNodes"] q = true -> evalPath doc q = evalPath config q).
Proof.
  intros Hobj Hcc Hnodes o. subst o.
  rewrite (updateBootNodes_run config chainConfig Hcc Hnodes).
  unfold config_after, returned. cbn [fst snd]. split; [reflexivity|].
  destruct config as [| | | | | |top]; try discriminate. cbn [spread].
  eexists. split; [reflexivity|]. split.
  - cbn [evalPath]. unfold getp. cbn [isNullish get_prop].
    rewrite own_obj_set_same. reflexivity.
  - intros q Hq. exact (update_at_frame (VObj top) [] "bootNodes" _ q Hq).
Qed.

Lemma updateNaming_run (config chainConfig : value) :
  isNullish chainConfig = false ->
  isNullish (get_prop chainConfig "meta") = false ->
  updateNaming config chainConfig =
    (Ok (VObj (obj_set (obj_set (obj_set (spread config) "name"
                                         (get_prop (get_prop chainConfig "meta") "name"))
                                "id" (get_prop (get_prop chainConfig "meta") "id"))
                       "chainType" (get_prop (get_prop chainConfig "meta") "chainType"))),
     config).
Proof.
  intros Hcc Hmeta. unfold updateNaming, mbind, lift, self, mret.
  rewrite (getp_defined _ _ Hcc). cbn [rbind].
  rewrite !(getp_defined _ _ Hmeta). reflexivity.
Qed.

(** X2.  On an object document and a configuration with a [meta], the
    naming builder returns a new document whose [name], [id] and
    [chainType] are those of [meta], a field [meta] lacks being
    [undefined]; every other read is as in the document it was given, which
    it does not assign into. *)
Theorem updateNaming_copies_meta (config chainConfig : value) :
  isObject config = true ->
  isNullish chainConfig = false ->
  isNullish (get_prop chainConfig "meta") = false ->
  let o := updateNaming config chainConfig in
  let meta := get_prop chainConfig "meta" in
  config_after o = config /\
  exists doc,
    returned o = Ok doc /\
    evalPath doc ["name"] = Ok (get_prop meta "name") /\
    evalPath doc ["id"] = Ok (get_prop meta "id") /\
    evalPath doc ["chainType"] = Ok (get_prop meta "chainType") /\
    (forall q, diverge ["name"] q = true -> diverge ["id"] q = true ->
               diverge ["chainType"] q = true -> evalPath doc q = evalPath config q).
Proof.
  intros Hobj Hcc Hmeta o meta. subst o meta.
  rewrite (updateNaming_run config chainConfig Hcc Hmeta).
  unfold config_after, returned. cbn [fst snd]. split; [reflexivity|].
  destruct config as [| | | | | |top]; try discriminate. cbn [spread].
  eexists. split; [reflexivity|].
  repeat split.
  - cbn [evalPath]. unfold getp. cbn [isNullish get_prop].
    rewrite !own_obj_set_other by reflexivity. rewrite own_obj_set_same. reflexivity.
  - cbn [evalPath]. unfold getp. cbn [isNullish get_prop].
    rewrite !own_obj_set_other by reflexivity. rewrite own_obj_set_same. reflexivity.
  - cbn [evalPath]. unfold getp. cbn [isNullish get_prop].
    rewrite own_obj_set_same. reflexivity.
  - intros q Hn Hi Hc.
    change (VObj (obj_set (obj_set (obj_set top "name" ?a) "id" ?b) "chainType" ?c))
      with (update_at (update_at (update_at (VObj top) [] "name" a) [] "id" b) [] "chainType" c).
    rewrite !update_at_frame by assumption. reflexivity.
Qed.

(** A configuration without [meta]: the destructuring is a read on
    [undefined], and the document is not touched. *)
Lemma updateNaming_without_meta (config chainConfig : value) :
  isNullish chainConfig = false ->
  isNullish (get_prop chainConfig "meta") = true ->
  updateNaming config chainConfig =
    (Throw (TypeError "name" (get_prop chainConfig "meta")), config).
Proof.
  intros Hcc Hmeta. unfold updateNaming, mbind, lift.
  rewrite (getp_defined _ _ Hcc). cbn [rbind]. unfold getp at 1. rewrite Hmeta. reflexivity.
Qed.

(** ** The in-place builders on a ready skeleton *)

Lemma updateBalances_run (config chainConfig : value) :
  objectAt config (runtime "palletBalances") = true ->
  isNullish chainConfig = false ->
  forallb (fun vk => keyed (fst vk)) (lodash.entries (get_prop chainConfig "accounts")) = true ->
  updateBalances config chainConfig =
    (Ok (update_at config (runtime "palletBalances") "balances" (balancesOf chainConfig)),
     update_at config (runtime "palletBalances") "balances" (balancesOf chainConfig)).
Proof.
  intros Hobj Hcc Hkeyed. destruct (objectAt_evalPath _ _ Hobj) as [pallet Hdoc].
  unfold updateBalances, mbind, member, lift, putMember, self.
  rewrite Hdoc, (getp_defined _ _ Hcc). cbn [rbind isNullish]. unfold lodash.map.
  rewrite (mapM_ok _ (fun vk => balancePair keyringSr25519 (fst vk))).
  - reflexivity.
  - apply Forall_forall. intros vk Hin. apply balanceOf_keyed.
    rewrite forallb_forall in Hkeyed. exact (Hkeyed vk Hin).
Qed.

Lemma updateTokens_run (config chainConfig : value) :
  objectAt config (runtime "ormlTokens") = true ->
  isNullish chainConfig = false ->
  forallb (fun vk => keyed (fst vk)) (lodash.entries (get_prop chainConfig "accounts")) = true ->
  updateTokens config chainConfig =
    (Ok (update_at config (runtime "ormlTokens") "endowedAccounts" (endowedOf chainConfig)),
     update_at config (runtime "ormlTokens") "endowedAccounts" (endowedOf chainConfig)).
Proof.
  intros Hobj Hcc Hkeyed. destruct (objectAt_evalPath _ _ Hobj) as [pallet Hdoc].
  unfold updateTokens, mbind, member, lift, putMember, self.
  rewrite Hdoc, (getp_defined _ _ Hcc). cbn [rbind isNullish]. unfold lodash.map.
  rewrite (mapM_ok _ (fun vk => VArr (tokenTriples keyringSr25519 (fst vk)))).
  - cbn [rbind].
    rewrite <- (map_map (fun vk => tokenTriples keyringSr25519 (fst vk)) VArr).
    rewrite flatten_arrays, <- flat_map_concat_map. reflexivity.
  - apply Forall_forall. intros vk Hin. apply tokensOf_keyed.
    rewrite forallb_forall in Hkeyed. exact (Hkeyed vk Hin).
Qed.

Lemma updateSession_run (config chainConfig : value) :
  objectAt config (runtime "palletSession") = true ->
  isNullish chainConfig = false ->
  forallb (fun vk => sessionReady chainConfig (fst vk))
          (lodash.entries (get_prop chainConfig "nodes")) = true ->
  updateSession config chainConfig =
    (Ok (update_at config (runtime "palletSession") "keys" (sessionKeysOf chainConfig)),
     update_at config (runtime "palletSession") "keys" (sessionKeysOf chainConfig)).
Proof.
  intros Hobj Hcc Hready. destruct (objectAt_evalPath _ _ Hobj) as [pallet Hdoc].
  unfold updateSession, mbind, member, lift, putMember, self.
  rewrite Hdoc, (getp_defined _ _ Hcc). cbn [rbind isNullish]. unfold lodash.map.
  rewrite (mapM_ok _ (fun vk => sessionTriple keyringSr25519 chainConfig (fst vk))).
  - reflexivity.
  - apply Forall_forall. intros vk Hin. apply sessionKeyOf_ready.
    rewrite forallb_forall in Hready. exact (Hready vk Hin).
Qed.

Lemma sudoKey_ready (chainConfig : value) :
  sudoReady chainConfig = true ->
  sudoKey keyring keyringSr25519 chainConfig =
    Ok (VStr (addressOfName chainConfig (sudoAccountOf chainConfig))).
Proof.
  unfold sudoReady. cbv zeta. intros H.
  apply andb_true_iff in H as [H Haddr]. apply andb_true_iff in H as [Hres Hobj].
  apply negb_true_iff in Haddr.
  destruct (configured chainConfig (sudoAccountOf chainConfig)) as [| | | | | |fields] eqn:Hacc;
    try discriminate.
  destruct (own fields "accountData.address") eqn:Hplain; [discriminate|].
  exact (sudoKey_resolves keyring keyringSr25519 chainConfig fields Hres Hacc Hplain Haddr).
Qed.

Lemma updateSudo_run (config chainConfig : value) :
  objectAt config ["genesis"; "runtime"] = true ->
  sudoReady chainConfig = true ->
  updateSudo config chainConfig =
    (Ok (update_at config ["genesis"; "runtime"] "palletSudo" (sudoOf chainConfig)),
     update_at config ["genesis"; "runtime"] "palletSudo" (sudoOf chainConfig)).
Proof.
  intros Hobj Hready. destruct (objectAt_evalPath _ _ Hobj) as [rt Hdoc].
  unfold updateSudo, mbind, member, lift, putMember, self.
  rewrite (sudoKey_ready _ Hready), Hdoc. reflexivity.
Qed.

(** The staking builder on entries that are not null and whose validators
    have stashes that resolve: three writes land, then the stakers are
    computed. *)
Lemma updateStaking_counts_run (config chainConfig : value) :
  objectAt config (runtime "palletStaking") = true ->
  isNullish chainConfig = false ->
  forallb (fun entry => negb (isNullish entry)) (stakingOf chainConfig) = true ->
  forallb (fun entry => resolves chainConfig (get_prop entry "stash"))
          (filter hasValidatorRole (stakingOf chainConfig)) = true ->
  updateStaking config chainConfig =
    let doc := apply_writes config (firstn 3 (stakingWrites chainConfig)) in
    match mapM (stakerOf keyring keyringSr25519 chainConfig) (stakingOf chainConfig) with
    | Ok stakers =>
        let doc' := update_at doc (runtime "palletStaking") "stakers" (VArr stakers) in
        (Ok doc', doc')
    | Throw ex => (Throw ex, doc)
    end.
Proof.
  intros Hobj Hcc Hnn Hres. destruct (objectAt_evalPath _ _ Hobj) as [pallet Hdoc].
  rewrite forallb_forall in Hnn. rewrite forallb_forall in Hres.
  unfold updateStaking, mbind, member, lift, putMember, self.
  rewrite (getp_defined _ _ Hcc). cbn [rbind]. unfold lodash.filter.
  fold (stakingOf chainConfig).
  rewrite (filterM_ok _ hasValidatorRole).
  2:{ apply Forall_forall. intros e He. apply isValidator_defined.
      apply negb_true_iff. exact (Hnn e He). }
  cbn [rbind].
  rewrite (mapM_ok _ (fun entry => VStr (addressOfName chainConfig (get_prop entry "stash")))).
  2:{ apply Forall_forall. intros e He. apply invulnerableOf_resolves.
      - apply filter_In in He as [He _]. apply negb_true_iff. exact (Hnn e He).
      - exact (Hres e He). }
  fold (invulnerables keyringSr25519 chainConfig (stakingOf chainConfig)).
  set (inv := invulnerables keyringSr25519 chainConfig (stakingOf chainConfig)).
  pose proof (evalPath_update_at config (runtime "palletStaking") "invulnerables"
                (VArr inv) pallet eq_refl Hdoc) as H1.
  pose proof (evalPath_update_at _ (runtime "palletStaking") "validatorCount"
                (lodash.max [2%Z; (lodash.size inv * 2)%Z]) _ eq_refl H1) as H2.
  pose proof (evalPath_update_at _ (runtime "palletStaking") "minimumValidatorCount"
                (VNum (lodash.size inv)) _ eq_refl H2) as H3.
  rewrite Hdoc. cbn [isNullish]. rewrite H1. cbn [isNullish]. rewrite H2. cbn [isNullish].
  rewrite H3. cbn [isNullish].
  assert (Hsize : lodash.size inv = validatorsOf chainConfig).
  { unfold lodash.size, inv, invulnerables, validatorsOf. rewrite length_map. reflexivity. }
  cbn zeta. cbn [lodash.max fold_left]. rewrite Hsize.
  fold (stakingOf chainConfig).
  destruct (mapM (stakerOf keyring keyringSr25519 chainConfig) (stakingOf chainConfig));
    reflexivity.
Qed.

Lemma stakeResolves_parts (chainConfig : value) (entries : list value) :
  forallb (stakeResolves chainConfig) entries = true ->
  forallb (fun entry => negb (isNullish entry)) entries = true /\
  forallb (fun entry => resolves chainConfig (get_prop entry "stash"))
          (filter hasValidatorRole entries) = true.
Proof.
  intros H. rewrite forallb_forall in H. split; apply forallb_forall; intros e He.
  - specialize (H e He). unfold stakeResolves in H.
    apply andb_true_iff in H as [H _]. apply andb_true_iff in H as [H _]. exact H.
  - apply filter_In in He as [He _]. specialize (H e He). unfold stakeResolves in H.
    apply andb_true_iff in H as [H _]. apply andb_true_iff in H as [_ H]. exact H.
Qed.

Lemma updateStaking_run (config chainConfig : value) :
  objectAt config (runtime "palletStaking") = true ->
  isNullish chainConfig = false ->
  forallb (stakeResolves chainConfig) (stakingOf chainConfig) = true ->
  updateStaking config chainConfig =
    (Ok (apply_writes config (stakingWrites chainConfig)),
     apply_writes config (stakingWrites chainConfig)).
Proof.
  intros Hobj Hcc Hres. destruct (stakeResolves_parts _ _ Hres) as [Hnn Hval].
  rewrite (updateStaking_counts_run config chainConfig Hobj Hcc Hnn Hval). cbv zeta.
  rewrite (mapM_ok _ (staker keyringSr25519 chainConfig)).
  - reflexivity.
  - apply Forall_forall. intros e He. apply stakerOf_resolves.
    rewrite forallb_forall in Hres. exact (Hres e He).
Qed.

(** ** Staking, sudo and the resolver: edges *)

Lemma stakingWrites_read_back (config chainConfig : value) (n : nat) :
  objectAt config (runtime "palletStaking") = true ->
  Forall (fun w => ownPath (apply_writes config (firstn n (stakingWrites chainConfig))) (target w)
                   = Some (wvalue w))
         (firstn n (stakingWrites chainConfig)).
Proof.
  intros Hobj.
  apply (writes_read_back (firstn n (stakingWrites chainConfig)) [] config).
  - destruct n as [|[|[|[|n]]]]; cbn [firstn stakingWrites]; rewrite ?firstn_nil; reflexivity.
  - cbn [apply_writes fold_left].
    destruct n as [|[|[|[|n]]]]; cbn [firstn stakingWrites]; rewrite ?firstn_nil;
      cbn [forallb wparent fst]; rewrite ?Hobj; reflexivity.
Qed.

(** X6.  On a skeleton that has [genesis.runtime.palletStaking] and a
    staking collection whose entries are not null and whose validators have
    stashes that resolve, the staking builder leaves in
    [palletStaking.invulnerables] the addresses of the stashes of the
    entries with role Validator, in their order, and of no other entry. *)
Theorem updateStaking_invulnerables (config chainConfig : value) :
  objectAt config (runtime "palletStaking") = true ->
  isNullish chainConfig = false ->
  forallb (fun entry => negb (isNullish entry)) (stakingOf chainConfig) = true ->
  forallb (fun entry => resolves chainConfig (get_prop entry "stash"))
          (filter hasValidatorRole (stakingOf chainConfig)) = true ->
  evalPath (config_after (updateStaking config chainConfig))
           (runtime "palletStaking" ++ ["invulnerables"]) =
    Ok (VArr (map (fun entry => VStr (addressOfName chainConfig (get_prop entry "stash")))
                  (filter hasValidatorRole (stakingOf chainConfig)))).
Proof.
  intros Hobj Hcc Hnn Hres.
  rewrite (updateStaking_counts_run config chainConfig Hobj Hcc Hnn Hres). cbv zeta.
  pose proof (stakingWrites_read_back config chainConfig 3 Hobj) as Hread.
  inversion Hread as [|w ws Hinv _]. subst.
  apply ownPath_evalPath in Hinv.
  destruct (mapM (stakerOf keyring keyringSr25519 chainConfig) (stakingOf chainConfig));
    unfold config_after; cbn [snd].
  - rewrite update_at_frame by reflexivity. exact Hinv.
  - exact Hinv.
Qed.

(** X7.  With no staking entries (no [staking] key, or an empty list) the
    staking builder returns: no invulnerables, a validator count of 2, a
    minimum of 0 and no stakers. *)
Theorem updateStaking_without_entries (config chainConfig : value) :
  objectAt config (runtime "palletStaking") = true ->
  isNullish chainConfig = false ->
  stakingOf chainConfig = [] ->
  let o := updateStaking config chainConfig in
  returned o = Ok (config_after o) /\
  evalPath (config_after o) (runtime "palletStaking" ++ ["invulnerables"]) = Ok (VArr []) /\
  evalPath (config_after o) (runtime "palletStaking" ++ ["validatorCount"]) = Ok (VNum 2) /\
  evalPath (config_after o) (runtime "palletStaking" ++ ["minimumValidatorCount"]) = Ok (VNum 0) /\
  evalPath (config_after o) (runtime "palletStaking" ++ ["stakers"]) = Ok (VArr []).
Proof.
  intros Hobj Hcc Hnone o. subst o.
  rewrite (updateStaking_run config chainConfig Hobj Hcc) by (rewrite Hnone; reflexivity).
  unfold returned, config_after. cbn [fst snd]. split; [reflexivity|].
  pose proof (stakingWrites_read_back config chainConfig 4 Hobj) as Hread.
  cbn [firstn stakingWrites] in Hread.
  unfold validatorsOf in Hread. rewrite Hnone in Hread.
  inversion Hread as [|w1 ws1 H1 Hread1]. subst.
  inversion Hread1 as [|w2 ws2 H2 Hread2]. subst.
  inversion Hread2 as [|w3 ws3 H3 Hread3]. subst.
  inversion Hread3 as [|w4 ws4 H4 _]. subst.
  unfold stakingWrites, validatorsOf. rewrite Hnone.
  repeat split; apply ownPath_evalPath; assumption.
Qed.

Lemma rootKey_read (fields : list (string * value)) (seed : value) :
  lodash.get (VObj (obj_set fields "accountData" (keyBundle keyring keyringSr25519 seed)))
             "accountData.address" VUndefined =
  match own fields "accountData.address" with
  | Some v => v
  | None => VStr (primaryAddress keyringSr25519 seed)
  end.
Proof.
  unfold lodash.get, lodash.castPath.
  cbn [lodash.hasDot Ascii.eqb Bool.eqb orb negb has_prop].
  rewrite (own_obj_set_other fields "accountData" _ "accountData.address" eq_refl).
  destruct (own fields "accountData.address") as [v|] eqn:Hown.
  - unfold lodash.getPath, lodash.baseGet. cbn [isNullish get_prop].
    rewrite (own_obj_set_other fields "accountData" _ "accountData.address" eq_refl), Hown.
    destruct v; reflexivity.
  - cbv [lodash.stringToPath Ascii.eqb Bool.eqb].
    unfold lodash.getPath, lodash.baseGet. cbn [isNullish get_prop].
    rewrite own_obj_set_same. reflexivity.
Qed.


(** X9.  When [sudo_account] names no account (and so when the key is
    missing, the name then being the empty string), the sudo builder throws
    the resolver's [invalid account] string, not [invalid sudo account], and
    leaves the document as it was. *)
Theorem updateSudo_unknown_account (config chainConfig : value) :
  lodash.isEmpty (configured chainConfig (sudoAccountOf chainConfig)) = true ->
  updateSudo config chainConfig =
    (Throw (StringExn (invalidAccount (sudoAccountOf chainConfig))), config) /\
  (get_prop chainConfig "sudo_account" = VUndefined ->
   sudoAccountOf chainConfig = VStr EmptyString).
Proof.
  intros Hempty. split.
  - unfold updateSudo, mbind, lift, sudoKey. fold (sudoAccountOf chainConfig).
    unfold getAccountOrFail. fold (configured chainConfig (sudoAccountOf chainConfig)).
    rewrite Hempty. reflexivity.
  - intros Hmissing. unfold sudoAccountOf, lodash.get, lodash.castPath.
    cbn [lodash.hasDot Ascii.eqb Bool.eqb orb negb].
    unfold lodash.getPath, lodash.baseGet.
    destruct (isNullish chainConfig); [reflexivity|]. rewrite Hmissing. reflexivity.
Qed.

(** X10.  The account the resolver returns for a configured object has
    every field of that object but [accountData], which is the bundle
    derived from the account's seed whatever the configuration put there. *)
Theorem getAccountOrFail_keeps_fields (chainConfig name : value) (fields : list (string * value)) :
  resolves chainConfig name = true ->
  configured chainConfig name = VObj fields ->
  exists account,
    getAccountOrFail keyring keyringSr25519 chainConfig name = Ok account /\
    get_prop account "accountData" =
      keyBundle keyring keyringSr25519 (get_prop (VObj fields) "seed") /\
    (forall k, String.eqb "accountData" k = false ->
               get_prop account k = get_prop (VObj fields) k) /\
    (forall k, has_prop (VObj fields) k = true -> has_prop account k = true).
Proof.
  intros Hres Hacc. eexists. split.
  - rewrite (getAccountOrFail_resolves keyring keyringSr25519 _ _ Hres), Hacc. reflexivity.
  - cbn [spread]. split; [|split].
    + unfold seedOf. rewrite Hacc. cbn [get_prop]. rewrite own_obj_set_same. reflexivity.
    + intros k Hk. apply get_prop_enriched. exact Hk.
    + intros k Hk. cbn [has_prop] in *.
      destruct (String.eqb "accountData" k) eqn:E.
      * apply String.eqb_eq in E. subst k. rewrite own_obj_set_same. reflexivity.
      * rewrite (own_obj_set_other _ _ _ _ E). exact Hk.
Qed.

(** ** When the session guard fires *)

Lemma getp_throws (v : value) (k : string) (ex : exn) :
  getp v k = Throw ex -> ex = TypeError k v.
Proof. unfold getp. destruct (isNullish v); intros H; inversion H. reflexivity. Qed.

Lemma loadKeyFromMemo_returns (memo bundle : value) :
  loadKeyFromMemo keyring keyringSr25519 memo = Ok bundle ->
  derives keyring keyringSr25519 memo = true /\
  bundle = keyBundle keyring keyringSr25519 memo.
Proof.
  unfold loadKeyFromMemo, addFromMnemonic, derives, keyBundle, primaryAddress, edPublicKeyHex.
  destruct (keyring memo); [|discriminate].
  destruct (keyringSr25519 memo); [|discriminate].
  cbn [rbind]. intros H. inversion H. split; reflexivity.
Qed.

Lemma loadKeyFromMemo_throws (memo : value) (ex : exn) :
  loadKeyFromMemo keyring keyringSr25519 memo = Throw ex -> exists reason, ex = KeyringExn reason.
Proof.
  unfold loadKeyFromMemo, addFromMnemonic.
  destruct (keyring memo) as [ed|r]; cbn [rbind].
  - destruct (keyringSr25519 memo) as [sr|r]; cbn [rbind]; intros H; inversion H.
    exists r. reflexivity.
  - intros H. inversion H. exists r. reflexivity.
Qed.

Lemma getAccountOrFail_throws (chainConfig name : value) (ex : exn) :
  getAccountOrFail keyring keyringSr25519 chainConfig name = Throw ex ->
  ex = StringExn (invalidAccount name) \/ exists reason, ex = KeyringExn reason.
Proof.
  unfold getAccountOrFail.
  destruct (lodash.isEmpty _) eqn:He.
  - intros H. inversion H. left. reflexivity.
  - rewrite (getp_defined _ "seed" (isEmpty_false_not_nullish _ He)). cbn [rbind].
    destruct (loadKeyFromMemo keyring keyringSr25519 _) eqn:Hl; cbn [rbind];
      intros H; inversion H. subst. right. exact (loadKeyFromMemo_throws _ _ Hl).
Qed.

Lemma invalidAccount_not_invalidSession (name key account : value) :
  invalidAccount name <> invalidSession key account.
Proof. unfold invalidAccount, invalidSession. cbn [String.append]. discriminate. Qed.

Lemma getp_returns (v x : value) (k : string) :
  getp v k = Ok x -> isNullish v = false /\ x = get_prop v k.
Proof.
  unfold getp. destruct (isNullish v); intros H; inversion H. split; reflexivity.
Qed.

Lemma getAccountOrFail_returns_object (chainConfig name resolved : value) :
  getAccountOrFail keyring keyringSr25519 chainConfig name = Ok resolved ->
  isNullish resolved = false.
Proof.
  unfold getAccountOrFail. destruct (lodash.isEmpty _); [discriminate|].
  destruct (getp _ "seed"); cbn [rbind]; [|discriminate].
  destruct (loadKeyFromMemo keyring keyringSr25519 _); cbn [rbind]; [|discriminate].
  intros H. inversion H. reflexivity.
Qed.

Lemma sessionKeyOf_at_guard (chainConfig node key : value) :
  guardReached keyring keyringSr25519 chainConfig node ->
  sessionKeyOf keyring keyringSr25519 chainConfig node key =
    Throw (StringExn (invalidSession key (get_prop node "account"))).
Proof.
  intros [Hn [resolved [Hres [Hg [Hdg [Hdb Hempty]]]]]].
  unfold sessionKeyOf. rewrite (getp_defined _ _ Hn). cbn [rbind]. rewrite Hres. cbn [rbind].
  rewrite (getp_defined _ _ (getAccountOrFail_returns_object _ _ _ Hres)). cbn [rbind].
  rewrite (getp_defined _ _ Hg). cbn [rbind].
  fold (grandpaSeed resolved). fold (babeSeed resolved).
  rewrite (loadKeyFromMemo_derives keyring keyringSr25519 _ Hdg). cbn [rbind].
  rewrite (loadKeyFromMemo_derives keyring keyringSr25519 _ Hdb). cbn [rbind].
  change (lodash.get (keyBundle keyring keyringSr25519 (grandpaSeed resolved))
                     "address" VUndefined)
    with (VStr (primaryAddress keyringSr25519 (grandpaSeed resolved))).
  change (getp (keyBundle keyring keyringSr25519 (babeSeed resolved)) "address")
    with (Ok (A := value) (VStr (primaryAddress keyringSr25519 (babeSeed resolved)))).
  cbn [rbind lodash.isEmpty].
  destruct Hempty as [-> | ->]; [reflexivity|].
  destruct (primaryAddress keyringSr25519 (grandpaSeed resolved)); reflexivity.
Qed.

(** X11.  The per-node function of the session builder throws a string
    [invalid grandpa/babe config for node: ...] exactly when the guard is
    reached at that node: the node's account resolves, the resolved account
    has a [grandpa], both keyrings accept [account.grandpa.seed] and the
    value of [_.get(account, 'babe.seed')], and one of the two addresses is
    the empty string; the string then names the node's key and its account.
    For an account without [grandpa] it throws the TypeError of
    [account.grandpa.seed] instead, whatever the keyrings. *)
Theorem sessionKeyOf_guard (chainConfig node key : value) :
  ((exists named account,
      sessionKeyOf keyring keyringSr25519 chainConfig node key =
        Throw (StringExn (invalidSession named account)))
   <-> guardReached keyring keyringSr25519 chainConfig node) /\
  (guardReached keyring keyringSr25519 chainConfig node ->
   sessionKeyOf keyring keyringSr25519 chainConfig node key =
     Throw (StringExn (invalidSession key (get_prop node "account")))) /\
  (forall resolved,
     isNullish node = false ->
     getAccountOrFail keyring keyringSr25519 chainConfig (get_prop node "account") = Ok resolved ->
     isNullish (get_prop resolved "grandpa") = true ->
     sessionKeyOf keyring keyringSr25519 chainConfig node key =
       Throw (TypeError "seed" (get_prop resolved "grandpa"))).
Proof.
  split; [split|split].
  - intros [named [account H]]. unfold sessionKeyOf in H.
    destruct (getp node "account") as [nodeAccount|ex] eqn:E1; cbn [rbind] in H.
    2:{ apply getp_throws in E1. congruence. }
    apply getp_returns in E1 as [Hn ->].
    destruct (getAccountOrFail keyring keyringSr25519 chainConfig (get_prop node "account"))
      as [resolved|ex] eqn:E2; cbn [rbind] in H.
    2:{ apply getAccountOrFail_throws in E2 as [->|[r ->]]; [|discriminate].
        exfalso. apply (invalidAccount_not_invalidSession (get_prop node "account") named account).
        congruence. }
    destruct (getp resolved "grandpa") as [grandpaConfig|ex] eqn:E3; cbn [rbind] in H.
    2:{ apply getp_throws in E3. congruence. }
    apply getp_returns in E3 as [_ ->].
    destruct (getp (get_prop resolved "grandpa") "seed") as [gseed|ex] eqn:E4; cbn [rbind] in H.
    2:{ apply getp_throws in E4. congruence. }
    apply getp_returns in E4 as [Hg ->]. fold (grandpaSeed resolved) in H.
    fold (babeSeed resolved) in H.
    destruct (loadKeyFromMemo keyring keyringSr25519 (grandpaSeed resolved))
      as [grandpa|ex] eqn:E5; cbn [rbind] in H.
    2:{ apply loadKeyFromMemo_throws in E5 as [r ->]. discriminate. }
    destruct (loadKeyFromMemo keyring keyringSr25519 (babeSeed resolved))
      as [babe|ex] eqn:E6; cbn [rbind] in H.
    2:{ apply loadKeyFromMemo_throws in E6 as [r ->]. discriminate. }
    apply loadKeyFromMemo_returns in E5 as [Hdg ->].
    apply loadKeyFromMemo_returns in E6 as [Hdb ->].
    split; [exact Hn|]. exists resolved.
    split; [exact E2|]. split; [exact Hg|]. split; [exact Hdg|]. split; [exact Hdb|].
    change (lodash.get (keyBundle keyring keyringSr25519 (grandpaSeed resolved))
                       "address" VUndefined)
      with (VStr (primaryAddress keyringSr25519 (grandpaSeed resolved))) in H.
    change (getp (keyBundle keyring keyringSr25519 (babeSeed resolved)) "address")
      with (Ok (A := value) (VStr (primaryAddress keyringSr25519 (babeSeed resolved)))) in H.
    cbn [rbind lodash.isEmpty] in H.
    destruct (primaryAddress keyringSr25519 (grandpaSeed resolved)) eqn:Eg; [left; reflexivity|].
    destruct (primaryAddress keyringSr25519 (babeSeed resolved)) eqn:Eb; [right; reflexivity|].
    cbn [orb] in H.
    destruct (getp resolved "accountData") as [accountData|ex] eqn:E7; cbn [rbind] in H.
    2:{ apply getp_throws in E7. congruence. }
    destruct (getp accountData "address") as [addr|ex] eqn:E8; cbn [rbind] in H.
    2:{ apply getp_throws in E8. congruence. }
    discriminate.
  - intros Hguard. exists key, (get_prop node "account").
    apply sessionKeyOf_at_guard. exact Hguard.
  - apply sessionKeyOf_at_guard.
  - intros resolved Hn Hres Hg.
    unfold sessionKeyOf. rewrite (getp_defined _ _ Hn). cbn [rbind]. rewrite Hres. cbn [rbind].
    rewrite (getp_defined _ _ (getAccountOrFail_returns_object _ _ _ Hres)). cbn [rbind].
    unfold getp. rewrite Hg. reflexivity.
Qed.

(** ** The shape of a run *)

Lemma forEachModifier_shape modifiers (config chainConfig : value) :
  exists n,
    (n <= List.length modifiers)%nat /\
    fst (forEachModifier modifiers config chainConfig) =
      map LogUpdating (firstn n (map fst modifiers)) /\
    match snd (forEachModifier modifiers config chainConfig) with
    | Ok _ => n = List.length modifiers
    | Throw _ => (1 <= n)%nat
    end.
Proof.
  revert config. induction modifiers as [|[name fn] rest IH]; intros config.
  - exists 0%nat. simpl. auto.
  - cbn [forEachModifier].
    destruct (returned (fn config chainConfig)) as [next|ex].
    + destruct (IH next) as [n [Hn [Hev Hr]]].
      destruct (forEachModifier rest next chainConfig) as [events r].
      cbn [fst snd] in *. exists (S n). simpl. split; [lia|]. split.
      * rewrite Hev. reflexivity.
      * destruct r; lia.
    + exists 1%nat. simpl. split; [lia|]. split; [reflexivity|lia].
Qed.

(** X12.  Whatever the inputs, a run logs the builders of the table in
    order and ends in one of two ways: after all seven, the save line and
    one write of the document; or, after between one and seven of them, one
    error report and no write. *)
Theorem main_trace_shape (config chainConfig : value) :
  (exists doc, main config chainConfig =
                 map LogUpdating tableNames ++ [LogSaving; WriteJson doc]) \/
  (exists n ex, (1 <= n <= 7)%nat /\
                main config chainConfig =
                  map LogUpdating (firstn n tableNames) ++ [reportOf ex]).
Proof.
  destruct (forEachModifier_shape (chainSpecModifiers keyring keyringSr25519) config chainConfig)
    as [n [Hn [Hev Hr]]].
  unfold main.
  destruct (forEachModifier (chainSpecModifiers keyring keyringSr25519) config chainConfig)
    as [events r].
  cbn [fst snd] in *. subst events.
  change (map fst (chainSpecModifiers keyring keyringSr25519)) with tableNames.
  change (List.length (chainSpecModifiers keyring keyringSr25519)) with 7%nat in *.
  destruct r as [doc|ex].
  - left. exists doc. subst n. reflexivity.
  - right. exists n, ex. split; [lia|]. destruct ex; reflexivity.
Qed.

(** ** A whole run *)

Lemma sessionReady_not_null (chainConfig node : value) :
  sessionReady chainConfig node = true -> negb (isNullish node) = true.
Proof.
  unfold sessionReady. cbv zeta. intros H.
  repeat (apply andb_true_iff in H; destruct H as [H _]). exact H.
Qed.

Ltac object_goal :=
  repeat (apply objectAt_update; [reflexivity|]); assumption.

(** On a ready skeleton and a well-formed configuration all seven builders
    return, each handing the next the document with its writes applied. *)
Lemma forEachModifier_generates (config chainConfig : value) :
  skeletonReady config = true ->
  wellConfigured chainConfig = true ->
  forEachModifier (chainSpecModifiers keyring keyringSr25519) config chainConfig =
    (map LogUpdating tableNames, Ok (generated chainConfig config)).
Proof.
  unfold skeletonReady, sections. cbn [forallb]. intros Hsk Hwf.
  repeat (apply andb_true_iff in Hsk; destruct Hsk as [? Hsk]). clear Hsk.
  unfold wellConfigured in Hwf.
  apply andb_true_iff in Hwf as [Hwf Hsudo]. apply andb_true_iff in Hwf as [Hwf Hstake].
  apply andb_true_iff in Hwf as [Hwf Hnodes]. apply andb_true_iff in Hwf as [Hwf Hkeyed].
  apply andb_true_iff in Hwf as [Hcc Hmeta].
  apply negb_true_iff in Hcc. apply negb_true_iff in Hmeta.
  assert (Hnn : forallb (fun vk => negb (isNullish (fst vk)))
                        (lodash.entries (get_prop chainConfig "nodes")) = true).
  { rewrite forallb_forall in Hnodes. apply forallb_forall. intros vk Hin.
    exact (sessionReady_not_null _ _ (Hnodes vk Hin)). }
  match goal with Hx : objectAt config [] = true |- _ =>
    unfold objectAt in Hx; cbn [ownPath] in Hx;
    destruct config as [| | | | | |top] eqn:Hconfig; try discriminate; clear Hx end.
  rewrite <- Hconfig in *.
  unfold chainSpecModifiers. cbn [forEachModifier].
  rewrite (updateBootNodes_run config chainConfig Hcc Hnn). cbn [returned fst].
  replace (VObj (obj_set (spread config) "bootNodes" (bootNodesOf chainConfig)))
    with (update_at config [] "bootNodes" (bootNodesOf chainConfig))
    by (rewrite Hconfig; reflexivity).
  set (d1 := update_at config [] "bootNodes" (bootNodesOf chainConfig)).
  rewrite (updateNaming_run d1 chainConfig Hcc Hmeta). cbn [returned fst].
  replace (VObj (obj_set (obj_set (obj_set (spread d1) "name"
                                           (get_prop (get_prop chainConfig "meta") "name"))
                                  "id" (get_prop (get_prop chainConfig "meta") "id"))
                         "chainType" (get_prop (get_prop chainConfig "meta") "chainType")))
    with (update_at (update_at (update_at d1 [] "name"
                                          (get_prop (get_prop chainConfig "meta") "name"))
                               [] "id" (get_prop (get_prop chainConfig "meta") "id"))
                    [] "chainType" (get_prop (get_prop chainConfig "meta") "chainType"))
    by (unfold d1; rewrite Hconfig; reflexivity).
  set (d2 := update_at (update_at (update_at d1 [] "name" _) [] "id" _) [] "chainType" _).
  rewrite (updateBalances_run d2 chainConfig) by (try assumption; unfold d2, d1; object_goal).
  cbn [returned fst].
  set (d3 := update_at d2 (runtime "palletBalances") "balances" _).
  rewrite (updateTokens_run d3 chainConfig) by (try assumption; unfold d3, d2, d1; object_goal).
  cbn [returned fst].
  set (d4 := update_at d3 (runtime "ormlTokens") "endowedAccounts" _).
  rewrite (updateSession_run d4 chainConfig)
    by (try assumption; unfold d4, d3, d2, d1; object_goal).
  cbn [returned fst].
  set (d5 := update_at d4 (runtime "palletSession") "keys" _).
  rewrite (updateSudo_run d5 chainConfig)
    by (try assumption; unfold d5, d4, d3, d2, d1; object_goal).
  cbn [returned fst].
  set (d6 := update_at d5 ["genesis"; "runtime"] "palletSudo" _).
  rewrite (updateStaking_run d6 chainConfig)
    by (try assumption; unfold d6, d5, d4, d3, d2, d1; object_goal).
  cbn [returned fst]. unfold generated, writesOf. rewrite apply_writes_app.
  match goal with
  | |- context [apply_writes (apply_writes config ?ws) _] =>
      change (apply_writes config ws) with d6
  end.
  reflexivity.
Qed.

Lemma generated_reads_back (config chainConfig : value) :
  skeletonReady config = true ->
  Forall (fun w => ownPath (generated chainConfig config) (target w) = Some (wvalue w))
         (writesOf chainConfig).
Proof.
  unfold skeletonReady, sections. cbn [forallb]. intros Hsk.
  repeat (apply andb_true_iff in Hsk; destruct Hsk as [? Hsk]). clear Hsk.
  apply (writes_read_back (writesOf chainConfig) [] config).
  - reflexivity.
  - cbn [apply_writes fold_left].
    unfold writesOf, stakingWrites.
    cbn [app forallb wparent fst].
    repeat match goal with Hx : objectAt config _ = true |- _ => rewrite Hx; clear Hx end.
    reflexivity.
Qed.

Lemma generated_ready (config chainConfig : value) :
  skeletonReady config = true -> skeletonReady (generated chainConfig config) = true.
Proof.
  unfold skeletonReady. intros Hsk. rewrite forallb_forall in *. intros q Hq.
  apply objectAt_writes; [|exact (Hsk q Hq)].
  unfold sections in Hq. cbn [In] in Hq.
  repeat (destruct Hq as [<-|Hq]; [reflexivity|]). destruct Hq.
Qed.



Lemma mapM_throws {A B} (f : A -> result B) (g : A -> B) (before after : list A) (x : A) ex :
  Forall (fun a => f a = Ok (g a)) before -> f x = Throw ex ->
  mapM f (before ++ x :: after) = Throw ex.
Proof.
  induction 1 as [|a before Ha _ IH]; intros Hx; simpl.
  - rewrite Hx. reflexivity.
  - rewrite Ha. cbn [rbind]. rewrite (IH Hx). reflexivity.
Qed.

(** X17.  A validator entry whose stash names no account, after validators
    whose stashes resolve: the staking builder throws the resolver's string
    for that stash before it has assigned anything, so the document is as it
    was (unlike a bad controller, which is met after the counts are
    written). *)
Theorem updateStaking_unknown_validator_stash (config chainConfig entry : value)
    (before after : list value) :
  isNullish chainConfig = false ->
  forallb (fun e => negb (isNullish e)) (stakingOf chainConfig) = true ->
  filter hasValidatorRole (stakingOf chainConfig) = before ++ entry :: after ->
  forallb (fun e => resolves chainConfig (get_prop e "stash")) before = true ->
  lodash.isEmpty (configured chainConfig (get_prop entry "stash")) = true ->
  updateStaking config chainConfig =
    (Throw (StringExn (invalidAccount (get_prop entry "stash"))), config).
Proof.
  intros Hcc Hnn Hval Hbefore Hstash.
  rewrite forallb_forall in Hnn. rewrite forallb_forall in Hbefore.
  assert (Hin : forall e, In e (before ++ entry :: after) -> isNullish e = false).
  { intros e He. rewrite <- Hval in He. apply filter_In in He as [He _].
    apply negb_true_iff. exact (Hnn e He). }
  unfold updateStaking, mbind, lift.
  rewrite (getp_defined _ _ Hcc). cbn [rbind]. unfold lodash.filter.
  fold (stakingOf chainConfig).
  rewrite (filterM_ok _ hasValidatorRole).
  2:{ apply Forall_forall. intros e He. apply isValidator_defined.
      apply negb_true_iff. exact (Hnn e He). }
  cbn [rbind]. rewrite Hval.
  rewrite (mapM_throws _ (fun e => VStr (addressOfName chainConfig (get_prop e "stash")))
             before after entry (StringExn (invalidAccount (get_prop entry "stash")))).
  - reflexivity.
  - apply Forall_forall. intros e He. apply invulnerableOf_resolves.
    + apply Hin. apply in_or_app. left. exact He.
    + exact (Hbefore e He).
  - unfold invulnerableOf.
    rewrite (getp_defined _ _ (Hin entry (in_elt entry before after))).
    cbn [rbind]. unfold addressOf, getAccountOrFail.
    fold (configured chainConfig (get_prop entry "stash")). rewrite Hstash. reflexivity.
Qed.

End Runs.

(** * Beyond the claims: the earlier revision *)

Section EarlierRevision.

Variables keyring keyringSr25519 : Keyring.

Local Notation keyed := (keyed keyring keyringSr25519).
Local Notation resolves := (resolves keyring keyringSr25519).
Local Notation sessionReady := (sessionReady keyring keyringSr25519).
Local Notation stakeResolves := (stakeResolves keyring keyringSr25519).
Local Notation addressOfName := (addressOfName keyringSr25519).
Local Notation addressedName := (addressedName keyringSr25519).
Local Notation consistent := (consistent keyringSr25519).
Local Notation balancesOf := (balancesOf keyringSr25519).
Local Notation endowedOf := (endowedOf keyringSr25519).
Local Notation sessionKeysOf := (sessionKeysOf keyringSr25519).
Local Notation sudoOf := (sudoOf keyringSr25519).
Local Notation stakingWrites := (stakingWrites keyringSr25519).
Local Notation writesOf := (writesOf keyringSr25519).
Local Notation generated := (generated keyringSr25519).
Local Notation sudoReady := (sudoReady keyring keyringSr25519).
Local Notation wellConfigured := (wellConfigured keyring keyringSr25519).
Local Notation main := (main keyring keyringSr25519).

Lemma earlier_getAccountOrFail_found (chainConfig name : value) :
  lodash.isEmpty (configured chainConfig name) = false ->
  Earlier.getAccountOrFail chainConfig name = Ok (configured chainConfig name).
Proof.
  intros H. unfold Earlier.getAccountOrFail. fold (configured chainConfig name).
  rewrite H. reflexivity.
Qed.

(** X15.  In the earlier revision a node whose account exists but has no
    grandpa address or no babe address makes the session builder throw the
    string that names the node and the account, and the document is left as
    it was: there the guard is reached by a missing sub-account. *)
Theorem earlier_updateSession_incomplete (config chainConfig base nodes node key : value)
    (rest : list (value * value)) :
  evalPath config (runtime "palletSession") = Ok base ->
  getp chainConfig "nodes" = Ok nodes ->
  lodash.entries nodes = (node, key) :: rest ->
  isNullish node = false ->
  let account := configured chainConfig (get_prop node "account") in
  lodash.isEmpty account = false ->
  lodash.isEmpty (lodash.get account "grandpa.address" VUndefined)
  || lodash.isEmpty (lodash.get account "babe.address" VUndefined) = true ->
  Earlier.updateSession config chainConfig =
    (Throw (StringExn (invalidSession key (get_prop node "account"))), config).
Proof.
  intros Hdoc Hnodes Hent Hn account Hacc Hmissing.
  unfold Earlier.updateSession, mbind, member, lift.
  rewrite Hdoc, Hnodes. cbn [rbind]. unfold lodash.map. rewrite Hent. cbn [mapM fst snd].
  unfold Earlier.sessionKeyOf. rewrite (getp_defined _ _ Hn). cbn [rbind].
  rewrite (earlier_getAccountOrFail_found _ _ Hacc). cbn [rbind].
  fold account. rewrite Hmissing. reflexivity.
Qed.

(** ** The earlier builders on a consistent configuration *)

Lemma earlier_balanceOf_addressed (account name : value) :
  isNullish account = false ->
  get_prop account "address" = VStr (primaryAddress keyringSr25519 (get_prop account "seed")) ->
  Earlier.balanceOf account name = Ok (balancePair keyringSr25519 account).
Proof.
  intros Hn Ha. unfold Earlier.balanceOf. rewrite !(getp_defined _ _ Hn). cbn [rbind].
  rewrite Ha. reflexivity.
Qed.

Lemma earlier_tokensOf_addressed (account name : value) :
  isNullish account = false ->
  get_prop account "address" = VStr (primaryAddress keyringSr25519 (get_prop account "seed")) ->
  Earlier.tokensOf account name = Ok (VArr (tokenTriples keyringSr25519 account)).
Proof.
  intros Hn Ha. unfold Earlier.tokensOf. rewrite (getp_defined _ _ Hn). cbn [rbind].
  unfold lodash.map.
  rewrite (mapM_ok _ (fun an => VArr [VStr (primaryAddress keyringSr25519 (get_prop account "seed"));
                                      snd an; fst an])).
  - reflexivity.
  - apply Forall_forall. intros an _. rewrite (getp_defined _ _ Hn). cbn [rbind].
    rewrite Ha. reflexivity.
Qed.

Lemma keyed_not_null (account : value) : keyed account = true -> isNullish account = false.
Proof.
  unfold keyed. intros H. apply andb_true_iff in H as [H _].
  apply negb_true_iff. exact H.
Qed.

Lemma earlier_updateBalances_run (config chainConfig : value) :
  objectAt config (runtime "palletBalances") = true ->
  isNullish chainConfig = false ->
  forallb (fun vk => keyed (fst vk)) (lodash.entries (get_prop chainConfig "accounts")) = true ->
  consistent chainConfig ->
  Earlier.updateBalances config chainConfig =
    (Ok VUndefined,
     update_at config (runtime "palletBalances") "balances" (balancesOf chainConfig)).
Proof.
  intros Hobj Hcc Hkeyed [Hadr _]. destruct (objectAt_evalPath _ _ Hobj) as [pallet Hdoc].
  unfold Earlier.updateBalances, mbind, member, lift, putMember, mret.
  rewrite Hdoc, (getp_defined _ _ Hcc). cbn [rbind isNullish]. unfold lodash.map.
  rewrite (mapM_ok _ (fun vk => balancePair keyringSr25519 (fst vk))).
  - reflexivity.
  - rewrite Forall_forall in *. rewrite forallb_forall in Hkeyed. intros vk Hin.
    apply earlier_balanceOf_addressed; [apply keyed_not_null; exact (Hkeyed vk Hin)|].
    exact (Hadr vk Hin).
Qed.

Lemma earlier_updateTokens_run (config chainConfig : value) :
  objectAt config (runtime "ormlTokens") = true ->
  isNullish chainConfig = false ->
  forallb (fun vk => keyed (fst vk)) (lodash.entries (get_prop chainConfig "accounts")) = true ->
  consistent chainConfig ->
  Earlier.updateTokens config chainConfig =
    (Ok VUndefined,
     update_at config (runtime "ormlTokens") "endowedAccounts" (endowedOf chainConfig)).
Proof.
  intros Hobj Hcc Hkeyed [Hadr _]. destruct (objectAt_evalPath _ _ Hobj) as [pallet Hdoc].
  unfold Earlier.updateTokens, mbind, member, lift, putMember, mret.
  rewrite Hdoc, (getp_defined _ _ Hcc). cbn [rbind isNullish]. unfold lodash.map.
  rewrite (mapM_ok _ (fun vk => VArr (tokenTriples keyringSr25519 (fst vk)))).
  - cbn [rbind].
    rewrite <- (map_map (fun vk => tokenTriples keyringSr25519 (fst vk)) VArr).
    rewrite flatten_arrays, <- flat_map_concat_map. reflexivity.
  - rewrite Forall_forall in *. rewrite forallb_forall in Hkeyed. intros vk Hin.
    apply earlier_tokensOf_addressed; [apply keyed_not_null; exact (Hkeyed vk Hin)|].
    exact (Hadr vk Hin).
Qed.

Lemma resolves_not_empty (chainConfig name : value) :
  resolves chainConfig name = true -> lodash.isEmpty (configured chainConfig name) = false.
Proof.
  unfold resolves. intros H. apply andb_true_iff in H as [H _].
  apply negb_true_iff. exact H.
Qed.

Lemma earlier_addressOf_addressed (chainConfig name : value) :
  resolves chainConfig name = true -> addressedName chainConfig name ->
  Earlier.addressOf chainConfig name = Ok (VStr (addressOfName chainConfig name)).
Proof.
  intros Hr Ha. unfold Earlier.addressOf.
  rewrite (earlier_getAccountOrFail_found _ _ (resolves_not_empty _ _ Hr)). cbn [rbind].
  rewrite (getp_defined _ _ (isEmpty_false_not_nullish _ (resolves_not_empty _ _ Hr))).
  rewrite Ha. reflexivity.
Qed.

Lemma earlier_sessionKeyOf_ready (chainConfig node key : value) :
  sessionReady chainConfig node = true ->
  (let account := configured chainConfig (get_prop node "account") in
   addressedName chainConfig (get_prop node "account") /\
   lodash.get account "grandpa.address" VUndefined =
     VStr (primaryAddress keyringSr25519 (grandpaSeed account)) /\
   lodash.get account "babe.address" VUndefined =
     VStr (primaryAddress keyringSr25519 (babeSeed account))) ->
  Earlier.sessionKeyOf chainConfig node key = Ok (sessionTriple keyringSr25519 chainConfig node).
Proof.
  unfold sessionReady. cbv zeta. intros H [Ha [Hg Hb]].
  repeat (apply andb_true_iff in H; destruct H as [H ?]).
  apply negb_true_iff in H.
  repeat match goal with Hx : negb _ = true |- _ => apply negb_true_iff in Hx end.
  unfold Earlier.sessionKeyOf. rewrite (getp_defined _ _ H). cbn [rbind].
  match goal with Hr : resolves _ _ = true |- _ =>
    rewrite (earlier_getAccountOrFail_found _ _ (resolves_not_empty _ _ Hr)); cbn [rbind];
    rewrite (getp_defined _ "address"
               (isEmpty_false_not_nullish _ (resolves_not_empty _ _ Hr))) end.
  rewrite Hg, Hb. cbn [lodash.isEmpty].
  destruct (primaryAddress keyringSr25519
              (grandpaSeed (configured chainConfig (get_prop node "account")))) eqn:Eg;
    [discriminate|].
  destruct (primaryAddress keyringSr25519
              (babeSeed (configured chainConfig (get_prop node "account")))) eqn:Eb;
    [discriminate|].
  cbn [orb rbind]. rewrite Ha. unfold sessionTriple. cbv zeta. rewrite Eg, Eb. reflexivity.
Qed.

Lemma earlier_updateSession_run (config chainConfig : value) :
  objectAt config (runtime "palletSession") = true ->
  isNullish chainConfig = false ->
  forallb (fun vk => sessionReady chainConfig (fst vk))
          (lodash.entries (get_prop chainConfig "nodes")) = true ->
  consistent chainConfig ->
  Earlier.updateSession config chainConfig =
    (Ok VUndefined,
     update_at config (runtime "palletSession") "keys" (sessionKeysOf chainConfig)).
Proof.
  intros Hobj Hcc Hready [_ [Hadr _]]. destruct (objectAt_evalPath _ _ Hobj) as [pallet Hdoc].
  unfold Earlier.updateSession, mbind, member, lift, putMember, mret.
  rewrite Hdoc, (getp_defined _ _ Hcc). cbn [rbind isNullish]. unfold lodash.map.
  rewrite (mapM_ok _ (fun vk => sessionTriple keyringSr25519 chainConfig (fst vk))).
  - reflexivity.
  - rewrite Forall_forall in *. rewrite forallb_forall in Hready. intros vk Hin.
    apply earlier_sessionKeyOf_ready; [exact (Hready vk Hin) | exact (Hadr vk Hin)].
Qed.

Lemma earlier_updateSudo_run (config chainConfig : value) :
  objectAt config ["genesis"; "runtime"] = true ->
  sudoReady chainConfig = true ->
  consistent chainConfig ->
  Earlier.updateSudo config chainConfig =
    (Ok VUndefined, update_at config ["genesis"; "runtime"] "palletSudo" (sudoOf chainConfig)).
Proof.
  intros Hobj Hready [_ [_ [_ Hadr]]]. destruct (objectAt_evalPath _ _ Hobj) as [rt Hdoc].
  unfold sudoReady in Hready. cbv zeta in Hready.
  apply andb_true_iff in Hready as [Hready Haddr]. apply andb_true_iff in Hready as [Hres _].
  apply negb_true_iff in Haddr.
  unfold Earlier.updateSudo, mbind, member, lift, putMember, mret, Earlier.sudoKey.
  fold (sudoAccountOf chainConfig).
  rewrite (earlier_getAccountOrFail_found _ _ (resolves_not_empty _ _ Hres)). cbn [rbind].
  unfold lodash.get, lodash.castPath. cbn [lodash.hasDot Ascii.eqb Bool.eqb orb negb].
  unfold lodash.getPath, lodash.baseGet.
  rewrite (isEmpty_false_not_nullish _ (resolves_not_empty _ _ Hres)).
  unfold addressedName in Hadr. rewrite Hadr. cbn [lodash.isEmpty].
  destruct (addressOfName chainConfig (sudoAccountOf chainConfig)) eqn:E; [discriminate|].
  rewrite Hdoc. cbn [isNullish]. unfold sudoOf. rewrite E. reflexivity.
Qed.

Lemma earlier_updateStaking_run (config chainConfig : value) :
  objectAt config (runtime "palletStaking") = true ->
  isNullish chainConfig = false ->
  forallb (stakeResolves chainConfig) (stakingOf chainConfig) = true ->
  consistent chainConfig ->
  Earlier.updateStaking config chainConfig =
    (Ok VUndefined, apply_writes config (stakingWrites chainConfig)).
Proof.
  intros Hobj Hcc Hres [_ [_ [Hadr _]]]. destruct (objectAt_evalPath _ _ Hobj) as [pallet Hdoc].
  rewrite forallb_forall in Hres. rewrite Forall_forall in Hadr.
  assert (Hparts : forall e, In e (stakingOf chainConfig) ->
            isNullish e = false /\ resolves chainConfig (get_prop e "stash") = true /\
            resolves chainConfig (get_prop e "controller") = true).
  { intros e He. specialize (Hres e He). unfold stakeResolves in Hres.
    apply andb_true_iff in Hres as [H Hc]. apply andb_true_iff in H as [Hn Hs].
    apply negb_true_iff in Hn. auto. }
  unfold Earlier.updateStaking, mbind, member, lift, putMember, mret.
  rewrite (getp_defined _ _ Hcc). cbn [rbind]. unfold lodash.filter.
  fold (stakingOf chainConfig).
  rewrite (filterM_ok _ hasValidatorRole).
  2:{ apply Forall_forall. intros e He. apply isValidator_defined. apply (Hparts e He). }
  cbn [rbind].
  rewrite (mapM_ok _ (fun entry => VStr (addressOfName chainConfig (get_prop entry "stash")))).
  2:{ apply Forall_forall. intros e He. apply filter_In in He as [He _].
      unfold Earlier.invulnerableOf. rewrite (getp_defined _ _ (proj1 (Hparts e He))).
      cbn [rbind]. apply earlier_addressOf_addressed; [apply (Hparts e He)|apply (Hadr e He)]. }
  fold (invulnerables keyringSr25519 chainConfig (stakingOf chainConfig)).
  set (inv := invulnerables keyringSr25519 chainConfig (stakingOf chainConfig)).
  pose proof (evalPath_update_at config (runtime "palletStaking") "invulnerables"
                (VArr inv) pallet eq_refl Hdoc) as H1.
  pose proof (evalPath_update_at _ (runtime "palletStaking") "validatorCount"
                (lodash.max [2%Z; (lodash.size inv * 2)%Z]) _ eq_refl H1) as H2.
  pose proof (evalPath_update_at _ (runtime "palletStaking") "minimumValidatorCount"
                (VNum (lodash.size inv)) _ eq_refl H2) as H3.
  rewrite Hdoc. cbn [isNullish]. rewrite H1. cbn [isNullish]. rewrite H2. cbn [isNullish].
  rewrite H3. cbn [isNullish].
  assert (Hsize : lodash.size inv = validatorsOf chainConfig).
  { unfold lodash.size, inv, invulnerables, validatorsOf. rewrite length_map. reflexivity. }
  cbn [lodash.max fold_left]. rewrite Hsize. fold (stakingOf chainConfig).
  rewrite (mapM_ok _ (staker keyringSr25519 chainConfig)).
  - reflexivity.
  - apply Forall_forall. intros e He. destruct (Hparts e He) as [Hn [Hs Hc]].
    destruct (Hadr e He) as [Has Hac].
    unfold Earlier.stakerOf. rewrite !(getp_defined _ _ Hn). cbn [rbind].
    rewrite (earlier_addressOf_addressed _ _ Hs Has). cbn [rbind].
    rewrite (earlier_addressOf_addressed _ _ Hc Hac). reflexivity.
Qed.

(** ** The two revisions side by side *)

Lemma earlier_forEachModifier_generates (config chainConfig : value) :
  skeletonReady config = true ->
  wellConfigured chainConfig = true ->
  consistent chainConfig ->
  Earlier.forEachModifier Earlier.chainSpecModifiers config chainConfig =
    (map LogUpdating Earlier.tableNames,
     Ok (apply_writes config (skipn 4 (writesOf chainConfig)))).
Proof.
  unfold skeletonReady, sections. cbn [forallb]. intros Hsk Hwf Hcons.
  repeat (apply andb_true_iff in Hsk; destruct Hsk as [? Hsk]). clear Hsk.
  unfold wellConfigured in Hwf.
  apply andb_true_iff in Hwf as [Hwf Hsudo]. apply andb_true_iff in Hwf as [Hwf Hstake].
  apply andb_true_iff in Hwf as [Hwf Hnodes]. apply andb_true_iff in Hwf as [Hwf Hkeyed].
  apply andb_true_iff in Hwf as [Hcc Hmeta].
  apply negb_true_iff in Hcc.
  unfold Earlier.chainSpecModifiers. cbn [Earlier.forEachModifier].
  rewrite (earlier_updateBalances_run config chainConfig) by assumption.
  cbn [returned config_after fst snd].
  set (d3 := update_at config (runtime "palletBalances") "balances" _).
  rewrite (earlier_updateTokens_run d3 chainConfig)
    by (try assumption; unfold d3; repeat (apply objectAt_update; [reflexivity|]); assumption).
  cbn [returned config_after fst snd].
  set (d4 := update_at d3 (runtime "ormlTokens") "endowedAccounts" _).
  rewrite (earlier_updateSession_run d4 chainConfig)
    by (try assumption; unfold d4, d3;
        repeat (apply objectAt_update; [reflexivity|]); assumption).
  cbn [returned config_after fst snd].
  set (d5 := update_at d4 (runtime "palletSession") "keys" _).
  rewrite (earlier_updateSudo_run d5 chainConfig)
    by (try assumption; unfold d5, d4, d3;
        repeat (apply objectAt_update; [reflexivity|]); assumption).
  cbn [returned config_after fst snd].
  set (d6 := update_at d5 ["genesis"; "runtime"] "palletSudo" _).
  rewrite (earlier_updateStaking_run d6 chainConfig)
    by (try assumption; unfold d6, d5, d4, d3;
        repeat (apply objectAt_update; [reflexivity|]); assumption).
  cbn [returned config_after fst snd].
  unfold writesOf. cbn [skipn app].
  match goal with
  | |- context [apply_writes config (?w1 :: ?w2 :: ?w3 :: ?w4 :: ?rest)] =>
      change (w1 :: w2 :: w3 :: w4 :: rest) with ([w1; w2; w3; w4] ++ rest)
  end.
  rewrite apply_writes_app.
  match goal with
  | |- context [apply_writes (apply_writes config ?ws) _] =>
      change (apply_writes config ws) with d6
  end.
  reflexivity.
Qed.

(** Writes below [genesis] see of the document only its [genesis]. *)
Lemma genesis_writes (ws : list write) (doc doc' : value) :
  forallb (fun w => match wparent w with
                    | k :: _ => String.eqb k "genesis"
                    | [] => false
                    end) ws = true ->
  isObject doc = true -> isObject doc' = true ->
  ownPath doc ["genesis"] = ownPath doc' ["genesis"] ->
  isObject (apply_writes doc ws) = true /\ isObject (apply_writes doc' ws) = true /\
  ownPath (apply_writes doc ws) ["genesis"] = ownPath (apply_writes doc' ws) ["genesis"].
Proof.
  revert doc doc'. induction ws as [|[[path k] v] ws IH]; intros doc doc' Hws Ho Ho' Hg.
  - auto.
  - simpl in Hws. apply andb_true_iff in Hws as [Hw Hws].
    destruct path as [|p rest]; [discriminate|]. apply String.eqb_eq in Hw. subst p.
    cbn [apply_writes fold_left]. unfold apply_write at 2 4.
    cbn [wparent wfield wvalue fst snd].
    fold (apply_writes (update_at doc ("genesis" :: rest) k v) ws).
    fold (apply_writes (update_at doc' ("genesis" :: rest) k v) ws).
    destruct doc as [| | | | | |top]; try discriminate.
    destruct doc' as [| | | | | |top']; try discriminate.
    cbn [ownPath] in Hg. apply IH; try assumption.
    + cbn [update_at]. destruct (own top "genesis"); reflexivity.
    + cbn [update_at]. destruct (own top' "genesis"); reflexivity.
    + cbn [update_at].
      destruct (own top "genesis") as [c|] eqn:E; destruct (own top' "genesis") as [c'|] eqn:E';
        try discriminate; cbn [ownPath].
      * rewrite !own_obj_set_same. congruence.
      * rewrite E, E'. reflexivity.
Qed.

Lemma evalPath_genesis (doc doc' : value) (q : list string) :
  isObject doc = true -> isObject doc' = true ->
  ownPath doc ["genesis"] = ownPath doc' ["genesis"] ->
  evalPath doc ("genesis" :: q) = evalPath doc' ("genesis" :: q).
Proof.
  intros Ho Ho' Hg.
  destruct doc as [| | | | | |top]; try discriminate.
  destruct doc' as [| | | | | |top']; try discriminate.
  cbn [ownPath] in Hg. cbn [evalPath]. unfold getp. cbn [isNullish get_prop rbind].
  destruct (own top "genesis"); destruct (own top' "genesis"); congruence.
Qed.


End EarlierRevision.

(** * The further theorems at the sample inputs *)

Lemma updateBootNodes_multiaddresses_sample :
  isObject Sample.skeleton = true /\
  isNullish Sample.chainConfig = false /\
  (let o := updateBootNodes Sample.skeleton Sample.chainConfig in
   config_after o = Sample.skeleton /\
   exists doc,
     returned o = Ok doc /\
     evalPath doc ["bootNodes"] = Ok (VArr [VStr "/dns/n1.example.org/tcp/30334/p2p/QmNode1"]) /\
     (forall q, diverge ["bootNodes"] q = true -> evalPath doc q = evalPath Sample.skeleton q)).
Proof.
  split; [reflexivity|]. split; [reflexivity|].
  apply (updateBootNodes_multiaddresses Sample.skeleton Sample.chainConfig); reflexivity.
Defined.

Lemma updateNaming_copies_meta_sample :
  isNullish (get_prop Sample.chainConfig "meta") = false /\
  (let o := updateNaming Sample.skeleton Sample.chainConfig in
   config_after o = Sample.skeleton /\
   exists doc,
     returned o = Ok doc /\
     evalPath doc ["name"] = Ok (VStr "Local") /\
     evalPath doc ["id"] = Ok (VStr "local") /\
     evalPath doc ["chainType"] = Ok (VStr "Local") /\
     (forall q, diverge ["name"] q = true -> diverge ["id"] q = true ->
                diverge ["chainType"] q = true ->
                evalPath doc q = evalPath Sample.skeleton q)).
Proof.
  split; [reflexivity|].
  apply (updateNaming_copies_meta Sample.skeleton Sample.chainConfig); reflexivity.
Defined.

(** The staking builder on the entry whose controller is no account: it
    throws, and [stakers] is what the skeleton had. *)
Lemma updateStaking_frame_sample :
  let chainConfig :=
    Sample.chain [("alice", Sample.alice); ("bob", Sample.bob)] [] [Sample.dangling] in
  let o := updateStaking Sample.ed25519 Sample.sr25519 Sample.skeleton chainConfig in
  returned o = Throw (StringExn (invalidAccount (VStr "carol"))) /\
  evalPath (config_after o) (runtime "palletStaking" ++ ["stakers"]) =
    evalPath Sample.skeleton (runtime "palletStaking" ++ ["stakers"]).
Proof.
  intros chainConfig o. split; [reflexivity|].
  apply (updateStaking_frame Sample.ed25519 Sample.sr25519 Sample.skeleton chainConfig
           (runtime "palletStaking" ++ ["stakers"]) eq_refl eq_refl eq_refl).
  right. eexists. reflexivity.
Defined.

Lemma updateStaking_invulnerables_sample :
  let chainConfig :=
    Sample.chain [("alice", Sample.alice); ("bob", Sample.bob)] []
                 [Sample.stake3; Sample.stake2; Sample.stake1] in
  objectAt Sample.skeleton (runtime "palletStaking") = true /\
  forallb (fun entry => resolves Sample.ed25519 Sample.sr25519 chainConfig (get_prop entry "stash"))
          (filter hasValidatorRole (stakingOf chainConfig)) = true /\
  evalPath (config_after (updateStaking Sample.ed25519 Sample.sr25519 Sample.skeleton chainConfig))
           (runtime "palletStaking" ++ ["invulnerables"]) =
    Ok (VArr [VStr "5B"; VStr "5A"]).
Proof.
  intros chainConfig. split; [reflexivity|]. split; [reflexivity|].
  apply (updateStaking_invulnerables Sample.ed25519 Sample.sr25519 Sample.skeleton chainConfig);
    reflexivity.
Defined.

Lemma updateStaking_without_entries_sample :
  get_prop Sample.bare "staking" = VUndefined /\
  stakingOf Sample.bare = [] /\
  (let o := updateStaking Sample.ed25519 Sample.sr25519 Sample.skeleton Sample.bare in
   returned o = Ok (config_after o) /\
   evalPath (config_after o) (runtime "palletStaking" ++ ["invulnerables"]) = Ok (VArr []) /\
   evalPath (config_after o) (runtime "palletStaking" ++ ["validatorCount"]) = Ok (VNum 2) /\
   evalPath (config_after o) (runtime "palletStaking" ++ ["minimumValidatorCount"]) = Ok (VNum 0) /\
   evalPath (config_after o) (runtime "palletStaking" ++ ["stakers"]) = Ok (VArr [])).
Proof.
  split; [reflexivity|]. split; [reflexivity|].
  apply (updateStaking_without_entries Sample.ed25519 Sample.sr25519 Sample.skeleton Sample.bare);
    reflexivity.
Defined.


(** A sudo account with a property literally named [accountData.address]:
    its value is the key, not the address of the seed. *)
Lemma updateSudo_key_literal :
  let chainConfig := Sample.chain [("alice", Sample.dotted)] [] [] in
  let o := updateSudo Sample.ed25519 Sample.sr25519 Sample.skeleton chainConfig in
  primaryAddress Sample.sr25519 (VStr "A") = "5A"%string /\
  returned o = Ok (config_after o) /\
  evalPath (config_after o) (runtime "palletSudo" ++ ["key"]) = Ok (VStr "zzz").
Proof.
  intros chainConfig o. repeat split.
Qed.

(** A sudo account whose [accountData.address] property is the empty
    string: here, and only on this path, the builder's own message. *)
Lemma updateSudo_key_empty :
  updateSudo Sample.ed25519 Sample.sr25519 Sample.skeleton
             (Sample.chain [("alice", VObj [("seed", VStr "A");
                                            ("accountData.address", VStr EmptyString)])] [] []) =
    (Throw (StringExn (invalidSudo (VStr "alice"))), Sample.skeleton).
Proof. reflexivity. Qed.

(** No [sudo_account] in the configuration: the name is the empty string. *)
Lemma updateSudo_unknown_account_sample :
  get_prop Sample.bare "sudo_account" = VUndefined /\
  updateSudo Sample.ed25519 Sample.sr25519 Sample.skeleton Sample.bare =
    (Throw (StringExn (invalidAccount (VStr EmptyString))), Sample.skeleton) /\
  (get_prop Sample.bare "sudo_account" = VUndefined ->
   sudoAccountOf Sample.bare = VStr EmptyString).
Proof.
  split; [reflexivity|].
  apply (updateSudo_unknown_account Sample.ed25519 Sample.sr25519 Sample.skeleton Sample.bare).
  reflexivity.
Defined.

Lemma getAccountOrFail_keeps_fields_sample :
  resolves Sample.ed25519 Sample.sr25519 Sample.chainConfig (VStr "bob") = true /\
  exists account,
    getAccountOrFail Sample.ed25519 Sample.sr25519 Sample.chainConfig (VStr "bob") = Ok account /\
    get_prop account "accountData" = keyBundle Sample.ed25519 Sample.sr25519 (VStr "B") /\
    (forall k, String.eqb "accountData" k = false ->
               get_prop account k = get_prop Sample.bob k) /\
    (forall k, has_prop Sample.bob k = true -> has_prop account k = true).
Proof.
  split; [reflexivity|].
  apply (getAccountOrFail_keeps_fields Sample.ed25519 Sample.sr25519 Sample.chainConfig
           (VStr "bob") [("seed", VStr "B"); ("balance", VNum 500);
                         ("tokens", VObj [("DOT", VNum 1)])]); reflexivity.
Defined.

(** The guard at work: a keyring that gives the babe seed an empty address. *)
Lemma sessionKeyOf_guard_sample :
  let chainConfig := Sample.chain [("alice", Sample.ghost)] [("node1", Sample.node1)] [] in
  guardReached Sample.ed25519 Sample.sr25519_blank chainConfig Sample.node1 /\
  sessionKeyOf Sample.ed25519 Sample.sr25519_blank chainConfig Sample.node1 (VStr "node1") =
    Throw (StringExn (invalidSession (VStr "node1") (VStr "alice"))).
Proof.
  intros chainConfig.
  assert (Hguard : guardReached Sample.ed25519 Sample.sr25519_blank chainConfig Sample.node1).
  { split; [reflexivity|]. eexists. split; [reflexivity|].
    split; [reflexivity|]. split; [reflexivity|]. split; [reflexivity|].
    right. reflexivity. }
  split; [exact Hguard|].
  exact (proj1 (proj2 (sessionKeyOf_guard Sample.ed25519 Sample.sr25519_blank chainConfig
                         Sample.node1 (VStr "node1"))) Hguard).
Defined.

(** With the sample keyrings, whose addresses are never empty, the guard is
    not reached at the account without sub-accounts. *)
Lemma guard_not_reached_without_grandpa :
  ~ guardReached Sample.ed25519 Sample.sr25519
      (Sample.chain [("alice", Sample.plain)] [("node1", Sample.node1)] []) Sample.node1.
Proof.
  intros [_ [resolved [Hres [Hg _]]]]. vm_compute in Hres. inversion Hres. subst resolved.
  vm_compute in Hg. discriminate.
Qed.



(** The account of the later revision's failing input, in the earlier
    revision: the guard's string, naming node1 and alice. *)
Lemma earlier_updateSession_incomplete_sample :
  let chainConfig :=
    Sample.chain [("alice", VObj [("address", VStr "5A"); ("balance", VNum 1000)])]
                 [("node1", Sample.node1)] [] in
  lodash.isEmpty (configured chainConfig (get_prop Sample.node1 "account")) = false /\
  Earlier.updateSession Sample.skeleton chainConfig =
    (Throw (StringExn (invalidSession (VStr "node1") (VStr "alice"))), Sample.skeleton).
Proof.
  intros chainConfig. split; [reflexivity|].
  apply (earlier_updateSession_incomplete Sample.skeleton chainConfig
           (VObj [("keys", VArr [])]) (VObj [("node1", Sample.node1)])
           Sample.node1 (VStr "node1") []); reflexivity.
Defined.


(** A validator whose stash is no account, after one whose stash resolves. *)
Lemma updateStaking_unknown_validator_stash_sample :
  let chainConfig :=
    Sample.chain [("alice", Sample.alice); ("bob", Sample.bob)] []
                 [Sample.stake1; Sample.stake3; Sample.stashless] in
  filter hasValidatorRole (stakingOf chainConfig) = [Sample.stake1] ++ Sample.stashless :: [] /\
  lodash.isEmpty (configured chainConfig (get_prop Sample.stashless "stash")) = true /\
  updateStaking Sample.ed25519 Sample.sr25519 Sample.skeleton chainConfig =
    (Throw (StringExn (invalidAccount (VStr "carol"))), Sample.skeleton).
Proof.
  intros chainConfig. split; [reflexivity|]. split; [reflexivity|].
  apply (updateStaking_unknown_validator_stash Sample.ed25519 Sample.sr25519 Sample.skeleton
           chainConfig Sample.stashless [Sample.stake1] []); reflexivity.
Defined.
